(** * Digital menu: order pricing, lifecycle, coupons, queries and analytics

    A shallow embedding of the order, coupon and product repositories of the
    server (OrderRepository, CouponRepository, ProductRepository over
    BaseRepository) and of the cart's coupon handler of the client
    (CartDrawer.handleApplyCoupon over the cart store and the mock service);
    then of the whole cart store, the mock service, the placing of an order,
    the choice of options and the sections of the menu (lib/store,
    lib/mock-service, CartDrawer, ProductCard, MenuList), and of the other
    methods of the product repository with the product controller and the
    error handler of the server; followed by the properties proved about
    them.

    Conventions of the embedding.
    - A [number] that the code only ever builds from integers with [+], [-]
      and [*] is a [Z]: binary64 represents every integer of magnitude below
      2^53 exactly and these operations are exact on them.
    - Where the code leaves the integers (multiplication by [0.1], division),
      the operation is evaluated in binary64 with the Standard Library's
      executable specification of IEEE 754 ([SpecFloat]).
    - A [Date] is its time value, the milliseconds since the epoch, a [Z].
      The two dates of a coupon of the store are not such values: the
      repository reads them as the store keeps them, and what they are is
      left open.
    - An optional property ([field?: T], or a property set to [undefined]) is
      an [option]: reading the one or the other gives [undefined]. The two
      differ when a document is written, and the write says which
      properties it finds [undefined].
    - [toUpperCase] and [toLowerCase] are parameters of the development.
    - A Firestore collection is a finite map from document ids to documents;
      a repository method is a function from the collection to a result and
      the collection it leaves behind. *)

From Stdlib Require Import ZArith List String Ascii Bool Lia Sorted Permutation.
From Stdlib Require Import Floats.SpecFloat.
From stdpp Require Import gmap strings list pretty.
Import ListNotations.

Local Open Scope string_scope.
Local Open Scope Z_scope.

(* ===================================================================== *)
(** * JavaScript numbers and strings                                      *)
(* ===================================================================== *)

Module JS.

(** binary64: 53 bits of precision, exponent of the infinities 1024. *)
Definition prec : Z := 53.
Definition emax : Z := 1024.

(** The number denoted by an integer literal or integer value. *)
Definition of_int (z : Z) : spec_float := binary_normalize prec emax z 0 false.

(** [x * y] and [x / y] on numbers. *)
Definition mul (x y : spec_float) : spec_float := SFmul prec emax x y.
Definition div (x y : spec_float) : spec_float := SFdiv prec emax x y.

(** The literal [0.1]: the double nearest to one tenth,
    0x1.999999999999Ap-4 = 7205759403792794 * 2^-56. *)
Definition tenth : spec_float := S754_finite false 7205759403792794 (-56).

(** The integer [n * 2^e] as a signed mantissa. *)
Definition signed (s : bool) (m : positive) : Z := cond_Zopp s (Zpos m).

(** [Math.round x]: the integer nearest to [x], a tie going to +infinity,
    that is floor (x + 1/2), computed exactly on the value [n * 2^e] of
    [x]. The result of [Math.round] on NaN or an infinity is not an
    integer; it is not reached from integer operands below 2^53 and reads
    0 here. *)
Definition Math_round (x : spec_float) : Z :=
  match x with
  | S754_finite s m e =>
      let n := signed s m in
      if 0 <=? e then n * 2 ^ e
      else (2 * n + 2 ^ (- e)) / 2 ^ (- e + 1)
  | _ => 0
  end.

(** [Math.ceil x]: the least integer not below [x]; same convention on NaN
    and the infinities. *)
Definition Math_ceil (x : spec_float) : Z :=
  match x with
  | S754_finite s m e =>
      let n := signed s m in
      if 0 <=? e then n * 2 ^ e
      else - ((- n) / 2 ^ (- e))
  | _ => 0
  end.

(** Truthiness of a number that is an integer: [0] is falsy. *)
Definition truthy (n : Z) : bool := negb (n =? 0).

(** [n || undefined]. *)
Definition or_undefined (n : Z) : option Z := if truthy n then Some n else None.

(** [String.prototype.toUpperCase] and [toLowerCase] are built-ins whose
    tables cover the letters of every script; they are no part of the
    repository and are taken as they are, two functions on text. That
    the empty text has no letter to map is all that is used of them. *)
Class CaseMapping : Type := {
  toUpperCase : string -> string;
  toLowerCase : string -> string;
  toLowerCase_empty : toLowerCase EmptyString = EmptyString
}.

(** The two mappings on text of ASCII characters, where they change the 26
    letters and nothing else; the examples, whose texts are ASCII, are
    evaluated with them. *)
Definition upper_ascii (c : ascii) : ascii :=
  let n := nat_of_ascii c in
  if ((97 <=? n) && (n <=? 122))%nat then ascii_of_nat (n - 32) else c.

Definition lower_ascii (c : ascii) : ascii :=
  let n := nat_of_ascii c in
  if ((65 <=? n) && (n <=? 90))%nat then ascii_of_nat (n + 32) else c.

Fixpoint map_string (f : ascii -> ascii) (s : string) : string :=
  match s with
  | EmptyString => EmptyString
  | String c r => String (f c) (map_string f r)
  end.

Definition ascii_case : CaseMapping :=
  {| toUpperCase := map_string upper_ascii;
     toLowerCase := map_string lower_ascii;
     toLowerCase_empty := eq_refl |}.

(** [s.startsWith(t)]. *)
Fixpoint startsWith (s t : string) : bool :=
  match t, s with
  | EmptyString, _ => true
  | String _ _, EmptyString => false
  | String b t', String a s' => if Ascii.eqb a b then startsWith s' t' else false
  end.

(** [s.includes(t)]: [t] occurs in [s] at some position. *)
Fixpoint includes (s t : string) : bool :=
  startsWith s t ||
  match s with
  | EmptyString => false
  | String _ s' => includes s' t
  end.

(** Truthiness of a string: the empty string is falsy. *)
Definition nonempty (s : string) : bool :=
  match s with EmptyString => false | _ => true end.

(** White space removed by [trim], on ASCII text. *)
Definition is_space (c : ascii) : bool :=
  let n := nat_of_ascii c in
  ((n =? 32) || ((9 <=? n) && (n <=? 13)))%nat.

(** [!s.trim()]: nothing is left of [s] once its white space is removed. *)
Fixpoint blank (s : string) : bool :=
  match s with
  | EmptyString => true
  | String c r => is_space c && blank r
  end.

(** [array.sort(compare)]: the sort is stable and [compare a b < 0] puts
    [a] before [b]; for a consistent comparator the result is the one
    stable ordering, built here by insertion from the right. *)
Fixpoint sort_insert {A} (compare : A -> A -> Z) (x : A) (l : list A) : list A :=
  match l with
  | [] => [x]
  | y :: r => if compare y x <? 0 then y :: sort_insert compare x r else x :: y :: r
  end.

Definition sort {A} (compare : A -> A -> Z) (l : list A) : list A :=
  fold_right (sort_insert compare) [] l.

(** Property keys that are array indices: canonical decimal numerals of an
    integer in 0 .. 2^32 - 2. *)
Definition digit_of (c : ascii) : option Z :=
  let n := nat_of_ascii c in
  if ((48 <=? n) && (n <=? 57))%nat then Some (Z.of_nat (n - 48)) else None.

Fixpoint digits_value (s : string) (acc : Z) : option Z :=
  match s with
  | EmptyString => Some acc
  | String c r =>
      match digit_of c with
      | Some d => digits_value r (10 * acc + d)
      | None => None
      end
  end.

Definition array_index (s : string) : option Z :=
  match s with
  | EmptyString => None
  | String c r =>
      if Ascii.eqb c "0" && nonempty r then None
      else match digits_value s 0 with
           | Some v => if v <=? 4294967294 then Some v else None
           | None => None
           end
  end.

Definition is_array_index (s : string) : bool :=
  match array_index s with Some _ => true | None => false end.

(** The names every object literal inherits from [Object.prototype]: on an
    object created as [{}] the property [o[name]] is an inherited function
    (or the prototype itself), a truthy value, though [o] has no such
    property of its own. *)
Definition object_prototype_property (name : string) : bool :=
  existsb (String.eqb name)
    ["constructor"; "__proto__"; "hasOwnProperty"; "isPrototypeOf";
     "propertyIsEnumerable"; "toLocaleString"; "toString"; "valueOf";
     "__defineGetter__"; "__defineSetter__"; "__lookupGetter__";
     "__lookupSetter__"].

(** [Object.entries(o)] for an object whose own properties were created in
    the order of the list [o]: array indices first, in ascending numeric
    order, then the other keys in the order of their creation. *)
Definition entries {V} (o : list (string * V)) : list (string * V) :=
  (sort (fun a b => default 0 (array_index (fst a)) - default 0 (array_index (fst b)))
     (List.filter (fun kv => is_array_index (fst kv)) o)
   ++ List.filter (fun kv => negb (is_array_index (fst kv))) o)%list.

End JS.

(* ===================================================================== *)
(** * Domain types (models/types.ts)                                      *)
(* ===================================================================== *)

Inductive OrderStatus : Type :=
  | draft | placed | confirmed | in_preparation | ready | served | closed | canceled.

Inductive OrderChannel : Type := dine_in | takeaway | delivery.

Definition OrderStatus_eqb (a b : OrderStatus) : bool :=
  match a, b with
  | draft, draft | placed, placed | confirmed, confirmed
  | in_preparation, in_preparation | ready, ready | served, served
  | closed, closed | canceled, canceled => true
  | _, _ => false
  end.

Definition OrderChannel_eqb (a b : OrderChannel) : bool :=
  match a, b with
  | dine_in, dine_in | takeaway, takeaway | delivery, delivery => true
  | _, _ => false
  end.

(** The members of the two enumerations, in the order of their declaration. *)
Definition all_statuses : list OrderStatus :=
  [draft; placed; confirmed; in_preparation; ready; served; closed; canceled].
Definition all_channels : list OrderChannel := [dine_in; takeaway; delivery].

Record SelectedOption : Type := mkSelectedOption {
  opt_id : string;
  opt_name : string;
  opt_choice : string;
  opt_price : Z
}.

Record OrderItem : Type := mkOrderItem {
  productId : string;
  item_name : string;
  qty : Z;
  unitPrice : Z;
  options : list SelectedOption;
  notes : option string
}.

Record Fees : Type := mkFees {
  service : option Z;
  fee_delivery : option Z
}.

Record Amounts : Type := mkAmounts {
  subtotal : Z;
  discounts : Z;
  fees : Fees;
  total : Z
}.

Inductive PaymentMethod : Type := cash | card | pix | online.

Record Payment : Type := mkPayment {
  method : PaymentMethod;
  amount : Z;
  changeDue : option Z
}.

Record Customer : Type := mkCustomer {
  customer_name : option string;
  customer_phone : option string
}.

Record Order : Type := mkOrder {
  restaurantId : string;
  tableId : option string;
  items : list OrderItem;
  status : OrderStatus;
  channel : OrderChannel;
  amounts : Amounts;
  customer : option Customer;
  payments : option (list Payment);
  orderNumber : option Z;
  createdAt : Z;
  updatedAt : Z;
  closedAt : option Z;
  cancelReason : option string
}.

Inductive CouponType : Type := percent | fixed.

(** A coupon of the client (lib/types), its two dates being dates; the
    coupons of the store are [CouponRepository.CouponDocument]. *)
Record Coupon : Type := mkCoupon {
  coupon_id : string;
  code : string;
  ctype : CouponType;
  value : Z;
  validFrom : Z;
  validTo : Z;
  minSubtotal : option Z;
  active : bool
}.

(** The fields of a product that the product query reads. *)
Record Product : Type := mkProduct {
  product_id : string;
  product_name : string;
  description : string;
  category : string;
  price : Z;
  available : bool;
  position : Z
}.

(* ===================================================================== *)
(** * Errors, results and repository computations                         *)
(* ===================================================================== *)

(** What a method throws: [new Error(message)], an error wrapped by a
    [catch] as [new Error(`${context}: ${cause}`)], or a refusal of the
    store: to update a document that does not exist, or to write data in
    which the property at [path] is [undefined]. *)
Inductive Error : Type :=
  | Thrown (message : string)
  | Wrapped (context : string) (cause : Error)
  | NoSuchDocument
  | UndefinedValue (path : string).

Inductive Result (A : Type) : Type :=
  | Ok (a : A)
  | Fail (e : Error).
Arguments Ok {A} a.
Arguments Fail {A} e.

(** A computation over a collection of documents of type [D]: it returns a
    result and the collection as it leaves it. *)
Definition Repo (D A : Type) : Type := gmap string D -> Result A * gmap string D.

Definition ret {D A} (a : A) : Repo D A := fun c => (Ok a, c).

Definition throw {D A} (e : Error) : Repo D A := fun c => (Fail e, c).

Definition bind {D A B} (m : Repo D A) (k : A -> Repo D B) : Repo D B :=
  fun c =>
    match m c with
    | (Ok a, c') => k a c'
    | (Fail e, c') => (Fail e, c')
    end.

(** [try { m } catch (error) { h error }]. *)
Definition try_catch {D A} (m : Repo D A) (h : Error -> Repo D A) : Repo D A :=
  fun c =>
    match m c with
    | (Ok a, c') => (Ok a, c')
    | (Fail e, c') => h e c'
    end.

Notation "x <- m ;; k" := (bind m (fun x => k))
  (at level 100, m at next level, right associativity).

(* ===================================================================== *)
(** * BaseRepository: single-document operations                          *)
(* ===================================================================== *)

Module BaseRepository.
Section Documents.
Context {D : Type}.

(** How a stored document takes the server's time stamp on a write. *)
Variable set_updatedAt : Z -> D -> D.

(** The path of a property of the data of a write whose value is
    [undefined], the first one if there are several. The store is the one
    [getFirestore()] returns (config/firebase.ts), with its settings as they
    are: [ignoreUndefinedProperties] is not switched on, and the store
    refuses data that holds such a property. *)
Variable undefined_property : D -> option string.

(** [create(data)]: [collection.add] stores the data, completed with
    [createdAt] and [updatedAt] at the server time [ts], under the id the
    store generates for it, [id]; it refuses data with a property set to
    [undefined], and the refusal is rethrown wrapped. [data] is a
    [CreateInput<T>], a document still waiting for its two time stamps. *)
Definition create (id : string) (ts : Z) (data : Z -> Z -> D) : Repo D string :=
  try_catch
    (fun c =>
       match undefined_property (data ts ts) with
       | Some path => (Fail (UndefinedValue path), c)
       | None => (Ok id, <[id := data ts ts]> c)
       end)
    (fun error => throw (Wrapped "Failed to create document" error)).

(** [findById(id)]: the document, or [null]. *)
Definition findById (id : string) : Repo D (option D) :=
  fun c => (Ok (c !! id), c).

(** [update(id, data)]: merges [data] into the stored document and stamps
    [updatedAt]; the store rejects the update of a document that does not
    exist, and the rejection is rethrown wrapped. *)
Definition update (ts : Z) (id : string) (data : D -> D) : Repo D unit :=
  try_catch
    (fun c =>
       match c !! id with
       | Some d => (Ok tt, <[id := set_updatedAt ts (data d)]> c)
       | None => (Fail NoSuchDocument, c)
       end)
    (fun error => throw (Wrapped "Failed to update document" error)).

End Documents.
End BaseRepository.

(* ===================================================================== *)
(** * Queries against the store                                           *)
(* ===================================================================== *)

Inductive FieldValue : Type :=
  | VString (s : string)
  | VNumber (n : Z)
  | VBool (b : bool)
  | VDate (t : Z).

Inductive WhereFilterOp : Type := op_eq | op_ge | op_le.

Inductive OrderByDirection : Type := asc | desc.

Record WhereClause : Type := mkWhere {
  w_field : string;
  w_op : WhereFilterOp;
  w_value : FieldValue
}.

(** A query as the code builds it from a collection reference: the [where]
    clauses in the order added, the [orderBy] directive and the [limit]. *)
Record Query : Type := mkQuery {
  q_where : list WhereClause;
  q_orderBy : option (string * OrderByDirection);
  q_limit : option Z
}.

Definition getCollection : Query := mkQuery [] None None.

Definition where_ (f : string) (op : WhereFilterOp) (v : FieldValue) (q : Query) : Query :=
  mkQuery (q_where q ++ [mkWhere f op v])%list (q_orderBy q) (q_limit q).

Definition orderBy (f : string) (d : OrderByDirection) (q : Query) : Query :=
  mkQuery (q_where q) (Some (f, d)) (q_limit q).

Definition limit (n : Z) (q : Query) : Query :=
  mkQuery (q_where q) (q_orderBy q) (Some n).

(** The store as a query sees it: the documents [query.get()] returns, in
    the order it returns them (after [transformSnapshot]), and the number
    [query.count().get()] reports. Filtering, sorting and limiting happen in
    the store. *)
Record Firestore (D : Type) : Type := mkFirestore {
  get : Query -> list D;
  count : Query -> Z
}.
Arguments get {D} _ _.
Arguments count {D} _ _.

(** [array.slice(start)] for an integer [start >= 0]. *)
Definition slice {A} (start : Z) (l : list A) : list A := drop (Z.to_nat start) l.

(** [array.slice(0, n)]. *)
Definition slice0 {A} (n : nat) (l : list A) : list A := take n l.

(** [findWhere(field, operator, value, orderBy?, limit?)] of BaseRepository.
    The query is built and run inside a [try]: where [query.get()] is
    rejected, or [transformSnapshot] throws on a document, the error is
    rethrown wrapped. [thrown] is that error, when there is one. *)
Definition findWhere {D} (db : Firestore D) (thrown : option Error) (f : string)
    (op : WhereFilterOp) (v : FieldValue)
    (ob : option (string * option OrderByDirection)) (lim : option Z)
    : Result (list D) :=
  let query := where_ f op v getCollection in
  let query :=
    match ob with
    | Some (field, direction) => orderBy field (default asc direction) query
    | None => query
    end in
  let query :=
    match lim with
    | Some n => if JS.truthy n then limit n query else query
    | None => query
    end in
  match thrown with
  | Some error => Fail (Wrapped "Failed to query documents" error)
  | None => Ok (get db query)
  end.

(** [queryParams.x] used as a condition for a string [x]: absent and empty
    strings are falsy. *)
Definition truthy_string (o : option string) : option string :=
  match o with
  | Some s => if JS.nonempty s then Some s else None
  | None => None
  end.

(** [PaginationSchema] after validation and defaults. *)
Record PaginationInput : Type := mkPagination {
  page : Z;
  page_limit : Z;
  sortBy : option string;
  sortOrder : OrderByDirection
}.

(** The result of a paginated query. *)
Record Page (D : Type) : Type := mkPage {
  page_docs : list D;
  page_total : Z;
  totalPages : Z;
  currentPage : Z
}.
Arguments mkPage {D} _ _ _ _.
Arguments page_docs {D} _.
Arguments page_total {D} _.
Arguments totalPages {D} _.
Arguments currentPage {D} _.

(* ===================================================================== *)
(** * OrderRepository                                                     *)
(* ===================================================================== *)

Module OrderRepository.

(** ** Documents of the orders collection *)

Definition set_updatedAt (t : Z) (o : Order) : Order :=
  mkOrder (restaurantId o) (tableId o) (items o) (status o) (channel o)
    (amounts o) (customer o) (payments o) (orderNumber o) (createdAt o) t
    (closedAt o) (cancelReason o).

(** [UpdateInput<Order>]: the properties an update carries. *)
Record OrderUpdate : Type := mkOrderUpdate {
  u_status : option OrderStatus;
  u_closedAt : option Z;
  u_cancelReason : option string;
  u_payments : option (list Payment)
}.

(** The stored document after the properties of [u] are written over it. *)
Definition merge (u : OrderUpdate) (o : Order) : Order :=
  mkOrder (restaurantId o) (tableId o) (items o)
    (default (status o) (u_status u)) (channel o) (amounts o) (customer o)
    (match u_payments u with Some p => Some p | None => payments o end)
    (orderNumber o) (createdAt o) (updatedAt o)
    (match u_closedAt u with Some t => Some t | None => closedAt o end)
    (match u_cancelReason u with Some r => Some r | None => cancelReason o end).

(** In an order handed to [create] the object [fees] is the literal of
    createOrder, which writes its two properties whatever their values: a
    fee that reads [None] there is a property set to [undefined], under the
    path given here. The optional properties of the order itself come with
    [orderData], where a property that reads [None] is absent. *)
Definition undefined_property (order : Order) : option string :=
  match service (fees (amounts order)), fee_delivery (fees (amounts order)) with
  | None, _ => Some "amounts.fees.service"
  | Some _, None => Some "amounts.fees.delivery"
  | Some _, Some _ => None
  end.

Definition create := @BaseRepository.create Order undefined_property.
Definition findById := @BaseRepository.findById Order.
Definition update := @BaseRepository.update Order set_updatedAt.

(** ** createOrder *)

Record OrderData : Type := mkOrderData {
  od_items : list OrderItem;
  od_channel : OrderChannel;
  od_tableId : option string;
  od_customer : option Customer
}.

Definition optionsPrice (item : OrderItem) : Z :=
  fold_left (fun optSum opt => optSum + opt_price opt) (options item) 0.

Definition calc_subtotal (its : list OrderItem) : Z :=
  fold_left (fun sum item => sum + (unitPrice item + optionsPrice item) * qty item)
    its 0.

(** [channel === 'dine_in' ? Math.round(subtotal * 0.1) : 0] *)
Definition serviceFee (ch : OrderChannel) (subtotal : Z) : Z :=
  if OrderChannel_eqb ch dine_in
  then JS.Math_round (JS.mul (JS.of_int subtotal) JS.tenth)
  else 0.

(** [channel === 'delivery' ? 500 : 0] *)
Definition deliveryFee (ch : OrderChannel) : Z :=
  if OrderChannel_eqb ch delivery then 500 else 0.

Definition calc_amounts (its : list OrderItem) (ch : OrderChannel) : Amounts :=
  let subtotal := calc_subtotal its in
  let serviceFee := serviceFee ch subtotal in
  let deliveryFee := deliveryFee ch in
  let total := subtotal + serviceFee + deliveryFee in
  mkAmounts subtotal 0
    (mkFees (JS.or_undefined serviceFee) (JS.or_undefined deliveryFee))
    total.

(** The order document handed to [create]; it receives its two time
    stamps there. [orderNumber] is the number drawn by
    [Math.floor(1000 + Math.random() * 9000)]. *)
Definition new_order (rid : string) (orderNumber : Z) (orderData : OrderData)
    (created updated : Z) : Order :=
  mkOrder rid (od_tableId orderData) (od_items orderData) placed
    (od_channel orderData)
    (calc_amounts (od_items orderData) (od_channel orderData))
    (od_customer orderData) None (Some orderNumber) created updated None None.

(** createOrder computes the amounts and ends with [return
    this.create(order)]: the promise of [create] is handed back as it is,
    not awaited, so that a rejection of [create] does not pass through the
    [catch] of createOrder. That [catch] guards the computation of the
    amounts, which does not throw on items that have their [options]. *)
Definition createOrder (rid docId : string) (orderNumber ts : Z)
    (orderData : OrderData) : Repo Order string :=
  create docId ts (new_order rid orderNumber orderData).

(** ** updateStatus, cancel, addPayment

    [now] is the value of [new Date()] in the method, [ts] the server time
    stamp the write receives. *)

Definition updateStatus (now ts : Z) (orderId : string) (st : OrderStatus)
    : Repo Order unit :=
  let updates := mkOrderUpdate (Some st) None None None in
  let updates :=
    if OrderStatus_eqb st closed
    then mkOrderUpdate (u_status updates) (Some now) (u_cancelReason updates)
           (u_payments updates)
    else updates in
  update ts orderId (merge updates).

Definition cancel (now ts : Z) (orderId : string) (reason : option string)
    : Repo Order unit :=
  let updates := mkOrderUpdate (Some canceled) (Some now) None None in
  let updates :=
    match reason with
    | Some r =>
        if JS.nonempty r
        then mkOrderUpdate (u_status updates) (u_closedAt updates) (Some r)
               (u_payments updates)
        else updates
    | None => updates
    end in
  update ts orderId (merge updates).

Definition addPayment (ts : Z) (orderId : string) (payment : Payment)
    : Repo Order unit :=
  try_catch
    (order <- findById orderId ;;
     match order with
     | None => throw (Thrown "Order not found")
     | Some order =>
         let payments := (default [] (payments order) ++ [payment])%list in
         update ts orderId (merge (mkOrderUpdate None None None (Some payments)))
     end)
    (fun error => throw (Wrapped "Failed to add payment" error)).

(** ** findWithQuery *)

Definition channel_name (ch : OrderChannel) : string :=
  match ch with
  | dine_in => "dine_in"
  | takeaway => "takeaway"
  | delivery => "delivery"
  end.

Record OrderQueryInput : Type := mkOrderQueryInput {
  oq_paging : PaginationInput;
  oq_status : option string;
  oq_channel : option OrderChannel;
  oq_tableId : option string;
  oq_dateFrom : option Z;
  oq_dateTo : option Z
}.

(** The filters and the sort directive of the query, before any limit. *)
Definition compile_query (queryParams : OrderQueryInput) : Query :=
  let query := getCollection in
  let query :=
    match truthy_string (oq_status queryParams) with
    | Some st => where_ "status" op_eq (VString st) query
    | None => query
    end in
  let query :=
    match oq_channel queryParams with
    | Some ch => where_ "channel" op_eq (VString (channel_name ch)) query
    | None => query
    end in
  let query :=
    match truthy_string (oq_tableId queryParams) with
    | Some t => where_ "tableId" op_eq (VString t) query
    | None => query
    end in
  let query :=
    match oq_dateFrom queryParams with
    | Some d => where_ "createdAt" op_ge (VDate d) query
    | None => query
    end in
  let query :=
    match oq_dateTo queryParams with
    | Some d => where_ "createdAt" op_le (VDate d) query
    | None => query
    end in
  let sortField := default "createdAt" (truthy_string (sortBy (oq_paging queryParams))) in
  orderBy sortField (sortOrder (oq_paging queryParams)) query.

Definition findWithQuery (db : Firestore Order) (queryParams : OrderQueryInput)
    : Page Order :=
  let query := compile_query queryParams in
  let total := count db query in
  let page := page (oq_paging queryParams) in
  let lim := page_limit (oq_paging queryParams) in
  let offset := (page - 1) * lim in
  if offset >? 0 then
    let query := limit (offset + lim) query in
    let allDocs := get db query in
    let orders := slice offset allDocs in
    let totalPages := JS.Math_ceil (JS.div (JS.of_int total) (JS.of_int lim)) in
    mkPage orders total totalPages page
  else
    let query := limit lim query in
    let orders := get db query in
    let totalPages := JS.Math_ceil (JS.div (JS.of_int total) (JS.of_int lim)) in
    mkPage orders total totalPages page.

(** ** getAnalytics *)

Record ProductStats : Type := mkProductStats {
  ps_name : string;
  ps_quantity : Z;
  ps_revenue : Z
}.

Record TopProduct : Type := mkTopProduct {
  tp_productId : string;
  tp_name : string;
  tp_quantity : Z;
  tp_revenue : Z
}.

Record Analytics : Type := mkAnalytics {
  totalOrders : Z;
  totalRevenue : Z;
  averageOrderValue : spec_float;
  ordersByStatus : list (OrderStatus * Z);
  ordersByChannel : list (OrderChannel * Z);
  topProducts : list TopProduct
}.

(** [counts[key]++] on a record of counters. *)
Definition increment {K} (eqb : K -> K -> bool) (key : K) (counts : list (K * Z))
    : list (K * Z) :=
  map (fun kn => if eqb (fst kn) key then (fst kn, snd kn + 1) else kn) counts.

(** [productStats[key]]: the value of the property, if it was created. *)
Fixpoint stats_lookup (key : string) (stats : list (string * ProductStats))
    : option ProductStats :=
  match stats with
  | [] => None
  | (k, v) :: r => if String.eqb k key then Some v else stats_lookup key r
  end.

(** Assignment to the properties of [productStats[key]]. *)
Fixpoint stats_update (key : string) (f : ProductStats -> ProductStats)
    (stats : list (string * ProductStats)) : list (string * ProductStats) :=
  match stats with
  | [] => []
  | (k, v) :: r =>
      if String.eqb k key then (k, f v) :: r else (k, v) :: stats_update key f r
  end.

(** [productStats[key]] as a condition: an own property holds a record,
    which is truthy, and so is what the object inherits. *)
Definition stats_truthy (key : string) (stats : list (string * ProductStats)) : bool :=
  match stats_lookup key stats with
  | Some _ => true
  | None => JS.object_prototype_property key
  end.

(** The body of the loop over the items of an order. The object
    [productStats] is the list of its own properties in the order of their
    creation; the two assignments reach an own property only. *)
Definition add_item (productStats : list (string * ProductStats)) (item : OrderItem)
    : list (string * ProductStats) :=
  let productStats :=
    if stats_truthy (productId item) productStats then productStats
    else (productStats ++ [(productId item, mkProductStats (item_name item) 0 0)])%list in
  let productStats :=
    stats_update (productId item)
      (fun st => mkProductStats (ps_name st) (ps_quantity st + qty item) (ps_revenue st))
      productStats in
  stats_update (productId item)
    (fun st => mkProductStats (ps_name st) (ps_quantity st)
                 (ps_revenue st + unitPrice item * qty item))
    productStats.

Definition initial_ordersByStatus : list (OrderStatus * Z) :=
  [(draft, 0); (placed, 0); (confirmed, 0); (in_preparation, 0); (ready, 0);
   (served, 0); (closed, 0); (canceled, 0)].

Definition initial_ordersByChannel : list (OrderChannel * Z) :=
  [(dine_in, 0); (takeaway, 0); (delivery, 0)].

Definition product_stats (orders : list Order) : list (string * ProductStats) :=
  fold_left (fun stats order => fold_left add_item (items order) stats) orders [].

(** The aggregation over the orders the query returned. *)
Definition analytics (orders : list Order) : Analytics :=
  let totalOrders := Z.of_nat (length orders) in
  let totalRevenue := fold_left (fun sum order => sum + total (amounts order)) orders 0 in
  let averageOrderValue :=
    if totalOrders >? 0
    then JS.div (JS.of_int totalRevenue) (JS.of_int totalOrders)
    else JS.of_int 0 in
  let ordersByStatus :=
    fold_left (fun counts order => increment OrderStatus_eqb (status order) counts)
      orders initial_ordersByStatus in
  let ordersByChannel :=
    fold_left (fun counts order => increment OrderChannel_eqb (channel order) counts)
      orders initial_ordersByChannel in
  let productStats := product_stats orders in
  let topProducts :=
    slice0 10
      (JS.sort (fun a b => tp_revenue b - tp_revenue a)
         (map (fun kv => mkTopProduct (fst kv) (ps_name (snd kv))
                           (ps_quantity (snd kv)) (ps_revenue (snd kv)))
            (JS.entries productStats))) in
  mkAnalytics totalOrders totalRevenue averageOrderValue ordersByStatus
    ordersByChannel topProducts.

(** The query of [getAnalytics]: the collection, within the dates given. *)
Definition date_range_query (startDate endDate : option Z) : Query :=
  let query := getCollection in
  let query :=
    match startDate with
    | Some d => where_ "createdAt" op_ge (VDate d) query
    | None => query
    end in
  match endDate with
  | Some d => where_ "createdAt" op_le (VDate d) query
  | None => query
  end.

Definition getAnalytics (db : Firestore Order) (startDate endDate : option Z)
    : Analytics :=
  let orders := get db (date_range_query startDate endDate) in
  analytics orders.

End OrderRepository.

(* ===================================================================== *)
(** * ProductRepository                                                   *)
(* ===================================================================== *)

Module ProductRepository.

Record ProductQueryInput : Type := mkProductQueryInput {
  pq_paging : PaginationInput;
  pq_category : option string;
  pq_available : option bool;
  pq_search : option string
}.

Definition compile_query (queryParams : ProductQueryInput) : Query :=
  let query := getCollection in
  let query :=
    match truthy_string (pq_category queryParams) with
    | Some c => where_ "category" op_eq (VString c) query
    | None => query
    end in
  let query :=
    match pq_available queryParams with
    | Some a => where_ "available" op_eq (VBool a) query
    | None => query
    end in
  let sortField := default "position" (truthy_string (sortBy (pq_paging queryParams))) in
  orderBy sortField (sortOrder (pq_paging queryParams)) query.

(** The predicate of the in-memory search filter. *)
Definition matches `{JS.CaseMapping} (searchLower : string) (product : Product)
    : bool :=
  JS.includes (JS.toLowerCase (product_name product)) searchLower
  || JS.includes (JS.toLowerCase (description product)) searchLower.

Definition findWithQuery `{JS.CaseMapping} (db : Firestore Product)
    (queryParams : ProductQueryInput) : Page Product :=
  let query := compile_query queryParams in
  let total := count db query in
  let page := page (pq_paging queryParams) in
  let lim := page_limit (pq_paging queryParams) in
  let offset := (page - 1) * lim in
  if offset >? 0 then
    let query := limit (offset + lim) query in
    let allDocs := get db query in
    let products := slice offset allDocs in
    let totalPages := JS.Math_ceil (JS.div (JS.of_int total) (JS.of_int lim)) in
    let filteredProducts :=
      match truthy_string (pq_search queryParams) with
      | Some search =>
          let searchLower := JS.toLowerCase search in
          List.filter (matches searchLower) products
      | None => products
      end in
    mkPage filteredProducts total totalPages page
  else
    let query := limit lim query in
    let products := get db query in
    let products :=
      match truthy_string (pq_search queryParams) with
      | Some search =>
          let searchLower := JS.toLowerCase search in
          List.filter (matches searchLower) products
      | None => products
      end in
    let totalPages := JS.Math_ceil (JS.div (JS.of_int total) (JS.of_int lim)) in
    mkPage products total totalPages page.

End ProductRepository.

(* ===================================================================== *)
(** * CouponRepository                                                    *)
(* ===================================================================== *)

Module CouponRepository.

(** A coupon as the store hands it back. [transformDocument] converts
    [createdAt] and [updatedAt] and nothing else, so that [validFrom] and
    [validTo] arrive as the store keeps them, whatever the declared type
    [Date] says: a Timestamp where the document was written with a date,
    the text where it was written with the text of a date ([DateSchema]
    admits both). [T] is the type of these values. *)
Record CouponDocument (T : Type) : Type := mkCouponDocument {
  id : string;
  code : string;
  type : CouponType;
  value : Z;
  validFrom : T;
  validTo : T;
  minSubtotal : option Z;
  active : bool
}.
Arguments mkCouponDocument {T} _ _ _ _ _ _ _ _.
Arguments id {T} _.
Arguments code {T} _.
Arguments type {T} _.
Arguments value {T} _.
Arguments validFrom {T} _.
Arguments validTo {T} _.
Arguments minSubtotal {T} _.
Arguments active {T} _.

(** The [error] texts of [validateCoupon]:
    - [CouponNotFound]: 'Coupon not found'
    - [CouponNotActive]: 'Coupon is not active'
    - [CouponNotYetValid]: 'Coupon is not yet valid'
    - [CouponExpired]: 'Coupon has expired'
    - [MinimumRequired m]: `Minimum order value of $${m / 100} required`
    - [ErrorValidating]: 'Error validating coupon' *)
Inductive CouponError : Type :=
  | CouponNotFound
  | CouponNotActive
  | CouponNotYetValid
  | CouponExpired
  | MinimumRequired (minSubtotal : Z)
  | ErrorValidating.

Record Validation (T : Type) : Type := mkValidation {
  valid : bool;
  coupon : option (CouponDocument T);
  error : option CouponError
}.
Arguments mkValidation {T} _ _ _.
Arguments valid {T} _.
Arguments coupon {T} _.
Arguments error {T} _.

Section Stored.
Context {mapping : JS.CaseMapping}.
Context {T : Type}.

(** [now < coupon.validFrom] and [now > coupon.validTo], for [now] the
    value of [new Date()]: comparisons of a Date with a value of the store,
    which JavaScript decides on the primitives it converts the two to. The
    conversion of a value of the store is no part of the repository; the
    two comparisons are taken as they are. *)
Variable now_before : Z -> T -> bool.
Variable now_after : Z -> T -> bool.

(** [coupons[0] || null] after [findWhere('code', '==', code.toUpperCase())];
    [thrown] is what the query throws, when it throws. *)
Definition findByCode (db : Firestore (CouponDocument T)) (thrown : option Error)
    (code : string) : Result (option (CouponDocument T)) :=
  match findWhere db thrown "code" op_eq (VString (JS.toUpperCase code)) None None with
  | Ok coupons => Ok (head coupons)
  | Fail error => Fail error
  end.

(** The whole method is one [try]: whatever the lookup throws, its [catch]
    answers [ErrorValidating]. *)
Definition validateCoupon (db : Firestore (CouponDocument T)) (thrown : option Error)
    (now : Z) (code : string) (subtotal : Z) : Validation T :=
  match findByCode db thrown code with
  | Fail _ => mkValidation false None (Some ErrorValidating)
  | Ok None => mkValidation false None (Some CouponNotFound)
  | Ok (Some coupon) =>
      if negb (active coupon) then
        mkValidation false None (Some CouponNotActive)
      else if now_before now (validFrom coupon) then
        mkValidation false None (Some CouponNotYetValid)
      else if now_after now (validTo coupon) then
        mkValidation false None (Some CouponExpired)
      else
        match minSubtotal coupon with
        | Some m =>
            if JS.truthy m && (subtotal <? m) then
              mkValidation false None (Some (MinimumRequired m))
            else mkValidation true (Some coupon) None
        | None => mkValidation true (Some coupon) None
        end
  end.

End Stored.

End CouponRepository.

(* ===================================================================== *)
(** * The cart: store, mock service and coupon handler (client)           *)
(* ===================================================================== *)

Module Cart.

Record CartItem : Type := mkCartItem {
  ci_productId : string;
  ci_name : string;
  ci_price : Z;
  ci_qty : Z;
  ci_options : list SelectedOption
}.

Record CartState : Type := mkCartState {
  cart_items : list CartItem;
  cart_channel : OrderChannel;
  cart_subtotal : Z;
  cart_discounts : Z;
  cart_fees : Fees;
  cart_total : Z;
  couponCode : option string
}.

(** [calculateTotals] of the cart store. *)
Definition calculateTotals (state : CartState) : CartState :=
  let subtotal :=
    fold_left
      (fun sum item =>
         let optionsPrice :=
           fold_left (fun optSum opt => optSum + opt_price opt) (ci_options item) 0 in
         sum + (ci_price item + optionsPrice) * ci_qty item)
      (cart_items state) 0 in
  let feesTotal :=
    fold_left (fun sum fee => sum + default 0 fee)
      [service (cart_fees state); fee_delivery (cart_fees state)] 0 in
  let total := subtotal - cart_discounts state + feesTotal in
  mkCartState (cart_items state) (cart_channel state) subtotal
    (cart_discounts state) (cart_fees state) total (couponCode state).

(** [applyCoupon(code, discount)] of the cart store. *)
Definition applyCoupon (code : string) (discount : Z) (state : CartState) : CartState :=
  calculateTotals
    (mkCartState (cart_items state) (cart_channel state) (cart_subtotal state)
       discount (cart_fees state) (cart_total state) (Some code)).

(** [MockService.getCoupon(code)] over the coupons of the demo data. *)
Definition getCoupon `{JS.CaseMapping} (demoCoupons : list Coupon) (now : Z)
    (wanted : string)
    : option Coupon :=
  find (fun c =>
          String.eqb (code c) (JS.toUpperCase wanted)
          && active c && (now >=? validFrom c) && (now <=? validTo c))
    demoCoupons.

(** The discount [handleApplyCoupon] computes for a coupon:
    [Math.round(subtotal * (coupon.value / 100))] for a percent coupon,
    [coupon.value] otherwise. *)
Definition coupon_discount (coupon : Coupon) (subtotal : Z) : Z :=
  match ctype coupon with
  | percent =>
      JS.Math_round
        (JS.mul (JS.of_int subtotal) (JS.div (JS.of_int (value coupon)) (JS.of_int 100)))
  | fixed => value coupon
  end.

Inductive Toast : Type :=
  | ToastInvalidCoupon
  | ToastBelowMinimum (minSubtotal : Z)
  | ToastApplied (discount : Z).

(** [handleApplyCoupon] with the text of the coupon field [couponInput]:
    the cart it leaves, the text left in the field and the toast shown. *)
Definition handleApplyCoupon `{JS.CaseMapping} (demoCoupons : list Coupon)
    (now : Z) (couponInput : string) (state : CartState)
    : CartState * string * option Toast :=
  if JS.blank couponInput then (state, couponInput, None)
  else
    match getCoupon demoCoupons now (JS.toUpperCase couponInput) with
    | None => (state, couponInput, Some ToastInvalidCoupon)
    | Some coupon =>
        let subtotal := cart_subtotal state in
        let below :=
          match minSubtotal coupon with
          | Some m => JS.truthy m && (subtotal <? m)
          | None => false
          end in
        if below then
          (state, couponInput, Some (ToastBelowMinimum (default 0 (minSubtotal coupon))))
        else
          let discount := coupon_discount coupon subtotal in
          (applyCoupon (JS.toUpperCase couponInput) discount state,
           EmptyString, Some (ToastApplied discount))
    end.

(** The coupons of the demo data (lib/demo-data.ts); [new Date('2024-01-01')]
    is 1704067200000 and [new Date('2024-12-31')] is 1735603200000. *)
Definition demoCoupons : list Coupon :=
  [ mkCoupon "coupon-01" "BEMVINDO10" percent 10 1704067200000 1735603200000
      (Some 2000) true;
    mkCoupon "coupon-02" "DESCONTO5" fixed 500 1704067200000 1735603200000
      None true;
    mkCoupon "coupon-03" "FRETE0" fixed 590 1704067200000 1735603200000
      (Some 5000) true ].

End Cart.

(* ===================================================================== *)
(** * Sample data                                                         *)
(* ===================================================================== *)

(** An order used to exercise the statements: one item, dine-in, placed at
    time 10, closed at time 100. *)
Definition sample_item : OrderItem :=
  mkOrderItem "prod-01" "Burger" 1 2890 [mkSelectedOption "opt-1" "Extra" "Bacon" 590] None.

Definition sample_order : Order :=
  mkOrder "demo" (Some "05") [sample_item] closed dine_in
    (OrderRepository.calc_amounts [sample_item] dine_in) None None (Some 4321) 10 100
    (Some 100) None.

Definition sample_store : gmap string Order := {[ "order-1" := sample_order ]}.

(** Two units at 1500 of a product whose id is the name of a property every
    object inherits, and an order of one item. *)
Definition inherited_name_item : OrderItem :=
  mkOrderItem "constructor" "Burger" 2 1500 [] None.

Definition order_of_item (item : OrderItem) : Order :=
  mkOrder "demo" None [item] placed takeaway
    (OrderRepository.calc_amounts [item] takeaway) None None (Some 1) 10 10 None None.

(** A store answering every query from one list of documents: the list in
    its order, cut at the limit of the query. *)
Definition list_store {D} (docs : list D) : Firestore D :=
  mkFirestore D
    (fun q => match q_limit q with
              | Some n => take (Z.to_nat n) docs
              | None => docs
              end)
    (fun _ => Z.of_nat (length docs)).

(** Forty-five orders, numbered 1 to 45. *)
Definition sample_orders : list Order :=
  map (fun i =>
         mkOrder "demo" None [sample_item] placed takeaway
           (OrderRepository.calc_amounts [sample_item] takeaway) None None
           (Some (Z.of_nat i)) 10 10 None None)
    (seq 1 45).

(** Carts: one item at 3480 on dine-in with its service fee, one item at
    300 and one at 50 without fees; and a coupon of 29 percent. *)
Definition sample_cart : Cart.CartState :=
  Cart.mkCartState [Cart.mkCartItem "prod-01" "Burger" 2890 1
                      [mkSelectedOption "opt-1" "Extra" "Bacon" 590]]
    dine_in 3480 0 (mkFees (Some 348) None) 3828 None.

Definition small_cart : Cart.CartState :=
  Cart.mkCartState [Cart.mkCartItem "prod-02" "Water" 300 1 []]
    takeaway 300 0 (mkFees None None) 300 None.

Definition cart_of_50 : Cart.CartState :=
  Cart.mkCartState [Cart.mkCartItem "prod-03" "Candy" 50 1 []]
    takeaway 50 0 (mkFees None None) 50 None.

Definition coupon_29_percent : Coupon :=
  mkCoupon "coupon-29" "OFF29" percent 29 1704067200000 1735603200000 None true.

(** The welcome coupon of the demo data as a document of the store, its
    two dates kept as times. *)
Definition sample_coupon_document : CouponRepository.CouponDocument Z :=
  CouponRepository.mkCouponDocument "coupon-01" "BEMVINDO10" percent 10
    1704067200000 1735603200000 (Some 2000) true.

Definition sample_paging (p lim : Z) : PaginationInput := mkPagination p lim None desc.

Definition sample_order_query (p lim : Z) : OrderRepository.OrderQueryInput :=
  OrderRepository.mkOrderQueryInput (sample_paging p lim) None None None None None.

(* ===================================================================== *)
(** * Vocabulary of the statements                                        *)
(* ===================================================================== *)

(** The same query for another page and page size. *)
Definition order_page (qp : OrderRepository.OrderQueryInput) (p lim : Z)
    : OrderRepository.OrderQueryInput :=
  OrderRepository.mkOrderQueryInput
    (mkPagination p lim (sortBy (OrderRepository.oq_paging qp))
       (sortOrder (OrderRepository.oq_paging qp)))
    (OrderRepository.oq_status qp) (OrderRepository.oq_channel qp)
    (OrderRepository.oq_tableId qp) (OrderRepository.oq_dateFrom qp)
    (OrderRepository.oq_dateTo qp).

(** The same product query with another search term, or none. *)
Definition product_search (qp : ProductRepository.ProductQueryInput)
    (search : option string) : ProductRepository.ProductQueryInput :=
  ProductRepository.mkProductQueryInput (ProductRepository.pq_paging qp)
    (ProductRepository.pq_category qp) (ProductRepository.pq_available qp) search.

(** The in-memory search filter of the product query on a list of
    products: no filter for an absent or empty term. *)
Definition search_filter `{JS.CaseMapping} (search : option string)
    (products : list Product)
    : list Product :=
  match truthy_string search with
  | Some term => List.filter (ProductRepository.matches (JS.toLowerCase term)) products
  | None => products
  end.

(** [t] occurs in [s]: some text, then [t], then some text. *)
Definition occurs_in (t s : string) : Prop :=
  exists pre post : string, s = (pre ++ t ++ post)%string.

(** [s] contains [t] when the case of letters is ignored. *)
Definition contains_ci `{JS.CaseMapping} (s t : string) : Prop :=
  occurs_in (JS.toLowerCase t) (JS.toLowerCase s).

(** The sum of [f x] over the elements [x] of a list. *)
Fixpoint sum_of {A} (f : A -> Z) (l : list A) : Z :=
  match l with
  | [] => 0
  | x :: r => f x + sum_of f r
  end.

(** The number of elements of a list that satisfy [f]. *)
Definition count_where {A} (f : A -> bool) (l : list A) : Z :=
  sum_of (fun x => if f x then 1 else 0) l.

(** The quantity and the revenue, price times quantity without the options,
    of the items of one product among [its]. *)
Definition quantity_of (pid : string) (its : list OrderItem) : Z :=
  sum_of (fun it => if String.eqb (productId it) pid then qty it else 0) its.

Definition revenue_of (pid : string) (its : list OrderItem) : Z :=
  sum_of (fun it => if String.eqb (productId it) pid then unitPrice it * qty it else 0) its.

(** Every item of every order, in the order of the orders. *)
Definition all_items (orders : list Order) : list OrderItem :=
  flat_map items orders.

(** The items of one product as one entry of a ranking: the name of the
    first of them, their quantity and their revenue. *)
Definition product_group (pid : string) (its : list OrderItem)
    : option OrderRepository.TopProduct :=
  match find (fun it => String.eqb (productId it) pid) its with
  | Some first =>
      Some (OrderRepository.mkTopProduct pid (item_name first)
              (quantity_of pid its) (revenue_of pid its))
  | None => None
  end.

(** Descending order of revenue. *)
Definition by_revenue (a b : OrderRepository.TopProduct) : Prop :=
  OrderRepository.tp_revenue a >= OrderRepository.tp_revenue b.

(** The integer nearest to [n / d], a tie going up, for [d > 0]. *)
Definition round_half_up (n d : Z) : Z := (2 * n + d) / (2 * d).

(** The least integer not below [n / d], for [d > 0]. *)
Definition ceil_div (n d : Z) : Z := (n + d - 1) / d.

(** The six outcomes of a coupon validation, and the outcome a result of
    [validateCoupon] stands for (none for the answer of its [catch]). *)
Inductive Outcome : Type :=
  | NOT_FOUND | INACTIVE | NOT_YET_VALID | EXPIRED | BELOW_MINIMUM | VALID.

Definition outcome_of {T} (r : CouponRepository.Validation T) : option Outcome :=
  match CouponRepository.valid r, CouponRepository.error r with
  | true, None => Some VALID
  | false, Some CouponRepository.CouponNotFound => Some NOT_FOUND
  | false, Some CouponRepository.CouponNotActive => Some INACTIVE
  | false, Some CouponRepository.CouponNotYetValid => Some NOT_YET_VALID
  | false, Some CouponRepository.CouponExpired => Some EXPIRED
  | false, Some (CouponRepository.MinimumRequired _) => Some BELOW_MINIMUM
  | _, _ => None
  end.

(* ===================================================================== *)
(** * The cart store (client, lib/store)                                  *)
(* ===================================================================== *)

(** [array.findIndex(p)]: the position of the first element that satisfies
    [p]; [None] stands for -1. *)
Fixpoint findIndex {A} (p : A -> bool) (l : list A) : option nat :=
  match l with
  | [] => None
  | x :: r => if p x then Some 0%nat else option_map S (findIndex p r)
  end.

(** [array.filter(Boolean)] on an array of objects and [null]s. *)
Fixpoint filter_Boolean {A} (l : list (option A)) : list A :=
  match l with
  | [] => []
  | Some x :: r => x :: filter_Boolean r
  | None :: r => filter_Boolean r
  end.

(** [q || 1] for an optional number. *)
Definition or_1 (q : option Z) : Z :=
  match q with
  | Some n => if JS.truthy n then n else 1
  | None => 1
  end.

Module Store.

(** [CartItem] and [CartState] of lib/types, with every property; the
    records of [Cart] above keep the ones the coupon handler reads. *)
Record CartItem : Type := mkCartItem {
  productId : string;
  name : string;
  price : Z;
  qty : Z;
  options : list SelectedOption;
  notes : option string;
  imageUrl : option string
}.

Record CartState : Type := mkCartState {
  items : list CartItem;
  restaurant : string;
  table : option string;
  channel : OrderChannel;
  subtotal : Z;
  discounts : Z;
  fees : Fees;
  total : Z;
  couponCode : option string
}.

(** The argument of [addItem]: a [CartItem] whose [qty] is optional. *)
Record NewItem : Type := mkNewItem {
  new_productId : string;
  new_name : string;
  new_price : Z;
  new_qty : option Z;
  new_options : list SelectedOption;
  new_notes : option string;
  new_imageUrl : option string
}.

Definition initialState : CartState :=
  mkCartState [] "" None dine_in 0 0 (mkFees None None) 0 None.

(** [set({ items })] and [set({ subtotal, total })]. *)
Definition set_items (newItems : list CartItem) (state : CartState) : CartState :=
  mkCartState newItems (restaurant state) (table state) (channel state)
    (subtotal state) (discounts state) (fees state) (total state)
    (couponCode state).

Definition set_qty (q : Z) (item : CartItem) : CartItem :=
  mkCartItem (productId item) (name item) (price item) q (options item)
    (notes item) (imageUrl item).

Definition optionsPrice (item : CartItem) : Z :=
  fold_left (fun optSum opt => optSum + opt_price opt) (options item) 0.

Definition calculateTotals (state : CartState) : CartState :=
  let subtotal :=
    fold_left (fun sum item => sum + (price item + optionsPrice item) * qty item)
      (items state) 0 in
  let feesTotal :=
    fold_left (fun sum fee => sum + default 0 fee)
      [service (fees state); fee_delivery (fees state)] 0 in
  let total := subtotal - discounts state + feesTotal in
  mkCartState (items state) (restaurant state) (table state) (channel state)
    subtotal (discounts state) (fees state) total (couponCode state).

Section Actions.

(** [JSON.stringify] on the options of a line. The options are objects
    built with their properties in one order (ProductCard builds them as
    [{ id, name, choice, price }]), so that the text is a function of the
    record; which function is of no consequence below. *)
Variable stringify : list SelectedOption -> string.

(** [productId === p && (!options || JSON.stringify(item.options) ===
    JSON.stringify(options))]; an array, even empty, is truthy. *)
Definition is_line (p : string) (opts : option (list SelectedOption))
    (item : CartItem) : bool :=
  String.eqb (productId item) p
  && match opts with
     | None => true
     | Some o => String.eqb (stringify (options item)) (stringify o)
     end.

Definition addItem (item : NewItem) (state : CartState) : CartState :=
  let existingIndex :=
    findIndex
      (fun i =>
         String.eqb (productId i) (new_productId item)
         && String.eqb (stringify (options i)) (stringify (new_options item)))
      (items state) in
  let newItems :=
    match existingIndex with
    | Some n =>
        alter (fun line => set_qty (qty line + or_1 (new_qty item)) line) n
          (items state)
    | None =>
        (items state
         ++ [mkCartItem (new_productId item) (new_name item) (new_price item)
               (or_1 (new_qty item)) (new_options item) (new_notes item)
               (new_imageUrl item)])%list
    end in
  calculateTotals (set_items newItems state).

Definition removeItem (p : string) (opts : option (list SelectedOption))
    (state : CartState) : CartState :=
  let newItems := List.filter (fun item => negb (is_line p opts item)) (items state) in
  calculateTotals (set_items newItems state).

Definition updateItemQty (p : string) (q : Z) (opts : option (list SelectedOption))
    (state : CartState) : CartState :=
  let newItems :=
    filter_Boolean
      (map (fun item =>
              if is_line p opts item
              then (if q <=? 0 then None else Some (set_qty q item))
              else Some item)
         (items state)) in
  calculateTotals (set_items newItems state).

End Actions.

(** [set({ ...initialState, restaurant: get().restaurant })] *)
Definition clearCart (state : CartState) : CartState :=
  mkCartState (items initialState) (restaurant state) (table initialState)
    (channel initialState) (subtotal initialState) (discounts initialState)
    (fees initialState) (total initialState) (couponCode initialState).

Definition applyCoupon (code : string) (discount : Z) (state : CartState) : CartState :=
  calculateTotals
    (mkCartState (items state) (restaurant state) (table state) (channel state)
       (subtotal state) discount (fees state) (total state) (Some code)).

Definition removeCoupon (state : CartState) : CartState :=
  calculateTotals
    (mkCartState (items state) (restaurant state) (table state) (channel state)
       (subtotal state) 0 (fees state) (total state) None).

Definition updateFees (newFees : Fees) (state : CartState) : CartState :=
  calculateTotals
    (mkCartState (items state) (restaurant state) (table state) (channel state)
       (subtotal state) (discounts state) newFees (total state) (couponCode state)).

Definition setChannel (ch : OrderChannel) (state : CartState) : CartState :=
  calculateTotals
    (mkCartState (items state) (restaurant state) (table state) ch
       (subtotal state) (discounts state) (fees state) (total state)
       (couponCode state)).

Definition setTable (t : string) (state : CartState) : CartState :=
  mkCartState (items state) (restaurant state) (Some t) (channel state)
    (subtotal state) (discounts state) (fees state) (total state)
    (couponCode state).

Definition setRestaurant (r : string) (state : CartState) : CartState :=
  mkCartState (items state) r (table state) (channel state)
    (subtotal state) (discounts state) (fees state) (total state)
    (couponCode state).

(** The store is wrapped in [persist] (zustand/middleware) under the name
    'cart-store'. [partialize] selects what is saved after every [set]: the
    lines, the restaurant, the table, the channel and the coupon code. *)
Record Persisted : Type := mkPersisted {
  saved_items : list CartItem;
  saved_restaurant : string;
  saved_table : option string;
  saved_channel : OrderChannel;
  saved_couponCode : option string
}.

Definition partialize (state : CartState) : Persisted :=
  mkPersisted (items state) (restaurant state) (table state) (channel state)
    (couponCode state).

(** The state the store starts from when the page is loaded again: the
    saved properties written over [initialState], whose subtotal, discounts,
    fees and total stand. *)
Definition rehydrate (saved : Persisted) : CartState :=
  mkCartState (saved_items saved) (saved_restaurant saved) (saved_table saved)
    (saved_channel saved) (subtotal initialState) (discounts initialState)
    (fees initialState) (total initialState) (saved_couponCode saved).

(** The part of the store that [Cart] describes. *)
Definition to_cart (state : CartState) : Cart.CartState :=
  Cart.mkCartState
    (map (fun i => Cart.mkCartItem (productId i) (name i) (price i) (qty i) (options i))
       (items state))
    (channel state) (subtotal state) (discounts state) (fees state) (total state)
    (couponCode state).

End Store.

(* ===================================================================== *)
(** * The mock service (client, lib/mock-service)                         *)
(* ===================================================================== *)

(** [s.trim()], on ASCII text. *)
Fixpoint trimStart (s : string) : string :=
  match s with
  | EmptyString => EmptyString
  | String c r => if JS.is_space c then trimStart r else s
  end.

Fixpoint trimEnd (s : string) : string :=
  match s with
  | EmptyString => EmptyString
  | String c r =>
      match trimEnd r with
      | EmptyString => if JS.is_space c then EmptyString else String c EmptyString
      | r' => String c r'
      end
  end.

Definition trim (s : string) : string := trimEnd (trimStart s).

(** [s || undefined] for a string. *)
Definition string_or_undefined (s : string) : option string :=
  if JS.nonempty s then Some s else None.

Module MockService.

(** [Order] of the client's lib/types. *)
Record Order : Type := mkOrder {
  id : string;
  tableId : option string;
  items : list OrderItem;
  status : OrderStatus;
  channel : OrderChannel;
  amounts : Amounts;
  customer : option Customer;
  orderNumber : option Z;
  createdAt : Z;
  updatedAt : Z;
  closedAt : option Z
}.

(** An instance: its private [orders] and [orderIdCounter]. *)
Record Service : Type := mkService {
  orders : list Order;
  orderIdCounter : Z
}.

(** [new MockService(restaurantId)] *)
Definition new_service : Service := mkService [] 1000.

(** [createOrder(orderData)]. [orderNumber] is the number drawn with
    [Math.random]; [created] and [updated] are the values of the two
    [new Date()]. The timers of [simulateOrderProgression] run later, as
    calls of [updateOrderStatus]. *)
Definition createOrder (orderNumber created updated : Z)
    (orderData : OrderRepository.OrderData) (this : Service) : string * Service :=
  let orderId := "order-" +:+ pretty (orderIdCounter this) in
  let subtotal :=
    fold_left
      (fun sum item =>
         let optionsPrice :=
           fold_left (fun optSum opt => optSum + opt_price opt) (options item) 0 in
         sum + (unitPrice item + optionsPrice) * qty item)
      (OrderRepository.od_items orderData) 0 in
  let serviceFee :=
    if OrderChannel_eqb (OrderRepository.od_channel orderData) dine_in
    then JS.Math_round (JS.mul (JS.of_int subtotal) JS.tenth) else 0 in
  let deliveryFee :=
    if OrderChannel_eqb (OrderRepository.od_channel orderData) delivery
    then 590 else 0 in
  let total := subtotal + serviceFee + deliveryFee in
  let order :=
    mkOrder orderId (OrderRepository.od_tableId orderData)
      (OrderRepository.od_items orderData) placed
      (OrderRepository.od_channel orderData)
      (mkAmounts subtotal 0 (mkFees (Some serviceFee) (Some deliveryFee)) total)
      (OrderRepository.od_customer orderData) (Some orderNumber) created updated
      None in
  (orderId, mkService (orders this ++ [order])%list (orderIdCounter this + 1)).

(** [updateOrderStatus(orderId, status)]: the first order with the id is
    changed in place; [updated] and [closed] are the values of the two
    [new Date()]. *)
Definition updateOrderStatus (updated closed_at : Z) (orderId : string)
    (st : OrderStatus) (this : Service) : Service :=
  match findIndex (fun o => String.eqb (id o) orderId) (orders this) with
  | Some n =>
      mkService
        (alter
           (fun order =>
              mkOrder (id order) (tableId order) (items order) st (channel order)
                (amounts order) (customer order) (orderNumber order)
                (createdAt order) updated
                (if OrderStatus_eqb st closed then Some closed_at
                 else closedAt order))
           n (orders this))
        (orderIdCounter this)
  | None => this
  end.

Definition getOrder (orderId : string) (this : Service) : option Order :=
  find (fun o => String.eqb (id o) orderId) (orders this).

Definition getOrders (this : Service) : list Order :=
  JS.sort (fun a b => createdAt b - createdAt a) (orders this).

End MockService.

(* ===================================================================== *)
(** * CartDrawer: placing the order                                       *)
(* ===================================================================== *)

Module CartDrawer.

(** The state of the component that [handlePlaceOrder] reads and writes. *)
Record Drawer : Type := mkDrawer {
  isOpen : bool;
  customerName : string;
  customerPhone : string;
  isPlacingOrder : bool
}.

Inductive Toast : Type :=
  | ToastOrderPlaced (orderId : string).

(** [handlePlaceOrder] for the table of the page, [tableNumber]. A mock
    service is created for the call; besides the cart and the component,
    the result gives that instance as the call leaves it. *)
Definition handlePlaceOrder (orderNumber created updated : Z)
    (tableNumber : option string) (drawer : Drawer) (state : Store.CartState)
    : Store.CartState * Drawer * option Toast * option MockService.Service :=
  match Store.items state with
  | [] => (state, drawer, None, None)
  | _ =>
      let mockService := MockService.new_service in
      let orderData :=
        OrderRepository.mkOrderData
          (map (fun item =>
                  mkOrderItem (Store.productId item) (Store.name item)
                    (Store.qty item) (Store.price item) (Store.options item)
                    (Store.notes item))
             (Store.items state))
          (Store.channel state) tableNumber
          (Some (mkCustomer (string_or_undefined (trim (customerName drawer)))
                   (string_or_undefined (trim (customerPhone drawer))))) in
      let '(orderId, mockService) :=
        MockService.createOrder orderNumber created updated orderData mockService in
      (Store.clearCart state, mkDrawer false "" "" false,
       Some (ToastOrderPlaced orderId), Some mockService)
  end.

End CartDrawer.

(* ===================================================================== *)
(** * Vocabulary of the statements about the client                       *)
(* ===================================================================== *)

(** The price of the lines of a cart: price and options, times quantity. *)
Definition line_total (line : Store.CartItem) : Z :=
  (Store.price line + sum_of opt_price (Store.options line)) * Store.qty line.

Definition lines_total (lines : list Store.CartItem) : Z := sum_of line_total lines.

(** The totals of a cart agree with its lines, discount and fees. *)
Definition consistent (state : Store.CartState) : Prop :=
  Store.subtotal state = lines_total (Store.items state)
  /\ Store.total state
     = Store.subtotal state - Store.discounts state
       + (default 0 (service (Store.fees state))
          + default 0 (fee_delivery (Store.fees state))).

(** The totals of a cart are those of the initial state. *)
Definition totals_reset (state : Store.CartState) : Prop :=
  Store.subtotal state = 0 /\ Store.discounts state = 0
  /\ Store.fees state = mkFees None None /\ Store.total state = 0.

(** What happens to the store: its actions, and the reload of the page,
    after which the store holds what [persist] saved. *)
Inductive Action : Type :=
  | AddItem (item : Store.NewItem)
  | RemoveItem (p : string) (opts : option (list SelectedOption))
  | UpdateItemQty (p : string) (q : Z) (opts : option (list SelectedOption))
  | ClearCart
  | ApplyCoupon (code : string) (discount : Z)
  | RemoveCoupon
  | UpdateFees (newFees : Fees)
  | SetChannel (ch : OrderChannel)
  | SetTable (t : string)
  | SetRestaurant (r : string)
  | Reload.

Definition act (stringify : list SelectedOption -> string) (a : Action)
    (state : Store.CartState) : Store.CartState :=
  match a with
  | AddItem item => Store.addItem stringify item state
  | RemoveItem p opts => Store.removeItem stringify p opts state
  | UpdateItemQty p q opts => Store.updateItemQty stringify p q opts state
  | ClearCart => Store.clearCart state
  | ApplyCoupon code discount => Store.applyCoupon code discount state
  | RemoveCoupon => Store.removeCoupon state
  | UpdateFees newFees => Store.updateFees newFees state
  | SetChannel ch => Store.setChannel ch state
  | SetTable t => Store.setTable t state
  | SetRestaurant r => Store.setRestaurant r state
  | Reload => Store.rehydrate (Store.partialize state)
  end.

(** The actions that change the lines of the cart. *)
Definition changes_lines (a : Action) : bool :=
  match a with
  | AddItem _ | RemoveItem _ _ | UpdateItemQty _ _ _ => true
  | _ => false
  end.

(** The calls that change an instance of the mock service. *)
Inductive Call : Type :=
  | CallCreateOrder (orderNumber created updated : Z)
      (orderData : OrderRepository.OrderData)
  | CallUpdateOrderStatus (updated closed_at : Z) (orderId : string)
      (st : OrderStatus).

Definition call (c : Call) (this : MockService.Service) : MockService.Service :=
  match c with
  | CallCreateOrder orderNumber created updated orderData =>
      snd (MockService.createOrder orderNumber created updated orderData this)
  | CallUpdateOrderStatus updated closed_at orderId st =>
      MockService.updateOrderStatus updated closed_at orderId st this
  end.

(** An instance after a sequence of calls. *)
Definition service_after (calls : list Call) : MockService.Service :=
  fold_left (fun this c => call c this) calls MockService.new_service.

(** Newest first. *)
Definition newest_first (a b : MockService.Order) : Prop :=
  MockService.createdAt a >= MockService.createdAt b.

(** What holds of an instance after any sequence of calls: the ids of its
    orders are the texts order-k for distinct k from 1000 to below the
    counter. *)
Definition ids_below (this : MockService.Service) : Prop :=
  1000 <= MockService.orderIdCounter this
  /\ List.NoDup (map MockService.id (MockService.orders this))
  /\ forall o, In o (MockService.orders this) ->
       exists k, 1000 <= k < MockService.orderIdCounter this
                 /\ MockService.id o = "order-" +:+ pretty k.

(* ===================================================================== *)
(** * ProductRepository: the other methods                                *)
(* ===================================================================== *)

(** [findAll(orderBy?, limit?)] of BaseRepository. *)
Definition findAll {D} (db : Firestore D)
    (ob : option (string * option OrderByDirection)) (lim : option Z) : list D :=
  let query := getCollection in
  let query :=
    match ob with
    | Some (field, direction) => orderBy field (default asc direction) query
    | None => query
    end in
  let query :=
    match lim with
    | Some n => if JS.truthy n then limit n query else query
    | None => query
    end in
  get db query.

(** [[...new Set(values)]]: the values in the order of their first
    occurrence. *)
Definition Set_of (values : list string) : list string :=
  fold_left
    (fun seen x => if existsb (String.eqb x) seen then seen else (seen ++ [x])%list)
    values [].

(** The comparison of [array.sort()] on strings: by code units, here the
    characters of ASCII text. *)
Definition default_compare (a b : string) : Z :=
  match String.compare a b with
  | Lt => -1
  | Eq => 0
  | Gt => 1
  end.

Module Products.

Definition getCategories (db : Firestore Product) : list string :=
  let products := findAll db None None in
  let categories := Set_of (map category products) in
  JS.sort default_compare categories.

Definition search `{JS.CaseMapping} (db : Firestore Product) (searchTerm : string)
    : list Product :=
  let allProducts := findAll db None None in
  let searchLower := JS.toLowerCase searchTerm in
  List.filter
    (fun product =>
       JS.includes (JS.toLowerCase (product_name product)) searchLower
       || JS.includes (JS.toLowerCase (description product)) searchLower
       || JS.includes (JS.toLowerCase (category product)) searchLower)
    allProducts.

Definition findByPriceRange (db : Firestore Product) (minPrice maxPrice : Z)
    : list Product :=
  let products := findAll db None None in
  List.filter (fun product => (price product >=? minPrice) && (price product <=? maxPrice))
    products.

(** A stored product with the properties the writes below read and set. *)
Record ProductDoc : Type := mkProductDoc {
  fields : Product;
  isHighlighted : option bool;
  isDaySpecial : option bool;
  updatedAt : Z
}.

Definition set_updatedAt (t : Z) (p : ProductDoc) : ProductDoc :=
  mkProductDoc (fields p) (isHighlighted p) (isDaySpecial p) t.

Definition findById := @BaseRepository.findById ProductDoc.
Definition update := @BaseRepository.update ProductDoc set_updatedAt.

(** [!flag] for an optional boolean. *)
Definition not_flag (flag : option bool) : bool := negb (default false flag).

Definition toggleHighlight (ts : Z) (productId : string) : Repo ProductDoc unit :=
  try_catch
    (product <- findById productId ;;
     match product with
     | None => throw (Thrown "Product not found")
     | Some product =>
         update ts productId
           (fun p => mkProductDoc (fields p) (Some (not_flag (isHighlighted product)))
                       (isDaySpecial p) (updatedAt p))
     end)
    (fun error => throw (Wrapped "Failed to toggle product highlight" error)).

Definition toggleDaySpecial (ts : Z) (productId : string) : Repo ProductDoc unit :=
  try_catch
    (product <- findById productId ;;
     match product with
     | None => throw (Thrown "Product not found")
     | Some product =>
         update ts productId
           (fun p => mkProductDoc (fields p) (isHighlighted p)
                       (Some (not_flag (isDaySpecial product))) (updatedAt p))
     end)
    (fun error => throw (Wrapped "Failed to toggle day special" error)).

End Products.


(* ===================================================================== *)
(** * Vocabulary of the statements about the server                       *)
(* ===================================================================== *)

(** The writes of the order repository. *)
Inductive OrderWrite : Type :=
  | WriteCreateOrder (rid docId : string) (orderNumber ts : Z)
      (orderData : OrderRepository.OrderData)
  | WriteUpdateStatus (now ts : Z) (orderId : string) (st : OrderStatus)
  | WriteCancel (now ts : Z) (orderId : string) (reason : option string)
  | WriteAddPayment (ts : Z) (orderId : string) (payment : Payment).

(** The collection a write leaves, whether it succeeds or fails. *)
Definition apply_write (w : OrderWrite) (c : gmap string Order) : gmap string Order :=
  match w with
  | WriteCreateOrder rid docId orderNumber ts orderData =>
      snd (OrderRepository.createOrder rid docId orderNumber ts orderData c)
  | WriteUpdateStatus now ts orderId st =>
      snd (OrderRepository.updateStatus now ts orderId st c)
  | WriteCancel now ts orderId reason =>
      snd (OrderRepository.cancel now ts orderId reason c)
  | WriteAddPayment ts orderId payment =>
      snd (OrderRepository.addPayment ts orderId payment c)
  end.

(** The collection [c] after a sequence of writes. *)
Definition orders_after (writes : list OrderWrite) (c : gmap string Order)
    : gmap string Order :=
  fold_left (fun c w => apply_write w c) writes c.

(** What the writes keep of the life of an order. *)
Definition well_kept (o : Order) : Prop :=
  (status o = closed -> closedAt o <> None)
  /\ (forall r, cancelReason o = Some r -> r <> "" /\ closedAt o <> None)
  /\ payments o <> Some [].

(** The same purchase: what was ordered, by whom and when, and its price. *)
Definition same_purchase (o o0 : Order) : Prop :=
  restaurantId o = restaurantId o0 /\ tableId o = tableId o0
  /\ items o = items o0 /\ channel o = channel o0 /\ amounts o = amounts o0
  /\ customer o = customer o0 /\ orderNumber o = orderNumber o0
  /\ createdAt o = createdAt o0.

(** The orders of [c'] are those of [c], under the same ids, each with the
    purchase it had. *)
Definition same_orders (c' c : gmap string Order) : Prop :=
  forall k,
    match c' !! k, c !! k with
    | Some o, Some o0 => same_purchase o o0
    | None, None => True
    | _, _ => False
    end.

(** Ascending order of strings, without repetition. *)
Definition string_lt (a b : string) : Prop := String.compare a b = Lt.

(* ===================================================================== *)
(** * Errors on their way to the client (middleware/errorHandler)         *)
(* ===================================================================== *)

Module ErrorHandler.

(** What the handler reads of the error it is given: whether it is a
    [ZodError] or an [AppError], its [name] and [message], and the
    [statusCode] and [code] it may carry. *)
Record JsError : Type := mkJsError {
  is_ZodError : bool;
  is_AppError : bool;
  name : string;
  message : string;
  statusCode : option Z;
  code : option string
}.

(** [new AppError(message, statusCode, code)] and its subclasses. *)
Definition AppError (name message : string) (statusCode : Z) (code : string) : JsError :=
  mkJsError false true name message (Some statusCode) (Some code).

Definition ValidationError (message : string) : JsError :=
  AppError "ValidationError" message 400 "VALIDATION_ERROR".

Definition NotFoundError (resource : string) : JsError :=
  AppError "NotFoundError" (resource +:+ " not found") 404 "NOT_FOUND".

(** [new Error(message)] *)
Definition plain_Error (message : string) : JsError :=
  mkJsError false false "Error" message None None.

(** The body of an error response and its status. *)
Record ErrorResponse : Type := mkErrorResponse {
  status : Z;
  error_message : string;
  error_code : option string;
  with_details : bool;
  with_stack : bool
}.

(** [errorHandler(err, req, res, next)] under the configuration
    [isProduction], [isDevelopment]. *)
Definition errorHandler (isProduction isDevelopment : bool) (error : JsError)
    : ErrorResponse :=
  if is_ZodError error then
    mkErrorResponse 400 "Validation failed" (Some "VALIDATION_ERROR") true false
  else if JS.includes (message error) "Firebase" then
    mkErrorResponse (if JS.includes (message error) "not found" then 404 else 500)
      (if isProduction then "Database operation failed" else message error)
      (Some "DATABASE_ERROR") false false
  else if is_AppError error then
    mkErrorResponse (default 500 (statusCode error)) (message error) (code error)
      false false
  else if String.eqb (name error) "CastError" then
    mkErrorResponse 400 "Invalid ID format" (Some "INVALID_ID") false false
  else if String.eqb (name error) "JsonWebTokenError" then
    mkErrorResponse 401 "Invalid token" (Some "INVALID_TOKEN") false false
  else if String.eqb (name error) "TokenExpiredError" then
    mkErrorResponse 401 "Token expired" (Some "TOKEN_EXPIRED") false false
  else if String.eqb (name error) "MulterError" then
    let is_code k :=
      match code error with
      | Some c => String.eqb c k
      | None => false
      end in
    let '(message, code) :=
      if is_code "LIMIT_FILE_SIZE" then ("File too large", "FILE_TOO_LARGE")
      else if is_code "LIMIT_FILE_COUNT" then ("Too many files", "TOO_MANY_FILES")
      else if is_code "LIMIT_UNEXPECTED_FILE"
           then ("Unexpected file field", "UNEXPECTED_FILE")
      else ("File upload error", "FILE_UPLOAD_ERROR") in
    mkErrorResponse 400 message (Some code) false false
  else
    let statusCode :=
      match statusCode error with
      | Some n => if JS.truthy n then n else 500
      | None => 500
      end in
    mkErrorResponse statusCode
      (if isProduction then "Internal server error" else message error)
      (Some "INTERNAL_SERVER_ERROR") false isDevelopment.

(** The [pagination] object of a paginated response. *)
Record Pagination : Type := mkPaginationInfo {
  pg_page : Z;
  pg_limit : Z;
  pg_total : Z;
  pg_totalPages : Z;
  hasNext : bool;
  hasPrev : bool
}.

(** [paginatedResponse(res, data, pagination)]: the data and the
    pagination of the body. *)
Definition paginatedResponse {D} (data : list D) (page limit total totalPages : Z)
    : list D * Pagination :=
  (data,
   mkPaginationInfo page limit total totalPages (page <? totalPages) (page >? 1)).

Section Thrown.

(** The messages of the errors with which the store refuses an update,
    and data with a property set to [undefined]. *)
Variable refusal : string.
Variable refusal_of_undefined : string -> string.

(** The message of an error of the repositories; a wrapped error reads
    [`${context}: ${cause}`], where an [Error] prints as [Error: message]. *)
Fixpoint message_of (e : Error) : string :=
  match e with
  | Thrown m => m
  | Wrapped context cause => context +:+ ": Error: " +:+ message_of cause
  | NoSuchDocument => refusal
  | UndefinedValue path => refusal_of_undefined path
  end.

Definition of_repository (e : Error) : JsError := plain_Error (message_of e).

End Thrown.

End ErrorHandler.

(* ===================================================================== *)
(** * The product controller                                              *)
(* ===================================================================== *)

Module ProductController.

Definition getAllProducts `{JS.CaseMapping} (db : Firestore Product)
    (queryParams : ProductRepository.ProductQueryInput)
    : list Product * ErrorHandler.Pagination :=
  let result := ProductRepository.findWithQuery db queryParams in
  ErrorHandler.paginatedResponse (page_docs result) (currentPage result)
    (page_limit (ProductRepository.pq_paging queryParams)) (page_total result)
    (totalPages result).

(** What a handler of the product controller leaves: a success response
    with its status and data, or an error response. *)
Inductive Response : Type :=
  | Success (status : Z) (data : option Products.ProductDoc) (message : string)
  | Failure (response : ErrorHandler.ErrorResponse).

Section Endpoints.
Variable refusal : string.
Variable refusal_of_undefined : string -> string.
Variables isProduction isDevelopment : bool.

(** A handler: the collection it leaves, and its response or the error it
    throws. [asyncHandler] hands the error to [errorHandler]. *)
Definition Handler : Type :=
  gmap string Products.ProductDoc
  -> (Response + ErrorHandler.JsError) * gmap string Products.ProductDoc.

Definition asyncHandler (fn : Handler)
    : gmap string Products.ProductDoc -> Response * gmap string Products.ProductDoc :=
  fun c =>
    match fn c with
    | (inl response, c') => (response, c')
    | (inr error, c') =>
        (Failure (ErrorHandler.errorHandler isProduction isDevelopment error), c')
    end.

(** [await] of a repository method inside a handler. *)
Definition await {A} (m : Repo Products.ProductDoc A) (k : A -> Handler) : Handler :=
  fun c =>
    match m c with
    | (Ok a, c') => k a c'
    | (Fail e, c') => (inr (ErrorHandler.of_repository refusal refusal_of_undefined e), c')
    end.

Definition getProductById (productId : string) :=
  asyncHandler
    (await (Products.findById productId) (fun product =>
     match product with
     | None => fun c => (inr (ErrorHandler.NotFoundError "Product"), c)
     | Some product =>
         fun c => (inl (Success 200 (Some product) "Product retrieved successfully"), c)
     end)).

Definition toggleHighlight (ts : Z) (productId : string) :=
  asyncHandler
    (await (Products.toggleHighlight ts productId) (fun _ =>
     await (Products.findById productId) (fun updatedProduct =>
     fun c =>
       (inl (Success 200 updatedProduct "Product highlight toggled successfully"), c)))).

Definition toggleDaySpecial (ts : Z) (productId : string) :=
  asyncHandler
    (await (Products.toggleDaySpecial ts productId) (fun _ =>
     await (Products.findById productId) (fun updatedProduct =>
     fun c =>
       (inl (Success 200 updatedProduct "Product day special toggled successfully"),
        c)))).

End Endpoints.
End ProductController.

(* ===================================================================== *)
(** * ProductCard: choosing the options of a product                      *)
(* ===================================================================== *)

Module ProductCard.

Record ProductChoice : Type := mkProductChoice {
  choice_id : string;
  choice_name : string;
  choice_price : Z
}.

Record ProductOption : Type := mkProductOption {
  option_id : string;
  option_name : string;
  required : option bool;
  maxSelections : option Z;
  choices : list ProductChoice
}.

(** The function [handleOptionChange] hands to [setSelectedOptions], for
    the options of the product, [product.options]. *)
Definition handleOptionChange (options : option (list ProductOption))
    (optionId choiceId choiceName : string) (price : Z)
    (prev : list SelectedOption) : list SelectedOption :=
  match find (fun opt => String.eqb (option_id opt) optionId) (default [] options) with
  | None => prev
  | Some option =>
      let existing := find (fun opt => String.eqb (opt_id opt) optionId) prev in
      let chosen := mkSelectedOption optionId (option_name option) choiceName price in
      let others := List.filter (fun opt => negb (String.eqb (opt_id opt) optionId)) prev in
      match maxSelections option with
      | Some 1 => (others ++ [chosen])%list
      | _ =>
          match existing with
          | Some _ => others
          | None => (prev ++ [chosen])%list
          end
      end
  end.

(** The function handed to [setSelectedOptions] when a box is unchecked. *)
Definition uncheck (optionId choiceName : string) (prev : list SelectedOption)
    : list SelectedOption :=
  List.filter
    (fun opt => negb (String.eqb (opt_id opt) optionId
                      && String.eqb (opt_choice opt) choiceName))
    prev.

(** [calculateTotalPrice()] for the price of the product. *)
Definition calculateTotalPrice (productPrice : Z) (selectedOptions : list SelectedOption)
    : Z :=
  let optionsPrice := fold_left (fun sum option => sum + opt_price option) selectedOptions 0 in
  productPrice + optionsPrice.

End ProductCard.

(* ===================================================================== *)
(** * MenuList: the sections of the menu                                  *)
(* ===================================================================== *)

Module MenuList.

(** A product of the client with its two optional flags. *)
Record MenuProduct : Type := mkMenuProduct {
  info : Product;
  isHighlighted : option bool;
  isDaySpecial : option bool
}.

Definition categories (products : list MenuProduct) : list string :=
  "all" :: Set_of (map (fun p => category (info p)) products).

Definition filteredProducts `{JS.CaseMapping} (products : list MenuProduct)
    (searchTerm selectedCategory : string) : list MenuProduct :=
  List.filter
    (fun product =>
       let matchesSearch :=
         JS.includes (JS.toLowerCase (product_name (info product)))
           (JS.toLowerCase searchTerm)
         || JS.includes (JS.toLowerCase (description (info product)))
              (JS.toLowerCase searchTerm) in
       let matchesCategory :=
         String.eqb selectedCategory "all"
         || String.eqb (category (info product)) selectedCategory in
       matchesSearch && matchesCategory)
    products.

Definition highlightedProducts (filtered : list MenuProduct) : list MenuProduct :=
  List.filter (fun p => default false (isHighlighted p)) filtered.

Definition daySpecials (filtered : list MenuProduct) : list MenuProduct :=
  List.filter (fun p => default false (isDaySpecial p)) filtered.

Definition regularProducts (filtered : list MenuProduct) : list MenuProduct :=
  List.filter
    (fun p => negb (default false (isHighlighted p))
              && negb (default false (isDaySpecial p)))
    filtered.

(** The sections by category: for each category but 'all', the regular
    products of the category; a section without products is not shown. *)
Definition categorySections (products filtered : list MenuProduct)
    : list (string * list MenuProduct) :=
  List.filter (fun section => negb (Nat.eqb (length (snd section)) 0))
    (map (fun cat =>
            (cat,
             List.filter (fun p => String.eqb (category (info p)) cat)
               (regularProducts filtered)))
       (List.filter (fun cat => negb (String.eqb cat "all")) (categories products))).

(** The products the menu shows, section after section. *)
Definition shown `{JS.CaseMapping} (products : list MenuProduct)
    (searchTerm selectedCategory : string) : list MenuProduct :=
  let filtered := filteredProducts products searchTerm selectedCategory in
  (highlightedProducts filtered ++ daySpecials filtered
   ++ concat (map snd (categorySections products filtered)))%list.

End MenuList.

(** Four writes on the sample store: an order for the same table, a
    payment of the sample order, its cancellation with a reason, and a
    payment of an order that is not stored; and three products on one page
    of twenty. *)
Definition sample_writes : list OrderWrite :=
  [ WriteCreateOrder "demo" "order-2" 4322 110
      (OrderRepository.mkOrderData [sample_item] dine_in (Some "05") None);
    WriteAddPayment 120 "order-1" (mkPayment card 3828 None);
    WriteCancel 130 130 "order-1" (Some "paid twice");
    WriteAddPayment 140 "order-2" (mkPayment cash 3828 None) ].

Definition sample_products : list Product :=
  [ mkProduct "prod-01" "Burger" "Beef and cheese" "Mains" 2890 true 1;
    mkProduct "prod-02" "Water" "Still water" "Drinks" 300 true 2;
    mkProduct "prod-03" "Candy" "Sweet" "Desserts" 50 false 3 ].

Definition sample_product_query : ProductRepository.ProductQueryInput :=
  ProductRepository.mkProductQueryInput (sample_paging 1 20) None None None.

(* ===================================================================== *)
(** * Binary64 arithmetic of the numbers the code computes               *)
(* ===================================================================== *)

(** Scaling and cancelling a positive factor in a two-sided bound. *)
Lemma enclosure_scale (c X Y : Z) :
  0 <= c -> - X <= 2 * Y <= X -> - (c * X) <= 2 * (c * Y) <= c * X.
Proof.
  intros Hc [H1 H2].
  pose proof (Z.mul_le_mono_nonneg_l _ _ c Hc H1).
  pose proof (Z.mul_le_mono_nonneg_l _ _ c Hc H2). lia.
Qed.

Lemma enclosure_cancel (c X Y : Z) :
  0 < c -> - (c * X) <= 2 * (c * Y) <= c * X -> - X <= 2 * Y <= X.
Proof.
  intros Hc [H1 H2]. split; apply (Z.mul_le_mono_pos_l _ _ c Hc); lia.
Qed.

Lemma iter_pos_nat {A} (f : A -> A) (p : positive) (x : A) :
  SpecFloat.iter_pos f p x = Nat.iter (Pos.to_nat p) f x.
Proof.
  revert x. induction p as [p IH|p IH|]; intros x; cbn [SpecFloat.iter_pos].
  - rewrite !IH. rewrite Pos2Nat.inj_xI.
    replace (S (2 * Pos.to_nat p)) with (Pos.to_nat p + (Pos.to_nat p + 1))%nat by lia.
    rewrite !Nat.iter_add. reflexivity.
  - rewrite !IH. rewrite Pos2Nat.inj_xO.
    replace (2 * Pos.to_nat p)%nat with (Pos.to_nat p + Pos.to_nat p)%nat by lia.
    rewrite Nat.iter_add. reflexivity.
  - reflexivity.
Qed.

Lemma digits2_pos_log2 (p : positive) :
  Zpos (digits2_pos p) = Z.log2 (Zpos p) + 1.
Proof.
  induction p as [p IH|p IH|]; cbn [digits2_pos].
  - rewrite Pos2Z.inj_succ, IH. destruct p; simpl; lia.
  - rewrite Pos2Z.inj_succ, IH. destruct p; simpl; lia.
  - reflexivity.
Qed.

Lemma shr_1_nonneg (m : Z) (r s : bool) :
  0 <= m ->
  shr_1 (Build_shr_record m r s) = Build_shr_record (m / 2) (Z.odd m) (r || s).
Proof.
  intros Hm. destruct m as [|p|p]; [reflexivity| |lia].
  destruct p as [p|p|]; unfold shr_1.
  - f_equal. rewrite Pos2Z.inj_xI. apply Z.div_unique with (r:=1); lia.
  - f_equal. rewrite Pos2Z.inj_xO. apply Z.div_unique with (r:=0); lia.
  - reflexivity.
Qed.

(** Splitting a remainder modulo 2P. *)
Lemma mod_double (M P : Z) :
  0 <= M -> 0 < P ->
  M mod (2 * P) = (if Z.odd (M / P) then P else 0) + M mod P.
Proof.
  intros HM HP.
  assert (HMd : M = P * (M / P) + M mod P) by (apply Z.div_mod; lia).
  assert (Hr : 0 <= M mod P < P) by (apply Z.mod_pos_bound; lia).
  assert (Hq : M / P = 2 * (M / P / 2) + (if Z.odd (M / P) then 1 else 0)).
  { rewrite <- Z.div2_div. rewrite (Z.div2_odd (M / P)) at 1.
    destruct (Z.odd (M / P)); reflexivity. }
  set (q := M / P) in *. set (h := q / 2) in *. clearbody h.
  assert (HPq : P * q = 2 * P * h + (if Z.odd q then P else 0)).
  { rewrite Hq at 1. destruct (Z.odd q); ring. }
  symmetry. apply Z.mod_unique with (q := h).
  - destruct (Z.odd q); lia.
  - destruct (Z.odd q); lia.
Qed.

Lemma shr_iter (M : Z) (r0 s0 : bool) (k : nat) :
  0 <= M ->
  Nat.iter (S k) shr_1 (Build_shr_record M r0 s0)
  = Build_shr_record (M / 2 ^ Z.of_nat (S k))
      (Z.odd (M / 2 ^ Z.of_nat k))
      (r0 || s0 || negb (M mod 2 ^ Z.of_nat k =? 0)).
Proof.
  intros HM. induction k as [|k IH].
  - cbn [Nat.iter nat_rect]. rewrite shr_1_nonneg by lia.
    change (2 ^ Z.of_nat 1) with 2. change (2 ^ Z.of_nat 0) with 1.
    rewrite Z.div_1_r, Z.mod_1_r. simpl. rewrite orb_false_r. reflexivity.
  - change (Nat.iter (S (S k)) shr_1 ?x) with (shr_1 (Nat.iter (S k) shr_1 x)).
    rewrite IH. rewrite shr_1_nonneg by (apply Z.div_pos; lia).
    set (P := 2 ^ Z.of_nat k). assert (HP : 0 < P) by (apply Z.pow_pos_nonneg; lia).
    assert (E1 : 2 ^ Z.of_nat (S k) = 2 * P)
      by (rewrite Nat2Z.inj_succ, Z.pow_succ_r by lia; reflexivity).
    assert (E2 : 2 ^ Z.of_nat (S (S k)) = 2 * (2 * P))
      by (rewrite (Nat2Z.inj_succ (S k)), Z.pow_succ_r, E1 by lia; reflexivity).
    rewrite E1, E2. f_equal.
    + rewrite Z.div_div by lia. f_equal. lia.
    + rewrite (mod_double M P) by lia.
      assert (Hr : 0 <= M mod P < P) by (apply Z.mod_pos_bound; lia).
      destruct (Z.odd (M / P)); simpl.
      * destruct (Z.eqb_spec (P + M mod P) 0); [lia|].
        simpl. rewrite !orb_true_r. reflexivity.
      * reflexivity.
Qed.



Lemma fexp_b64 (e : Z) : fexp JS.prec JS.emax e = Z.max (e - 53) (-1074).
Proof. reflexivity. Qed.

Lemma Zdigits2_log2 (m : Z) : 0 < m -> Zdigits2 m = Z.log2 m + 1.
Proof. destruct m; try lia. intros _. apply digits2_pos_log2. Qed.

Lemma log2_digits_bounds (m : Z) :
  0 < m -> 2 ^ Z.log2 m <= m < 2 ^ (Z.log2 m + 1).
Proof. intros H. pose proof (Z.log2_spec m H). lia. Qed.

(** A shift by zero or fewer positions does nothing. *)
Lemma shr_nonpos (mrs : shr_record) (e n : Z) : n <= 0 -> shr mrs e n = (mrs, e).
Proof. destruct n; try reflexivity. lia. Qed.

Lemma shr_pos (M : Z) (r0 s0 : bool) (e : Z) (k : nat) :
  0 <= M ->
  shr (Build_shr_record M r0 s0) e (Z.of_nat (S k))
  = (Build_shr_record (M / 2 ^ Z.of_nat (S k))
       (Z.odd (M / 2 ^ Z.of_nat k))
       (r0 || s0 || negb (M mod 2 ^ Z.of_nat k =? 0)),
     e + Z.of_nat (S k)).
Proof.
  intros HM. unfold shr.
  destruct (Z.of_nat (S k)) as [|p|p] eqn:E; try lia.
  rewrite iter_pos_nat. rewrite <- E.
  replace (Pos.to_nat p) with (S k) by lia.
  rewrite shr_iter by lia. reflexivity.
Qed.

(** Rounding to nearest after a shift of an exact mantissa by k+1 bits:
    the rounded mantissa is within half a unit of the quotient. *)
Lemma round_after_shift (M : Z) (k : nat) :
  0 <= M ->
  let P := 2 ^ Z.of_nat (S k) in
  let mrs := Build_shr_record (M / P) (Z.odd (M / 2 ^ Z.of_nat k))
               (negb (M mod 2 ^ Z.of_nat k =? 0)) in
  let R := round_nearest_even (shr_m mrs) (loc_of_shr_record mrs) in
  - P <= 2 * (R * P - M) <= P /\ M / P <= R <= M / P + 1.
Proof.
  intros HM P mrs R. subst mrs R. cbn [shr_m].
  set (H := 2 ^ Z.of_nat k). assert (HH : 0 < H) by (apply Z.pow_pos_nonneg; lia).
  assert (EP : P = 2 * H)
    by (subst P H; rewrite Nat2Z.inj_succ, Z.pow_succ_r by lia; reflexivity).
  assert (Hd : M = P * (M / P) + M mod P) by (apply Z.div_mod; lia).
  assert (Hm : M mod P = (if Z.odd (M / H) then H else 0) + M mod H)
    by (rewrite EP; apply mod_double; lia).
  assert (Hr : 0 <= M mod H < H) by (apply Z.mod_pos_bound; lia).
  set (q := M / P) in *. clearbody q. clearbody P. subst P.
  unfold loc_of_shr_record, round_nearest_even.
  destruct (Z.odd (M / H)); destruct (Z.eqb_spec (M mod H) 0) as [E0|E0]; cbn [negb];
    try destruct (Z.even q); lia.
Qed.

Lemma pow2_split (a b : Z) : 0 <= a -> 0 <= b -> 2 ^ (a + b) = 2 ^ a * 2 ^ b.
Proof. intros. apply Z.pow_add_r; lia. Qed.

(** The second normalisation of [binary_round_aux] on a mantissa of 53
    bits, or on 2^53. *)
Lemma renormalise (R e : Z) :
  2 ^ 52 <= R <= 2 ^ 53 -> -1074 <= e -> e + 1 <= 971 ->
  exists m' e',
    (let '(mrs, e2) := shr_fexp JS.prec JS.emax R e loc_Exact in
     match shr_m mrs with
     | Z0 => S754_zero false
     | Zpos m => if e2 <=? JS.emax - JS.prec then S754_finite false m e2
                 else S754_infinity false
     | Zneg _ => S754_nan
     end) = S754_finite false m' e'
    /\ e <= e' /\ Zpos m' * 2 ^ (e' - e) = R /\ Z.log2 (Zpos m') = 52.
Proof.
  intros HR He1 He2.
  destruct (Z.eq_dec R (2 ^ 53)) as [E|E].
  - subst R. exists (4503599627370496%positive), (e + 1).
    unfold shr_fexp. change (Zdigits2 (2 ^ 53)) with 54.
    rewrite fexp_b64. replace (Z.max (54 + e - 53) (-1074) - e) with 1 by lia.
    change (2 ^ 53) with 9007199254740992.
    cbn. change (JS.emax - JS.prec) with 971.
    destruct (Z.leb_spec (e + 1) 971); [|lia].
    repeat split; try lia. replace (e + 1 - e) with 1 by lia. reflexivity.
  - assert (HR' : 2 ^ 52 <= R < 2 ^ 53) by lia.
    assert (Hl : Z.log2 R = 52).
    { apply Z.log2_unique; [lia|]. change (2 ^ (52 + 1)) with (2 ^ 53). lia. }
    destruct R as [|m|m]; try (cbn in HR'; lia).
    exists m, e. unfold shr_fexp.
    rewrite Zdigits2_log2 by lia. rewrite Hl, fexp_b64.
    rewrite shr_nonpos by lia. cbn [shr_record_of_loc shr_m].
    change (JS.emax - JS.prec) with 971.
    destruct (Z.leb_spec e 971); [|lia].
    repeat split; try lia. rewrite Z.sub_diag. lia.
Qed.

(** Rounding an exact product (or any exact mantissa of more than 53 bits)
    to binary64: the result is the finite number [R * 2^(ex + k)], where the
    integer [R] is within half a unit of [M / 2^k]. *)
Lemma round_aux_exact (M : positive) (ex : Z) (k : nat) :
  Z.log2 (Zpos M) + 1 = 53 + Z.of_nat (S k) ->
  -1074 <= ex + Z.of_nat (S k) -> ex + Z.of_nat (S k) + 1 <= 971 ->
  exists m' e',
    binary_round_aux JS.prec JS.emax false (Zpos M) ex loc_Exact = S754_finite false m' e'
    /\ ex + Z.of_nat (S k) <= e' /\ Z.log2 (Zpos m') = 52
    /\ let R := Zpos m' * 2 ^ (e' - (ex + Z.of_nat (S k))) in
       let P := 2 ^ Z.of_nat (S k) in
       - P <= 2 * (R * P - Zpos M) <= P /\ 2 ^ 52 <= R <= 2 ^ 53.
Proof.
  intros Hd He1 He2.
  unfold binary_round_aux.
  unfold shr_fexp at 1. rewrite Zdigits2_log2 by lia. rewrite Hd, fexp_b64.
  replace (Z.max (53 + Z.of_nat (S k) + ex - 53) (-1074) - ex) with (Z.of_nat (S k)) by lia.
  cbn [shr_record_of_loc]. rewrite shr_pos by lia. cbn [orb].
  pose proof (round_after_shift (Zpos M) k ltac:(lia)) as Hround.
  cbv zeta in Hround.
  set (P := 2 ^ Z.of_nat (S k)) in *.
  set (mrs := Build_shr_record (Zpos M / P) _ _) in *.
  set (R := round_nearest_even (shr_m mrs) (loc_of_shr_record mrs)) in *.
  assert (HP : 0 < P) by (apply Z.pow_pos_nonneg; lia).
  assert (HM : 2 ^ 52 * P <= Zpos M < 2 ^ 53 * P).
  { pose proof (log2_digits_bounds (Zpos M) ltac:(lia)) as HB.
    replace (Z.log2 (Zpos M)) with (52 + Z.of_nat (S k)) in HB by lia.
    replace (52 + Z.of_nat (S k) + 1) with (53 + Z.of_nat (S k)) in HB by lia.
    rewrite !pow2_split in HB by lia. subst P. lia. }
  assert (HQ : 2 ^ 52 <= Zpos M / P < 2 ^ 53).
  { split.
    - apply Z.div_le_lower_bound; lia.
    - apply Z.div_lt_upper_bound; lia. }
  assert (HR : 2 ^ 52 <= R <= 2 ^ 53) by lia.
  destruct (renormalise R (ex + Z.of_nat (S k)) HR He1 He2)
    as (m' & e' & Heq & Hle & Hval & Hlog).
  exists m', e'. split; [exact Heq|]. split; [exact Hle|]. split; [exact Hlog|].
  cbv zeta. rewrite Hval. split; [apply Hround | exact HR].
Qed.

Lemma iter_xO_pow (p d : positive) : Zpos (Pos.iter xO p d) = Zpos p * 2 ^ Zpos d.
Proof.
  induction d as [|d IH] using Pos.peano_ind.
  - change (Pos.iter xO p 1) with (p~0)%positive. change (2 ^ 1) with 2. lia.
  - rewrite Pos.iter_succ, Pos2Z.inj_xO, IH, Pos2Z.inj_succ, Z.pow_succ_r by lia. lia.
Qed.

Lemma renormalise_small (m : positive) (e : Z) :
  Z.log2 (Zpos m) = 52 -> -1074 <= e <= 971 ->
  (let '(mrs, e2) := shr_fexp JS.prec JS.emax (Zpos m) e loc_Exact in
   match shr_m mrs with
   | Z0 => S754_zero false
   | Zpos m => if e2 <=? JS.emax - JS.prec then S754_finite false m e2
               else S754_infinity false
   | Zneg _ => S754_nan
   end) = S754_finite false m e.
Proof.
  intros Hl He. unfold shr_fexp.
  rewrite Zdigits2_log2 by lia. rewrite Hl, fexp_b64.
  rewrite shr_nonpos by lia. cbn [shr_record_of_loc shr_m].
  change (JS.emax - JS.prec) with 971.
  destruct (Z.leb_spec e 971); [reflexivity|lia].
Qed.

(** A mantissa of exactly 53 bits is left as it is. *)
Lemma round_aux_normal (m : positive) (e : Z) :
  Z.log2 (Zpos m) = 52 -> -1074 <= e <= 971 ->
  binary_round_aux JS.prec JS.emax false (Zpos m) e loc_Exact = S754_finite false m e.
Proof.
  intros Hl He. unfold binary_round_aux.
  unfold shr_fexp at 1. rewrite Zdigits2_log2 by lia. rewrite Hl, fexp_b64.
  rewrite shr_nonpos by lia. cbn [shr_record_of_loc shr_m loc_of_shr_record round_nearest_even].
  apply renormalise_small; assumption.
Qed.

(** Integers below 2^53 are represented exactly, on a mantissa of 53 bits. *)
Lemma of_int_exact (z : Z) :
  0 < z < 2 ^ 53 ->
  exists m e,
    JS.of_int z = S754_finite false m e
    /\ e = Z.log2 z - 52 /\ Z.log2 (Zpos m) = 52 /\ Zpos m = z * 2 ^ (- e).
Proof.
  intros Hz. destruct z as [|p|p]; try lia.
  assert (Hl : 0 <= Z.log2 (Zpos p) <= 52).
  { split; [apply Z.log2_nonneg|].
    assert (Z.log2 (Zpos p) < 53); [|lia]. apply Z.log2_lt_pow2; lia. }
  unfold JS.of_int, binary_normalize, binary_round.
  rewrite digits2_pos_log2, fexp_b64.
  replace (Z.max (Z.log2 (Zpos p) + 1 + 0 - 53) (-1074)) with (Z.log2 (Zpos p) - 52) by lia.
  unfold shl_align.
  destruct (Z.log2 (Zpos p) - 52 - 0) as [|d|d] eqn:Ed; try lia.
  - exists p, 0. rewrite round_aux_normal by lia.
    repeat split; try lia.
  - set (mz := Pos.iter xO p d).
    assert (Hmz : Zpos mz = Zpos p * 2 ^ Zpos d) by apply iter_xO_pow.
    assert (Hlm : Z.log2 (Zpos mz) = 52).
    { rewrite Hmz. rewrite Z.log2_mul_pow2 by lia. lia. }
    exists mz, (Z.log2 (Zpos p) - 52). rewrite round_aux_normal by lia.
    repeat split; try lia. rewrite Hmz. f_equal. f_equal. lia.
Qed.

(** [Math.round] of a positive finite number, its value written on a
    denominator [2^(-sc)] no finer than needed. *)
Lemma Math_round_scaled (m : positive) (e sc : Z) :
  sc <= e -> sc <= 0 ->
  JS.Math_round (S754_finite false m e)
  = (2 * (Zpos m * 2 ^ (e - sc)) + 2 ^ (- sc)) / (2 * 2 ^ (- sc)).
Proof.
  intros H1 H2. unfold JS.Math_round, JS.signed, cond_Zopp.
  assert (HQ : 0 < 2 ^ (- sc)) by (apply Z.pow_pos_nonneg; lia).
  destruct (Z.leb_spec 0 e) as [He|He].
  - replace (e - sc) with (e + - sc) by lia. rewrite pow2_split by lia.
    apply Z.div_unique with (r := 2 ^ (- sc)); [lia|]. lia.
  - assert (HP : 0 < 2 ^ (e - sc)) by (apply Z.pow_pos_nonneg; lia).
    replace (- e + 1) with (1 + - e) by lia. rewrite (pow2_split 1) by lia.
    change (2 ^ 1) with 2.
    replace (2 ^ (- sc)) with (2 ^ (- e) * 2 ^ (e - sc))
      by (rewrite <- pow2_split by lia; f_equal; lia).
    replace (2 * (Zpos m * 2 ^ (e - sc)) + 2 ^ (- e) * 2 ^ (e - sc))
      with ((2 * Zpos m + 2 ^ (- e)) * 2 ^ (e - sc)) by lia.
    replace (2 * (2 ^ (- e) * 2 ^ (e - sc))) with ((2 * 2 ^ (- e)) * 2 ^ (e - sc)) by lia.
    rewrite Z.div_mul_cancel_r; [reflexivity| |lia].
    assert (0 < 2 ^ (- e)) by (apply Z.pow_pos_nonneg; lia). lia.
Qed.

(** The product of two positive numbers on 53-bit mantissas: a finite
    number [R * 2^sc] with [R] within half a unit of the exact product
    scaled to 53 bits. *)
Lemma mul_enclosure (ma mb : positive) (ea eb : Z) :
  Z.log2 (Zpos ma) = 52 -> Z.log2 (Zpos mb) = 52 ->
  -1074 <= ea + eb + 52 -> ea + eb + 54 <= 971 ->
  exists m' e' K,
    JS.mul (S754_finite false ma ea) (S754_finite false mb eb) = S754_finite false m' e'
    /\ (K = 52 \/ K = 53)
    /\ ea + eb + K <= e' /\ Z.log2 (Zpos m') = 52
    /\ let R := Zpos m' * 2 ^ (e' - (ea + eb + K)) in
       - 2 ^ K <= 2 * (R * 2 ^ K - Zpos ma * Zpos mb) <= 2 ^ K
       /\ 2 ^ 52 <= R <= 2 ^ 53.
Proof.
  intros Ha Hb He1 He2.
  unfold JS.mul, SFmul. cbn [xorb].
  pose proof (log2_digits_bounds (Zpos ma) ltac:(lia)) as Ba.
  pose proof (log2_digits_bounds (Zpos mb) ltac:(lia)) as Bb.
  rewrite Ha in Ba. rewrite Hb in Bb.
  change (2 ^ (52 + 1)) with (2 ^ 53) in *.
  assert (HM : 2 ^ 104 <= Zpos (ma * mb) < 2 ^ 106).
  { rewrite Pos2Z.inj_mul. change (2 ^ 104) with (2 ^ 52 * 2 ^ 52).
    change (2 ^ 106) with (2 ^ 53 * 2 ^ 53). split.
    - apply Z.mul_le_mono_nonneg; lia.
    - apply Z.mul_lt_mono_nonneg; lia. }
  assert (HL : Z.log2 (Zpos (ma * mb)) = 104 \/ Z.log2 (Zpos (ma * mb)) = 105).
  { assert (104 <= Z.log2 (Zpos (ma * mb))) by (apply Z.log2_le_pow2; lia).
    assert (Z.log2 (Zpos (ma * mb)) < 106) by (apply Z.log2_lt_pow2; lia). lia. }
  assert (exists k : nat, Z.log2 (Zpos (ma * mb)) + 1 = 53 + Z.of_nat (S k)
                          /\ (Z.of_nat (S k) = 52 \/ Z.of_nat (S k) = 53)) as (k & Hk & HK).
  { destruct HL as [HL|HL]; [exists 51%nat | exists 52%nat]; rewrite HL; lia. }
  destruct (round_aux_exact (ma * mb) (ea + eb) k Hk ltac:(lia) ltac:(lia))
    as (m' & e' & Heq & Hle & Hlog & Hencl).
  exists m', e', (Z.of_nat (S k)). split; [exact Heq|]. split; [exact HK|].
  split; [exact Hle|]. split; [exact Hlog|]. cbv zeta in *. rewrite <- Pos2Z.inj_mul. exact Hencl.
Qed.

(** What the location computed from a remainder says. *)
Lemma new_location_spec (d r : Z) :
  0 < d -> 0 <= r < d ->
  match new_location d r with
  | loc_Exact => r = 0
  | loc_Inexact Lt => 0 < 2 * r < d
  | loc_Inexact Eq => 2 * r = d
  | loc_Inexact Gt => d < 2 * r
  end.
Proof.
  intros Hd Hr. unfold new_location, new_location_even, new_location_odd.
  destruct (Z.even d) eqn:Ev.
  - destruct (Z.eqb_spec r 0); [assumption|].
    destruct (Z.compare_spec (2 * r) d); lia.
  - destruct (Z.eqb_spec r 0); [assumption|].
    assert (Ho : Z.odd d = true) by (rewrite <- Z.negb_even, Ev; reflexivity).
    apply Z.odd_spec in Ho. destruct Ho as [c Hc].
    destruct (Z.compare_spec (2 * r + 1) d); lia.
Qed.

(** Rounding a quotient with its location, without shift. *)
Lemma round_loc_0 (q d r : Z) :
  0 < d -> 0 <= r < d ->
  let R := round_nearest_even q (new_location d r) in
  - d <= 2 * (R * d - (q * d + r)) <= d /\ q <= R <= q + 1.
Proof.
  intros Hd Hr R. subst R.
  pose proof (new_location_spec d r Hd Hr) as Hl.
  unfold round_nearest_even.
  destruct (new_location d r) as [|[| |]]; try destruct (Z.even q); lia.
Qed.

(** Rounding a quotient with its location, after a shift by one bit. *)
Lemma round_loc_1 (q d r : Z) :
  0 <= q -> 0 < d -> 0 <= r < d ->
  let mrs := shr_1 (shr_record_of_loc q (new_location d r)) in
  let R := round_nearest_even (shr_m mrs) (loc_of_shr_record mrs) in
  - (2 * d) <= 2 * (R * (2 * d) - (q * d + r)) <= 2 * d /\ q / 2 <= R <= q / 2 + 1.
Proof.
  intros Hq Hd Hr mrs R. subst mrs R.
  pose proof (new_location_spec d r Hd Hr) as Hl.
  assert (Hq2 : q = 2 * (q / 2) + (if Z.odd q then 1 else 0)).
  { rewrite <- Z.div2_div. rewrite (Z.div2_odd q) at 1.
    destruct (Z.odd q); reflexivity. }
  destruct (new_location d r) as [|[| |]]; cbn [shr_record_of_loc];
    rewrite shr_1_nonneg by lia; cbn [shr_m orb loc_of_shr_record];
    set (h := q / 2) in *; clearbody h;
    destruct (Z.odd q); cbn [round_nearest_even]; try destruct (Z.even h);
    subst q; lia.
Qed.

Lemma loc_of_record_of_loc (q : Z) (l : location) :
  loc_of_shr_record (shr_record_of_loc q l) = l
  /\ shr_m (shr_record_of_loc q l) = q.
Proof. destruct l as [|[| |]]; split; reflexivity. Qed.

(** The quotient of two positive numbers on 53-bit mantissas: a finite
    number [R * 2^sc] with [R] within half a unit of the exact quotient
    scaled to 53 bits. *)
Lemma div_enclosure (ma mb : positive) (ea eb : Z) :
  Z.log2 (Zpos ma) = 52 -> Z.log2 (Zpos mb) = 52 ->
  -1074 <= ea - eb - 53 -> ea - eb - 53 + 2 <= 971 ->
  exists m' e' n,
    JS.div (S754_finite false ma ea) (S754_finite false mb eb) = S754_finite false m' e'
    /\ (n = 0 \/ n = 1) /\ ea - eb - 53 + n <= e' /\ Z.log2 (Zpos m') = 52
    /\ let R := Zpos m' * 2 ^ (e' - (ea - eb - 53 + n)) in
       - (2 ^ n * Zpos mb) <= 2 * (R * (2 ^ n * Zpos mb) - Zpos ma * 2 ^ 53)
                           <= 2 ^ n * Zpos mb
       /\ 2 ^ 52 <= R <= 2 ^ 53.
Proof.
  intros Ha Hb He1 He2.
  pose proof (log2_digits_bounds (Zpos ma) ltac:(lia)) as Ba.
  pose proof (log2_digits_bounds (Zpos mb) ltac:(lia)) as Bb.
  rewrite Ha in Ba. rewrite Hb in Bb.
  change (2 ^ (52 + 1)) with (2 ^ 53) in *.
  unfold JS.div, SFdiv, SFdiv_core_binary. cbn [xorb].
  rewrite !Zdigits2_log2 by lia. rewrite Ha, Hb, fexp_b64.
  replace (Z.min (Z.max (52 + 1 + ea - (52 + 1 + eb) - 53) (-1074)) (ea - eb))
    with (ea - eb - 53) by lia.
  replace (ea - eb - (ea - eb - 53)) with 53 by lia.
  rewrite Z.shiftl_mul_pow2 by lia.
  set (N := Zpos ma * 2 ^ 53).
  pose proof (Z_div_mod N (Zpos mb) ltac:(lia)) as Hdm.
  destruct (Z.div_eucl N (Zpos mb)) as [q r]. destruct Hdm as [HN Hr].
  assert (HNb : 2 ^ 52 * 2 ^ 53 <= N < 2 ^ 53 * 2 ^ 53) by (subst N; lia).
  assert (Hq : 2 ^ 52 <= q < 2 ^ 54).
  { split.
    - destruct (Z_le_gt_dec (2 ^ 52) q) as [H|H]; [exact H|exfalso].
      assert (Zpos mb * q <= Zpos mb * (2 ^ 52 - 1))
        by (apply Z.mul_le_mono_nonneg_l; lia).
      lia.
    - destruct (Z_lt_ge_dec q (2 ^ 54)) as [H|H]; [exact H|exfalso].
      assert (Zpos mb * 2 ^ 54 <= Zpos mb * q)
        by (apply Z.mul_le_mono_nonneg_l; lia).
      lia. }
  assert (HL : Z.log2 q = 52 \/ Z.log2 q = 53).
  { assert (52 <= Z.log2 q) by (apply Z.log2_le_pow2; lia).
    assert (Z.log2 q < 54) by (apply Z.log2_lt_pow2; lia). lia. }
  unfold binary_round_aux. unfold shr_fexp at 1.
  rewrite Zdigits2_log2 by lia. rewrite fexp_b64.
  pose proof (log2_digits_bounds q ltac:(lia)) as Bq.
  destruct HL as [HL|HL]; rewrite HL in *.
  - (* the quotient has 53 bits *)
    change (2 ^ (52 + 1)) with (2 ^ 53) in Bq.
    rewrite shr_nonpos by lia.
    destruct (loc_of_record_of_loc q (new_location (Zpos mb) r)) as [E1 E2].
    rewrite E1, E2.
    pose proof (round_loc_0 q (Zpos mb) r ltac:(lia) Hr) as Hround. cbv zeta in Hround.
    set (R := round_nearest_even q (new_location (Zpos mb) r)) in *.
    destruct (renormalise R (ea - eb - 53) ltac:(lia) ltac:(lia) ltac:(lia))
      as (m' & e' & Heq & Hle & Hval & Hlog).
    exists m', e', 0. split; [exact Heq|]. split; [left; reflexivity|].
    split; [lia|]. split; [exact Hlog|]. cbv zeta.
    replace (ea - eb - 53 + 0) with (ea - eb - 53) by lia. rewrite Hval.
    change (2 ^ 0) with 1. split; [|lia]. rewrite !Z.mul_1_l. lia.
  - (* the quotient has 54 bits *)
    replace (Z.max (53 + 1 + (ea - eb - 53) - 53) (-1074) - (ea - eb - 53)) with 1 by lia.
    change (shr ?x ?e 1) with (shr_1 x, e + 1).
    pose proof (round_loc_1 q (Zpos mb) r ltac:(lia) ltac:(lia) Hr) as Hround.
    cbv zeta in Hround.
    set (mrs := shr_1 (shr_record_of_loc q (new_location (Zpos mb) r))) in *.
    set (R := round_nearest_even (shr_m mrs) (loc_of_shr_record mrs)) in *.
    change (2 ^ (53 + 1)) with (2 ^ 54) in Bq.
    assert (Hq2 : 2 ^ 52 <= q / 2 < 2 ^ 53).
    { split; [apply Z.div_le_lower_bound|apply Z.div_lt_upper_bound]; lia. }
    destruct (renormalise R (ea - eb - 53 + 1) ltac:(lia) ltac:(lia) ltac:(lia))
      as (m' & e' & Heq & Hle & Hval & Hlog).
    exists m', e', 1. split; [exact Heq|]. split; [right; reflexivity|].
    split; [lia|]. split; [exact Hlog|]. cbv zeta. rewrite Hval.
    change (2 ^ 1) with 2. split; [|lia]. lia.
Qed.

Lemma log2_below (z n : Z) : 0 < z < 2 ^ n -> 0 <= n -> 0 <= Z.log2 z <= n - 1.
Proof.
  intros Hz Hn. split; [apply Z.log2_nonneg|].
  assert (Z.log2 z < n); [|lia]. apply Z.log2_lt_pow2; lia.
Qed.

(** The quotient of two positive integers below 2^53: the finite number
    [R / 2^(-sc)], where [R] is an integer nearest to [a * 2^(-sc) / b]. *)
Lemma div_of_int (a b : Z) :
  0 < a < 2 ^ 53 -> 0 < b < 2 ^ 53 ->
  exists m e sc,
    JS.div (JS.of_int a) (JS.of_int b) = S754_finite false m e
    /\ Z.log2 (Zpos m) = 52 /\ sc <= e <= sc + 1 /\ sc <= 0
    /\ Z.log2 a - Z.log2 b - 53 <= sc <= Z.log2 a - Z.log2 b - 52
    /\ let R := Zpos m * 2 ^ (e - sc) in
       - b <= 2 * (R * b - a * 2 ^ (- sc)) <= b /\ 2 ^ 52 <= R <= 2 ^ 53.
Proof.
  intros Ha Hb.
  destruct (of_int_exact a Ha) as (ma & ea & Hofa & Hea & Hlma & Hma).
  destruct (of_int_exact b Hb) as (mb & eb & Hofb & Heb & Hlmb & Hmb).
  pose proof (log2_below a 53 Ha ltac:(lia)) as Hla.
  pose proof (log2_below b 53 Hb ltac:(lia)) as Hlb.
  rewrite Hofa, Hofb.
  destruct (div_enclosure ma mb ea eb Hlma Hlmb ltac:(lia) ltac:(lia))
    as (m' & e' & n & Hdiv & Hn & Hle & Hlog & Henc & HR).
  exists m', e', (ea - eb - 53 + n).
  split; [exact Hdiv|]. split; [exact Hlog|].
  set (sc := ea - eb - 53 + n) in *.
  set (R := Zpos m' * 2 ^ (e' - sc)) in *.
  assert (He' : e' <= sc + 1).
  { destruct (Z_le_gt_dec e' (sc + 1)) as [H|H]; [exact H|exfalso].
    assert (2 ^ 2 <= 2 ^ (e' - sc)) by (apply Z.pow_le_mono_r; lia).
    pose proof (log2_digits_bounds (Zpos m') ltac:(lia)) as Bm. rewrite Hlog in Bm.
    assert (Zpos m' * 2 ^ 2 <= Zpos m' * 2 ^ (e' - sc))
      by (apply Z.mul_le_mono_nonneg_l; lia).
    subst R. lia. }
  split; [lia|]. split; [lia|]. split; [lia|].
  cbv zeta. split; [|exact HR].
  set (Q := 2 ^ (- sc)).
  set (Pa := 2 ^ (- ea)) in *. set (Pb := 2 ^ (- eb)) in *.
  set (W := 2 ^ n) in *.
  assert (HPa : 0 < Pa) by (apply Z.pow_pos_nonneg; lia).
  assert (HPb : 0 < Pb) by (apply Z.pow_pos_nonneg; lia).
  assert (HW : 0 < W) by (apply Z.pow_pos_nonneg; lia).
  assert (HE : Pa * 2 ^ 53 = Q * (W * Pb)).
  { subst Pa Q W Pb. rewrite <- !pow2_split by lia. f_equal. lia. }
  rewrite Hma, Hmb in Henc.
  set (D := 2 ^ 53) in *.
  clearbody D Q W Pa Pb R.
  assert (E1 : R * (W * (b * Pb)) - a * Pa * D = (W * Pb) * (R * b - a * Q)).
  { replace (a * Pa * D) with (a * (Pa * D)) by ring. rewrite HE. ring. }
  rewrite E1 in Henc.
  assert (HWP : 0 < W * Pb) by (apply Z.mul_pos_pos; assumption).
  replace (W * (b * Pb)) with ((W * Pb) * b) in Henc by ring.
  exact (enclosure_cancel (W * Pb) b (R * b - a * Q) HWP Henc).
Qed.

(** The product of a positive integer below 2^53 and a positive number on
    a 53-bit mantissa [my * 2^ey]: the finite number [R * 2^(ey + g)],
    where [R] is an integer nearest to [s * my / 2^g]. *)
Lemma mul_of_int (s : Z) (my : positive) (ey : Z) :
  0 < s < 2 ^ 53 -> Z.log2 (Zpos my) = 52 -> -1000 <= ey <= 900 ->
  exists m e g,
    JS.mul (JS.of_int s) (S754_finite false my ey) = S754_finite false m e
    /\ Z.log2 s <= g <= Z.log2 s + 1 /\ ey + g <= e
    /\ let R := Zpos m * 2 ^ (e - (ey + g)) in
       - 2 ^ g <= 2 * (R * 2 ^ g - s * Zpos my) <= 2 ^ g /\ 2 ^ 52 <= R <= 2 ^ 53.
Proof.
  intros Hs Hy Hey.
  destruct (of_int_exact s Hs) as (ms & es & Hof & Hes & Hlms & Hms).
  pose proof (log2_below s 53 Hs ltac:(lia)) as Hls.
  rewrite Hof.
  destruct (mul_enclosure ms my es ey Hlms Hy ltac:(lia) ltac:(lia))
    as (m' & e' & K & Hmul & HK & Hle & _ & Henc & HR).
  exists m', e', (Z.log2 s + K - 52).
  split; [exact Hmul|]. split; [lia|].
  replace (ey + (Z.log2 s + K - 52)) with (es + ey + K) by lia.
  split; [exact Hle|]. cbv zeta. split; [|exact HR].
  set (R := Zpos m' * 2 ^ (e' - (es + ey + K))) in *.
  rewrite Hms in Henc.
  assert (HE : 2 ^ K = 2 ^ (- es) * 2 ^ (Z.log2 s + K - 52)).
  { rewrite <- pow2_split by lia. f_equal. lia. }
  rewrite HE in Henc.
  set (P := 2 ^ (- es)) in *. set (G := 2 ^ (Z.log2 s + K - 52)) in *.
  assert (HP : 0 < P) by (apply Z.pow_pos_nonneg; lia).
  clearbody P G R.
  apply (enclosure_cancel P G (R * G - s * Zpos my) HP).
  replace (P * (R * G - s * Zpos my)) with (R * (P * G) - s * P * Zpos my) by ring.
  exact Henc.
Qed.

(** The integer arithmetic behind [Math.round(s * 0.1)]: [R / Q] is the
    double nearest to [s * T / D], with [T / D] the double nearest to one
    tenth. *)
Lemma round_tenth_arith (s R Q Q' D T : Z) :
  0 <= s -> 0 <= R -> 0 < D -> 10 * T = D + 4 -> 8 * s + 112 < D ->
  Q = 2 * Q' -> 16 <= Q ->
  - D <= 2 * (R * D - s * T * Q) <= D ->
  (2 * R + Q) / (2 * Q) = (s + 5) / 10.
Proof.
  intros Hs HR HD HT Hsmall HQ HQ16 Henc.
  set (K := (s + 5) / 10).
  assert (HK : s + 5 = 10 * K + (s + 5) mod 10) by (apply Z.div_mod; lia).
  assert (Hr : 0 <= (s + 5) mod 10 < 10) by (apply Z.mod_pos_bound; lia).
  assert (HK0 : 0 <= K) by (apply Z.div_pos; lia).
  clearbody K.
  assert (Eb : 10 * (s * T * Q) = (s * Q) * D + 4 * (s * Q)).
  { replace (10 * (s * T * Q)) with (s * Q * (10 * T)) by ring. rewrite HT. ring. }
  assert (HQ0 : 0 <= Q) by lia.
  assert (HQD0 : 0 <= Q * D) by (apply Z.mul_nonneg_nonneg; lia).
  assert (HsQ : 0 <= s * Q) by (apply Z.mul_nonneg_nonneg; lia).
  assert (H5 : (8 * s + 112) * Q <= D * Q) by (apply Z.mul_le_mono_nonneg_r; lia).
  assert (H6 : 16 * D <= Q * D) by (apply Z.mul_le_mono_nonneg_r; lia).
  assert (H7 : (10 * K - 5) * Q <= s * Q) by (apply Z.mul_le_mono_nonneg_r; lia).
  assert (H8 : (10 * K - 5) * (Q * D) <= s * (Q * D)) by (apply Z.mul_le_mono_nonneg_r; lia).
  assert (H9 : s * Q <= (10 * K + 4) * Q) by (apply Z.mul_le_mono_nonneg_r; lia).
  assert (H10 : s * (Q * D) <= (10 * K + 4) * (Q * D)) by (apply Z.mul_le_mono_nonneg_r; lia).
  symmetry. apply Z.div_unique with (r := 2 * R + Q - 2 * Q * K); [|lia].
  left. split.
  - (* (2K - 1) Q <= 2R *)
    destruct (Z.eq_dec K 0) as [E|E]; [rewrite E; lia|].
    destruct (Z_le_gt_dec ((2 * K - 1) * Q') R) as [Hle|Hgt]; [subst Q; lia|exfalso].
    assert (H1 : (R + 1) * D <= (2 * K - 1) * Q' * D) by (apply Z.mul_le_mono_nonneg_r; lia).
    subst Q. lia.
  - (* 2R < (2K + 1) Q *)
    destruct (Z_lt_ge_dec (2 * R) ((2 * K + 1) * Q)) as [Hlt|Hge]; [lia|exfalso].
    assert (H1 : (2 * K + 1) * Q * D <= 2 * R * D) by (apply Z.mul_le_mono_nonneg_r; lia).
    lia.
Qed.

Lemma log2_tenth : Z.log2 7205759403792794 = 52.
Proof. reflexivity. Qed.

(** [Math.round(s * 0.1)] is the tenth of [s] rounded half up, for every
    integer [s] from 0 below 2^50. *)
Theorem round_tenth (s : Z) :
  0 <= s < 2 ^ 50 ->
  JS.Math_round (JS.mul (JS.of_int s) JS.tenth) = (s + 5) / 10.
Proof.
  intros Hs. destruct (Z.eq_dec s 0) as [->|Hnz]; [reflexivity|].
  assert (Hs53 : 0 < s < 2 ^ 53).
  { assert (2 ^ 50 < 2 ^ 53) by reflexivity. lia. }
  pose proof (log2_below s 50 ltac:(lia) ltac:(lia)) as Hls.
  unfold JS.tenth.
  destruct (mul_of_int s 7205759403792794 (-56) Hs53 log2_tenth ltac:(lia))
    as (m & e & g & Hmul & Hg & Hle & Henc & HR).
  rewrite Hmul.
  set (sc := -56 + g) in *.
  rewrite (Math_round_scaled m e sc) by lia.
  set (R := Zpos m * 2 ^ (e - sc)) in *.
  set (Q := 2 ^ (- sc)).
  set (G := 2 ^ g) in *.
  assert (HQ : 0 < Q) by (apply Z.pow_pos_nonneg; lia).
  assert (HGQ : G * Q = 2 ^ 56).
  { subst G Q. rewrite <- pow2_split by lia. f_equal. lia. }
  assert (HQ64 : 2 ^ 6 <= Q) by (apply Z.pow_le_mono_r; lia).
  assert (HQ' : Q = 2 * 2 ^ (- sc - 1)).
  { subst Q. replace (- sc) with (1 + (- sc - 1)) at 1 by lia.
    rewrite pow2_split by lia. reflexivity. }
  assert (HQ16 : 16 <= Q) by (change (2 ^ 6) with 64 in HQ64; lia).
  assert (HR0 : 0 <= R) by (assert (0 < 2 ^ 52) by reflexivity; lia).
  assert (Hs8 : 8 * s + 112 < 2 ^ 56).
  { assert (2 ^ 50 * 8 + 112 < 2 ^ 56) by reflexivity. lia. }
  assert (HD : 0 < 2 ^ 56) by reflexivity.
  assert (HT : 10 * 7205759403792794 = 2 ^ 56 + 4) by reflexivity.
  assert (Hs0 : 0 <= s) by lia.
  pose proof (enclosure_scale Q G (R * G - s * 7205759403792794) ltac:(lia) Henc) as Hsc.
  replace (Q * (R * G - s * 7205759403792794))
    with (R * (G * Q) - s * 7205759403792794 * Q) in Hsc by ring.
  replace (Q * G) with (G * Q) in Hsc by ring.
  rewrite HGQ in Hsc.
  set (D := 2 ^ 56) in *. set (T := 7205759403792794) in *.
  clearbody D T Q R.
  exact (round_tenth_arith s R Q (2 ^ (- sc - 1)) D T Hs0 HR0 HD HT Hs8 HQ' HQ16 Hsc).
Qed.

Lemma Math_ceil_scaled (m : positive) (e sc : Z) :
  sc <= e -> sc <= 0 ->
  JS.Math_ceil (S754_finite false m e)
  = - ((- (Zpos m * 2 ^ (e - sc))) / 2 ^ (- sc)).
Proof.
  intros H1 H2. unfold JS.Math_ceil, JS.signed, cond_Zopp.
  assert (HQ : 0 < 2 ^ (- sc)) by (apply Z.pow_pos_nonneg; lia).
  destruct (Z.leb_spec 0 e) as [He|He].
  - replace (e - sc) with (e + - sc) by lia. rewrite pow2_split by lia.
    replace (- (Zpos m * (2 ^ e * 2 ^ (- sc)))) with ((- (Zpos m * 2 ^ e)) * 2 ^ (- sc)) by ring.
    rewrite Z.div_mul by lia. lia.
  - assert (HP : 0 < 2 ^ (e - sc)) by (apply Z.pow_pos_nonneg; lia).
    assert (HE : 0 < 2 ^ (- e)) by (apply Z.pow_pos_nonneg; lia).
    replace (2 ^ (- sc)) with (2 ^ (- e) * 2 ^ (e - sc))
      by (rewrite <- pow2_split by lia; f_equal; lia).
    replace (- (Zpos m * 2 ^ (e - sc))) with ((- Zpos m) * 2 ^ (e - sc)) by ring.
    rewrite Z.div_mul_cancel_r by lia. reflexivity.
Qed.

Lemma ceil_arith (a b R Q : Z) :
  0 < a -> 0 < b -> 0 < Q -> b < 2 * Q ->
  - b <= 2 * (R * b - a * Q) <= b ->
  - ((- R) / Q) = (a + b - 1) / b.
Proof.
  intros Ha Hb HQ HbQ Henc.
  set (c := (a + b - 1) / b).
  assert (Hc : a + b - 1 = b * c + (a + b - 1) mod b) by (apply Z.div_mod; lia).
  assert (Hr : 0 <= (a + b - 1) mod b < b) by (apply Z.mod_pos_bound; lia).
  clearbody c.
  assert (Ha1 : (b * c - (b - 1)) * Q <= a * Q) by (apply Z.mul_le_mono_nonneg_r; lia).
  assert (Ha2 : a * Q <= b * c * Q) by (apply Z.mul_le_mono_nonneg_r; lia).
  assert (E : (- R) / Q = - c); [|lia].
  symmetry. apply Z.div_unique with (r := c * Q - R); [|lia].
  left. split.
  - (* R <= c Q *)
    destruct (Z_le_gt_dec R (c * Q)) as [H|H]; [lia|exfalso].
    assert (b * (c * Q + 1) <= b * R) by (apply Z.mul_le_mono_nonneg_l; lia).
    lia.
  - (* (c - 1) Q < R *)
    destruct (Z_lt_ge_dec ((c - 1) * Q) R) as [H|H]; [lia|exfalso].
    assert (b * R <= b * ((c - 1) * Q)) by (apply Z.mul_le_mono_nonneg_l; lia).
    lia.
Qed.

(** [Math.ceil(a / b)] is the exact ceiling of the quotient, for integers
    [0 <= a < 2^50] and [1 <= b < 2^53]. *)
Theorem ceil_quotient (a b : Z) :
  0 <= a < 2 ^ 50 -> 1 <= b < 2 ^ 53 ->
  JS.Math_ceil (JS.div (JS.of_int a) (JS.of_int b)) = (a + b - 1) / b.
Proof.
  intros Ha Hb.
  destruct (Z.eq_dec a 0) as [->|Hnz].
  { destruct (of_int_exact b ltac:(lia)) as (mb & eb & Hofb & _).
    rewrite Hofb.
    change (JS.Math_ceil (JS.div (JS.of_int 0) (S754_finite false mb eb))) with 0.
    symmetry. apply Z.div_small. lia. }
  assert (Ha53 : 0 < a < 2 ^ 53).
  { assert (2 ^ 50 < 2 ^ 53) by reflexivity. lia. }
  pose proof (log2_below a 50 ltac:(lia) ltac:(lia)) as Hla.
  destruct (div_of_int a b Ha53 ltac:(lia))
    as (m & e & sc & Hdiv & _ & He & Hsc0 & Hsc & Henc & HR).
  rewrite Hdiv. rewrite (Math_ceil_scaled m e sc) by lia.
  cbv zeta in Henc.
  set (R := Zpos m * 2 ^ (e - sc)) in *.
  set (Q := 2 ^ (- sc)) in *.
  assert (HQ : 0 < Q) by (apply Z.pow_pos_nonneg; lia).
  assert (HbQ : b < 2 * Q).
  { pose proof (log2_digits_bounds b ltac:(lia)) as Bb.
    assert (2 ^ (Z.log2 b + 1) <= Q); [|lia].
    subst Q. apply Z.pow_le_mono_r; lia. }
  clearbody Q R.
  apply ceil_arith; [lia | lia | exact HQ | exact HbQ | exact Henc].
Qed.

(** The integer arithmetic behind [Math.round(s * (v / 100))]: [R / Q] is
    within a small distance of [X / 100]. *)
Lemma percent_arith (X R Q : Z) :
  0 <= X -> 64 <= Q ->
  - (1000 + Q) <= 20 * (100 * R - X * Q) <= 1000 + Q ->
  let d := (2 * R + Q) / (2 * Q) in
  let A := (2 * X + 100) / 200 in
  A - 1 <= d <= A /\ (X mod 100 <> 50 -> d = A).
Proof.
  intros HX HQ Henc d A.
  assert (HA : 2 * X + 100 = 200 * A + (2 * X + 100) mod 200) by (apply Z.div_mod; lia).
  assert (Hr : 0 <= (2 * X + 100) mod 200 < 200) by (apply Z.mod_pos_bound; lia).
  assert (Hd : 2 * R + Q = 2 * Q * d + (2 * R + Q) mod (2 * Q)) by (apply Z.div_mod; lia).
  assert (Hrd : 0 <= (2 * R + Q) mod (2 * Q) < 2 * Q) by (apply Z.mod_pos_bound; lia).
  clearbody d A.
  assert (HXQ1 : X * Q <= (100 * A + 49) * Q) by (apply Z.mul_le_mono_nonneg_r; lia).
  assert (HXQ2 : (100 * A - 50) * Q <= X * Q) by (apply Z.mul_le_mono_nonneg_r; lia).
  assert (Hup : d <= A).
  { destruct (Z_le_gt_dec d A) as [H|H]; [exact H|exfalso].
    assert (2 * Q * (A + 1) <= 2 * Q * d) by (apply Z.mul_le_mono_nonneg_l; lia).
    lia. }
  assert (Hlo : A - 1 <= d).
  { destruct (Z_le_gt_dec (A - 1) d) as [H|H]; [exact H|exfalso].
    assert (2 * Q * d <= 2 * Q * (A - 2)) by (apply Z.mul_le_mono_nonneg_l; lia).
    lia. }
  split; [lia|].
  intros Hne.
  assert (HX' : 100 * A - 49 <= X).
  { destruct (Z.eq_dec X (100 * A - 50)) as [E|E]; [exfalso|lia].
    apply Hne. symmetry. apply Z.mod_unique with (q := A - 1); lia. }
  assert (HXQ3 : (100 * A - 49) * Q <= X * Q) by (apply Z.mul_le_mono_nonneg_r; lia).
  destruct (Z_le_gt_dec A d) as [H|H]; [lia|exfalso].
  assert (2 * Q * d <= 2 * Q * (A - 1)) by (apply Z.mul_le_mono_nonneg_l; lia).
  lia.
Qed.

Lemma log2_100 : Z.log2 100 = 6.
Proof. reflexivity. Qed.

Lemma log2_mul_below (s v n : Z) :
  0 < s -> 0 < v -> 0 <= n -> s * v < 2 ^ n -> Z.log2 s + Z.log2 v <= n - 1.
Proof.
  intros Hs Hv Hn H.
  pose proof (log2_digits_bounds s Hs) as Bs.
  pose proof (log2_digits_bounds v Hv) as Bv.
  pose proof (Z.log2_nonneg s). pose proof (Z.log2_nonneg v).
  assert (2 ^ (Z.log2 s + Z.log2 v) < 2 ^ n).
  { rewrite pow2_split by lia.
    apply Z.le_lt_trans with (m := s * v); [|exact H].
    apply Z.mul_le_mono_nonneg; lia. }
  assert (Z.log2 s + Z.log2 v < n); [|lia].
  apply (Z.pow_lt_mono_r_iff 2); lia.
Qed.

(** [Math.round(s * (v / 100))] is the hundredth of [s * v] rounded half
    up, or one less; it is the former unless [s * v / 100] is exactly half
    way between two integers. *)
Theorem round_percent (s v : Z) :
  0 <= s -> 1 <= v -> s * v < 2 ^ 45 -> v < 2 ^ 45 ->
  let d := JS.Math_round (JS.mul (JS.of_int s) (JS.div (JS.of_int v) (JS.of_int 100))) in
  let A := (2 * (s * v) + 100) / 200 in
  A - 1 <= d <= A /\ ((s * v) mod 100 <> 50 -> d = A).
Proof.
  intros Hs Hv Hsv Hv45 d A.
  assert (Hv53 : 0 < v < 2 ^ 53).
  { assert (2 ^ 45 < 2 ^ 53) by reflexivity. lia. }
  destruct (div_of_int v 100 Hv53 ltac:(split; reflexivity))
    as (mw & ew & scw & Hdiv & Hlw & Hew & Hscw0 & Hscw & Hencw & HRw).
  rewrite log2_100 in Hscw.
  subst d. rewrite Hdiv.
  destruct (Z.eq_dec s 0) as [->|Hnz].
  { subst A. change (JS.Math_round (JS.mul (JS.of_int 0) (S754_finite false mw ew))) with 0.
    replace (0 * v) with 0 by lia. change ((2 * 0 + 100) / 200) with 0.
    split; [lia|]. intros _. reflexivity. }
  assert (Hs53 : 0 < s < 2 ^ 53).
  { assert (2 ^ 45 < 2 ^ 53) by reflexivity.
    assert (s * 1 <= s * v) by (apply Z.mul_le_mono_nonneg_l; lia). lia. }
  pose proof (log2_mul_below s v 45 ltac:(lia) ltac:(lia) ltac:(lia) Hsv) as Hlsv.
  pose proof (Z.log2_nonneg s) as Hls0. pose proof (Z.log2_nonneg v) as Hlv0.
  destruct (mul_of_int s mw ew Hs53 Hlw ltac:(lia))
    as (m & e & g & Hmul & Hg & Hle & Henc & HR).
  rewrite Hmul.
  set (sc := ew + g) in *.
  rewrite (Math_round_scaled m e sc) by lia.
  set (R := Zpos m * 2 ^ (e - sc)) in *.
  set (Q := 2 ^ (- sc)).
  cbv zeta in Hencw.
  set (Rw := Zpos mw * 2 ^ (ew - scw)) in *.
  set (Qw := 2 ^ (- scw)) in *.
  set (G := 2 ^ g) in *. set (Pw := 2 ^ (ew - scw)) in *.
  assert (HG : 0 < G) by (apply Z.pow_pos_nonneg; lia).
  assert (HPw : 0 < Pw) by (apply Z.pow_pos_nonneg; lia).
  assert (HQ : 0 < Q) by (apply Z.pow_pos_nonneg; lia).
  assert (HQw : Qw = Q * G * Pw).
  { subst Qw Q G Pw. rewrite <- !pow2_split by lia. f_equal. lia. }
  assert (HQ64 : 64 <= Q).
  { change 64 with (2 ^ 6). subst Q. apply Z.pow_le_mono_r; lia. }
  assert (HsQw : 1000 * s <= Qw).
  { pose proof (log2_digits_bounds s ltac:(lia)) as Bs.
    assert (2 ^ 13 * 2 ^ (Z.log2 s + 1) <= Qw).
    { subst Qw. rewrite <- pow2_split by lia. apply Z.pow_le_mono_r; lia. }
    change (2 ^ 13) with 8192 in *. lia. }
  apply percent_arith; [apply Z.mul_nonneg_nonneg; lia | exact HQ64 |].
  (* the two enclosures, brought to the common denominator *)
  assert (E2 : - Qw <= 2 * (R * Qw - s * Rw * Q) <= Qw).
  { assert (E : R * Qw - s * Rw * Q = (Q * Pw) * (R * G - s * Zpos mw)).
    { rewrite HQw. subst Rw. fold Pw. ring. }
    rewrite E, HQw.
    assert (0 <= Q * Pw) by (apply Z.mul_nonneg_nonneg; lia).
    replace (Q * G * Pw) with ((Q * Pw) * G) by ring.
    apply enclosure_scale; assumption. }
  assert (E1 : - (100 * (s * Q)) <= 2 * (100 * (s * Rw * Q) - (s * v) * Qw * Q)
                                 <= 100 * (s * Q)).
  { assert (E : 100 * (s * Rw * Q) - s * v * Qw * Q = (s * Q) * (Rw * 100 - v * Qw))
      by ring.
    rewrite E. assert (0 <= s * Q) by (apply Z.mul_nonneg_nonneg; lia).
    replace (100 * (s * Q)) with ((s * Q) * 100) by ring.
    apply enclosure_scale; assumption. }
  assert (E3 : 10 * (100 * (s * Q)) <= Qw * Q).
  { replace (10 * (100 * (s * Q))) with ((1000 * s) * Q) by ring.
    apply Z.mul_le_mono_nonneg_r; lia. }
  assert (E4 : - ((1000 + Q) * Qw) <= 20 * (100 * R - s * v * Q) * Qw <= (1000 + Q) * Qw).
  { replace (20 * (100 * R - s * v * Q) * Qw)
      with (10 * (100 * (2 * (R * Qw - s * Rw * Q))
                  + 2 * (100 * (s * Rw * Q) - s * v * Qw * Q))) by ring.
    replace ((1000 + Q) * Qw) with (1000 * Qw + Qw * Q) by ring.
    lia. }
  assert (HQw0 : 0 < Qw) by (subst Qw; apply Z.pow_pos_nonneg; lia).
  clear - E4 HQw0. clearbody Qw Q R.
  split; apply Z.mul_le_mono_pos_r with (p := Qw); lia.
Qed.

(* ===================================================================== *)
(** * Arithmetic and list lemmas                                          *)
(* ===================================================================== *)

Lemma fold_left_sum {A} (f : A -> Z) (l : list A) (a : Z) :
  fold_left (fun sum x => sum + f x) l a = a + sum_of f l.
Proof.
  revert a; induction l as [|x r IH]; intros a; simpl.
  - lia.
  - rewrite IH. lia.
Qed.

Lemma round_half_up_tenth (s : Z) : round_half_up s 10 = (s + 5) / 10.
Proof.
  unfold round_half_up. replace (2 * s + 10) with (2 * (s + 5)) by lia.
  apply Z.div_mul_cancel_l; lia.
Qed.

(** For every subtotal below 2^50 the double product [subtotal * 0.1] rounds
    to the same integer as the exact tenth. *)
Lemma service_fee_rounding (s : Z) :
  0 <= s < 2 ^ 50 ->
  JS.Math_round (JS.mul (JS.of_int s) JS.tenth) = round_half_up s 10.
Proof.
  intros Hs. rewrite round_half_up_tenth. apply round_tenth. exact Hs.
Qed.

(* ===================================================================== *)
(** * Pricing of a new order                                              *)
(* ===================================================================== *)

Section Pricing.
Import OrderRepository.

Lemma optionsPrice_sum (item : OrderItem) :
  optionsPrice item = sum_of opt_price (options item).
Proof. unfold optionsPrice. rewrite fold_left_sum. lia. Qed.

Lemma calc_subtotal_sum (its : list OrderItem) :
  calc_subtotal its
  = sum_of (fun item => qty item * (unitPrice item + sum_of opt_price (options item))) its.
Proof.
  unfold calc_subtotal. rewrite fold_left_sum.
  rewrite Z.add_0_l.
  induction its as [|item r IH]; simpl; [reflexivity|].
  rewrite IH, optionsPrice_sum. lia.
Qed.

Lemma or_undefined_Some (n f : Z) :
  JS.or_undefined n = Some f <-> f = n /\ n <> 0.
Proof.
  unfold JS.or_undefined, JS.truthy.
  destruct (Z.eqb_spec n 0) as [E|E]; simpl; split.
  - discriminate.
  - intros [_ H]. contradiction.
  - intros [= ->]. auto.
  - intros [-> _]. reflexivity.
Qed.

Lemma or_undefined_default (n : Z) : default 0 (JS.or_undefined n) = n.
Proof.
  unfold JS.or_undefined, JS.truthy.
  destruct (Z.eqb_spec n 0) as [E|E]; simpl; congruence.
Qed.

Lemma or_undefined_None (n : Z) : JS.or_undefined n = None <-> n = 0.
Proof.
  unfold JS.or_undefined, JS.truthy.
  destruct (Z.eqb_spec n 0) as [E|E]; simpl; split; try discriminate; auto.
  intros H. contradiction.
Qed.

(** The two fees are never both charged: one of the two properties of
    [fees] is [undefined] in every order createOrder builds. *)
Lemma calc_amounts_undefined_fee (its : list OrderItem) (ch : OrderChannel) :
  service (fees (calc_amounts its ch)) = None
  \/ fee_delivery (fees (calc_amounts its ch)) = None.
Proof.
  unfold calc_amounts. cbn [fees service fee_delivery].
  rewrite !or_undefined_None. unfold serviceFee, deliveryFee.
  destruct ch; cbn [OrderChannel_eqb]; auto.
Qed.

Lemma createOrder_result (rid docId : string) (orderNumber ts : Z)
    (orderData : OrderData) (c : gmap string Order) :
  createOrder rid docId orderNumber ts orderData c
  = match undefined_property (new_order rid orderNumber orderData ts ts) with
    | Some path =>
        (Fail (Wrapped "Failed to create document" (UndefinedValue path)), c)
    | None => (Ok docId, <[docId := new_order rid orderNumber orderData ts ts]> c)
    end.
Proof.
  unfold createOrder, create, BaseRepository.create, try_catch, throw.
  destruct (undefined_property _); reflexivity.
Qed.

Lemma createOrder_undefined (rid : string) (orderNumber ts : Z) (orderData : OrderData) :
  exists path,
    undefined_property (new_order rid orderNumber orderData ts ts) = Some path
    /\ (path = "amounts.fees.service" \/ path = "amounts.fees.delivery").
Proof.
  unfold undefined_property, new_order. cbn [amounts].
  destruct (calc_amounts_undefined_fee (od_items orderData) (od_channel orderData))
    as [E|E]; rewrite E.
  - eauto.
  - destruct (service _); eauto.
Qed.

Lemma createOrder_leaves (rid docId : string) (n ts : Z) (od : OrderData)
    (c : gmap string Order) :
  snd (createOrder rid docId n ts od c) = c.
Proof.
  rewrite createOrder_result.
  destruct (createOrder_undefined rid n ts od) as (path & Hp & _).
  rewrite Hp. reflexivity.
Qed.

(** C1. For every list of order items and every channel, createOrder
    builds an order in status placed whose amounts are: the subtotal, the
    sum over the items of qty * (unitPrice + sum of the option prices); a
    service fee, Math.round(subtotal * 0.1), charged exactly on dine_in; a
    flat delivery fee of 500 charged exactly on delivery; discounts 0; and the
    total, subtotal + service fee + delivery fee - discounts. On every
    subtotal from 0 below 2^50 the service fee is the tenth of the subtotal
    rounded half up. A fee of 0 is not left out of the order: its property
    is written with the value [undefined], and one of the two fees is 0 on
    every channel. The store refuses such data, so that createOrder stores
    nothing and fails with 'Failed to create document', whatever the order.
    The example order of one item at 2890 with one option at 590 on dine_in
    has subtotal 3480, service fee 348 and total 3828, a delivery fee that
    is [undefined], and is refused. *)
Theorem createOrder_refused :
  forall (rid docId : string) (orderNumber ts : Z) (orderData : OrderData)
         (c : gmap string Order),
    let its := od_items orderData in
    let ch := od_channel orderData in
    let order := new_order rid orderNumber orderData ts ts in
    let a := amounts order in
    let fee := JS.Math_round (JS.mul (JS.of_int (subtotal a)) JS.tenth) in
    (exists path,
        createOrder rid docId orderNumber ts orderData c
        = (Fail (Wrapped "Failed to create document" (UndefinedValue path)), c)
        /\ (path = "amounts.fees.service" \/ path = "amounts.fees.delivery"))
    /\ (service (fees a) = None \/ fee_delivery (fees a) = None)
    /\ status order = placed /\ items order = its /\ channel order = ch
    /\ subtotal a
       = sum_of (fun item => qty item * (unitPrice item + sum_of opt_price (options item))) its
    /\ (forall f, service (fees a) = Some f <-> ch = dine_in /\ f = fee /\ f <> 0)
    /\ (forall f, fee_delivery (fees a) = Some f <-> ch = delivery /\ f = 500)
    /\ discounts a = 0
    /\ total a
       = subtotal a + default 0 (service (fees a)) + default 0 (fee_delivery (fees a))
         - discounts a
    /\ (0 <= subtotal a < 2 ^ 50 -> fee = round_half_up (subtotal a) 10)
    /\ (let example :=
          mkOrderData
            [mkOrderItem "p" "n" 1 2890 [mkSelectedOption "o" "n" "c" 590] None]
            dine_in None None in
        amounts (new_order rid orderNumber example ts ts)
        = mkAmounts 3480 0 (mkFees (Some 348) None) 3828
        /\ createOrder rid docId orderNumber ts example c
           = (Fail (Wrapped "Failed to create document"
                      (UndefinedValue "amounts.fees.delivery")), c)).
Proof.
  intros rid docId orderNumber ts orderData c its ch order a fee.
  assert (Ha : a = calc_amounts its ch) by reflexivity.
  split; [|split; [|split; [|split; [|split; [|split; [|split; [|split;
    [|split; [|split; [|split]]]]]]]]]].
  - destruct (createOrder_undefined rid orderNumber ts orderData) as (path & Hp & Hor).
    exists path. split; [|exact Hor].
    rewrite createOrder_result, Hp. reflexivity.
  - rewrite Ha. apply calc_amounts_undefined_fee.
  - reflexivity.
  - reflexivity.
  - reflexivity.
  - rewrite Ha. apply calc_subtotal_sum.
  - intros f. subst fee. rewrite Ha.
    change (service (fees (calc_amounts its ch)))
      with (JS.or_undefined (serviceFee ch (calc_subtotal its))).
    change (subtotal (calc_amounts its ch)) with (calc_subtotal its).
    rewrite or_undefined_Some.
    destruct ch; unfold serviceFee; cbn [OrderChannel_eqb];
      intuition (try discriminate; try congruence).
  - intros f. rewrite Ha.
    change (fee_delivery (fees (calc_amounts its ch)))
      with (JS.or_undefined (deliveryFee ch)).
    rewrite or_undefined_Some.
    destruct ch; unfold deliveryFee; cbn [OrderChannel_eqb];
      intuition (try discriminate; try congruence; try lia).
  - reflexivity.
  - rewrite Ha. unfold calc_amounts.
    cbn [total subtotal fees service fee_delivery discounts].
    rewrite !or_undefined_default. lia.
  - intros H. apply service_fee_rounding. exact H.
  - cbv zeta. split; [vm_compute; reflexivity|].
    rewrite createOrder_result.
    replace (undefined_property _) with (Some "amounts.fees.delivery");
      [reflexivity|].
    unfold undefined_property, new_order. cbn [amounts od_items od_channel].
    replace (calc_amounts _ dine_in) with (mkAmounts 3480 0 (mkFees (Some 348) None) 3828)
      by (vm_compute; reflexivity).
    reflexivity.
Qed.

End Pricing.

(* ===================================================================== *)
(** * Writes to a stored order                                            *)
(* ===================================================================== *)

Section OrderWrites.
Import OrderRepository.

Lemma update_stored (ts : Z) (id : string) (f : Order -> Order)
    (c : gmap string Order) (o : Order) :
  c !! id = Some o ->
  update ts id f c = (Ok tt, <[id := set_updatedAt ts (f o)]> c).
Proof.
  intros H. unfold update, BaseRepository.update, try_catch. rewrite H. reflexivity.
Qed.

Lemma update_missing (ts : Z) (id : string) (f : Order -> Order)
    (c : gmap string Order) :
  c !! id = None ->
  update ts id f c = (Fail (Wrapped "Failed to update document" NoSuchDocument), c).
Proof.
  intros H. unfold update, BaseRepository.update, try_catch, throw. rewrite H.
  reflexivity.
Qed.

Lemma sample_store_lookup : sample_store !! "order-1" = Some sample_order.
Proof. apply lookup_singleton_eq. Qed.

(** C6. For every stored order and every status of the enumeration,
    updateStatus succeeds and the stored order has the requested status,
    whatever its status was: no pair (current, requested) is rejected. The
    other properties of the order that describe the purchase are left as
    they were. *)
Theorem updateStatus_any_transition :
  forall (now ts : Z) (orderId : string) (requested : OrderStatus)
         (c : gmap string Order) (o : Order),
    c !! orderId = Some o ->
    exists o',
      updateStatus now ts orderId requested c = (Ok tt, <[orderId := o']> c)
      /\ status o' = requested
      /\ items o' = items o /\ amounts o' = amounts o /\ channel o' = channel o
      /\ payments o' = payments o.
Proof.
  intros now ts orderId requested c o H.
  unfold updateStatus. rewrite (update_stored _ _ _ _ _ H).
  eexists. split; [reflexivity|].
  destruct requested; repeat split.
Qed.

(** The closed sample order is moved back to draft. *)
Lemma updateStatus_any_transition_witness :
  exists o',
    updateStatus 200 201 "order-1" draft sample_store
    = (Ok tt, <["order-1" := o']> sample_store)
    /\ status o' = draft
    /\ items o' = items sample_order /\ amounts o' = amounts sample_order
    /\ channel o' = channel sample_order /\ payments o' = payments sample_order.
Proof.
  apply (updateStatus_any_transition 200 201 "order-1" draft sample_store sample_order).
  apply lookup_singleton_eq.
Defined.

(** C2, as amended. For every stored order: updateStatus to closed writes
    closedAt, the time of the call, and cancel writes the status canceled and
    closedAt, the time of the call; updateStatus to a status that is neither
    closed nor canceled leaves closedAt as stored. The two writes of closedAt
    are unconditional: on an order whose closedAt is already set they
    replace it by the time of the new call. (What updateStatus to canceled
    does with closedAt is no part of the statement.) *)
Theorem closedAt_written_unconditionally :
  forall (now ts : Z) (orderId : string) (c : gmap string Order) (o : Order),
    c !! orderId = Some o ->
    (forall requested, exists o',
        updateStatus now ts orderId requested c = (Ok tt, <[orderId := o']> c)
        /\ status o' = requested
        /\ match requested with
           | closed => closedAt o' = Some now
           | canceled => True
           | _ => closedAt o' = closedAt o
           end)
    /\ (forall reason, exists o',
           cancel now ts orderId reason c = (Ok tt, <[orderId := o']> c)
           /\ status o' = canceled
           /\ closedAt o' = Some now).
Proof.
  intros now ts orderId c o H. split.
  - intros requested. unfold updateStatus. rewrite (update_stored _ _ _ _ _ H).
    eexists. split; [reflexivity|]. destruct requested; split; reflexivity || exact I.
  - intros reason. unfold cancel. rewrite (update_stored _ _ _ _ _ H).
    eexists. split; [reflexivity|].
    destruct reason as [r|]; [destruct (JS.nonempty r)|]; split; reflexivity.
Qed.

(** The sample order was closed at time 100; at time 200 both writes leave
    a closedAt of 200. *)
Lemma closedAt_written_unconditionally_witness :
  closedAt sample_order = Some 100
  /\ (forall requested, exists o',
        updateStatus 200 201 "order-1" requested sample_store
        = (Ok tt, <["order-1" := o']> sample_store)
        /\ status o' = requested
        /\ match requested with
           | closed => closedAt o' = Some 200
           | canceled => True
           | _ => closedAt o' = closedAt sample_order
           end)
  /\ (forall reason, exists o',
        cancel 200 201 "order-1" reason sample_store
        = (Ok tt, <["order-1" := o']> sample_store)
        /\ status o' = canceled
        /\ closedAt o' = Some 200).
Proof.
  split; [reflexivity|].
  apply (closedAt_written_unconditionally 200 201 "order-1" sample_store sample_order).
  apply lookup_singleton_eq.
Defined.

(** C2 fails as stated. An order closed at time 100 that is closed again
    at time 200 has its closedAt replaced: nothing reads the stored closedAt
    before the write. And an order placed and never closed has no closedAt
    after updateStatus has moved it to canceled, where cancel, which writes
    the same status, writes closedAt with it. *)
Lemma closedAt_counterexample :
  let open := mkOrder "demo" None [sample_item] placed dine_in
                (calc_amounts [sample_item] dine_in) None None (Some 4321) 10 10
                None None in
  (closedAt <$> (snd (updateStatus 100 101 "order-1" canceled {[ "order-1" := open ]})
                  !! "order-1")) = Some None
  /\ (status <$> (snd (updateStatus 100 101 "order-1" canceled {[ "order-1" := open ]})
                   !! "order-1")) = Some canceled
  /\ closedAt sample_order = Some 100
  /\ status sample_order = closed
  /\ (closedAt <$> (snd (updateStatus 200 201 "order-1" closed sample_store)
                     !! "order-1")) = Some (Some 200).
Proof.
  vm_compute. repeat split.
Qed.

(** C10. addPayment reads the order first. When no order is stored under
    the id it fails with 'Order not found', wrapped, and the collection is
    left as it was. When an order is stored, the order written back has
    the payments it had (none when the property was absent) followed by
    the new payment, and the same items, amounts, status and channel; no
    other document changes. *)
Theorem addPayment_appends :
  forall (ts : Z) (orderId : string) (payment : Payment) (c : gmap string Order),
    (c !! orderId = None ->
     addPayment ts orderId payment c
     = (Fail (Wrapped "Failed to add payment" (Thrown "Order not found")), c))
    /\ (forall o, c !! orderId = Some o ->
        exists o',
          addPayment ts orderId payment c = (Ok tt, <[orderId := o']> c)
          /\ payments o' = Some (default [] (payments o) ++ [payment])%list
          /\ items o' = items o /\ amounts o' = amounts o
          /\ status o' = status o /\ channel o' = channel o).
Proof.
  intros ts orderId payment c. split.
  - intros H. unfold addPayment, try_catch, bind, findById, BaseRepository.findById.
    rewrite H. reflexivity.
  - intros o H. unfold addPayment, try_catch, bind, findById, BaseRepository.findById.
    rewrite H. rewrite (update_stored _ _ _ _ _ H).
    eexists. split; [reflexivity|]. repeat split.
Qed.

(** A payment for an id that is not stored, and a first payment on the
    sample order. *)
Lemma addPayment_appends_witness :
  addPayment 300 "order-9" (mkPayment pix 3828 None) sample_store
  = (Fail (Wrapped "Failed to add payment" (Thrown "Order not found")), sample_store)
  /\ exists o',
       addPayment 300 "order-1" (mkPayment pix 3828 None) sample_store
       = (Ok tt, <["order-1" := o']> sample_store)
       /\ payments o' = Some [mkPayment pix 3828 None]
       /\ items o' = items sample_order /\ amounts o' = amounts sample_order
       /\ status o' = status sample_order /\ channel o' = channel sample_order.
Proof.
  split.
  - apply (proj1 (addPayment_appends 300 "order-9" (mkPayment pix 3828 None) sample_store)).
    apply lookup_singleton_ne. discriminate.
  - apply (proj2 (addPayment_appends 300 "order-1" (mkPayment pix 3828 None) sample_store)
             sample_order).
    apply lookup_singleton_eq.
Defined.

End OrderWrites.

(* ===================================================================== *)
(** * Coupon validation                                                   *)
(* ===================================================================== *)

Section CouponValidation.
Import CouponRepository.
Context {mapping : JS.CaseMapping}.
Context {T : Type}.
Variable now_before : Z -> T -> bool.
Variable now_after : Z -> T -> bool.

Lemma findByCode_lookup (db : Firestore (CouponDocument T)) (wanted : string) :
  findByCode db None wanted
  = Ok (head (get db (where_ "code" op_eq (VString (JS.toUpperCase wanted))
                        getCollection))).
Proof. reflexivity. Qed.

Lemma findByCode_thrown (db : Firestore (CouponDocument T)) (e : Error)
    (wanted : string) :
  findByCode db (Some e) wanted = Fail (Wrapped "Failed to query documents" e).
Proof. reflexivity. Qed.

Lemma outcome_of_injective (r : Validation T) (o1 o2 : Outcome) :
  outcome_of r = Some o1 -> outcome_of r = Some o2 -> o1 = o2.
Proof. congruence. Qed.

(** C3, as amended. validateCoupon returns for every store, time, code and
    subtotal. When the lookup throws, the answer is that of the catch,
    'Error validating coupon', which is none of the six outcomes. When the
    lookup returns, the result is exactly one of the six outcomes. The
    lookup is by the upper-cased code, and the checks are made in the order
    not found, inactive, not yet valid, expired, below minimum: each
    outcome is reported exactly when its own check fails and every earlier
    check has passed, and the coupon is valid (and returned) when all pass.
    The two checks of the dates are the comparisons [now < validFrom] and
    [now > validTo] as they come out on the values the store hands back.
    So an inactive coupon reports inactive whatever its dates. *)
Theorem validateCoupon_outcome :
  forall (db : Firestore (CouponDocument T)) (thrown : option Error) (now : Z)
         (wanted : string) (subtotal : Z),
    let r := validateCoupon now_before now_after db thrown now wanted subtotal in
    let found :=
      head (get db (where_ "code" op_eq (VString (JS.toUpperCase wanted)) getCollection)) in
    match thrown with
    | Some _ =>
        r = mkValidation false None (Some ErrorValidating)
        /\ outcome_of r = None
    | None =>
        exists o,
          (outcome_of r = Some o /\ forall o', outcome_of r = Some o' -> o' = o)
          /\ (o = NOT_FOUND <-> found = None)
          /\ (o = INACTIVE <-> exists c, found = Some c /\ active c = false)
          /\ (o = NOT_YET_VALID <->
              exists c, found = Some c /\ active c = true
                        /\ now_before now (validFrom c) = true)
          /\ (o = EXPIRED <->
              exists c, found = Some c /\ active c = true
                        /\ now_before now (validFrom c) = false
                        /\ now_after now (validTo c) = true)
          /\ (o = BELOW_MINIMUM <->
              exists c m, found = Some c /\ active c = true
                          /\ now_before now (validFrom c) = false
                          /\ now_after now (validTo c) = false
                          /\ minSubtotal c = Some m /\ m <> 0 /\ subtotal < m)
          /\ (o = VALID <->
              exists c, found = Some c /\ coupon r = Some c /\ active c = true
                        /\ now_before now (validFrom c) = false
                        /\ now_after now (validTo c) = false
                        /\ (forall m, minSubtotal c = Some m -> m = 0 \/ m <= subtotal))
          /\ (forall c, found = Some c -> active c = false ->
              o = INACTIVE /\ error r = Some CouponNotActive)
    end.
Proof.
  intros db thrown now wanted subtotal r found.
  destruct thrown as [e|].
  { subst r. unfold validateCoupon. rewrite findByCode_thrown.
    split; reflexivity. }
  assert (Hr : r = validateCoupon now_before now_after db None now wanted subtotal)
    by reflexivity.
  unfold validateCoupon in Hr. rewrite findByCode_lookup in Hr. fold found in Hr.
  clearbody r found.
  destruct found as [c|];
    [unfold JS.truthy in Hr;
     destruct (active c) eqn:Ha; cbn [negb] in Hr;
     [destruct (now_before now (validFrom c)) eqn:Hf;
      [|destruct (now_after now (validTo c)) eqn:Ht;
        [|destruct (minSubtotal c) as [m|] eqn:Hm;
          [destruct (Z.eqb_spec m 0) as [Hz|Hz]; cbn [negb andb] in Hr;
            [|destruct (Z.ltb_spec subtotal m) as [Hs|Hs]]|]]]|]|];
    subst r;
    match goal with
    | |- context [outcome_of ?v] =>
        let o := eval cbv in (outcome_of v) in
        match o with Some ?x => exists x end
    end;
    (split; [split; [reflexivity | cbn; congruence] |]);
    repeat split; intros;
    repeat match goal with
      | H : exists _, _ |- _ => destruct H
      | H : _ /\ _ |- _ => destruct H
      | H : Some _ = Some _ |- _ => injection H as H; subst
      end;
    try discriminate; try congruence; try lia;
    try (eexists; repeat split; eauto; fail);
    try (eexists; eexists; repeat split; eauto; fail).
  all: try (exfalso; simplify_eq; lia).
  all: try (exfalso; match goal with
      | H : forall m, Some ?a = Some m -> _ |- _ => specialize (H a eq_refl); lia
      end).
  all: try (eexists; repeat split; eauto; intros; simplify_eq; lia).
  all: try (eexists; repeat split; eauto; intros; discriminate).
Qed.

End CouponValidation.

(* ===================================================================== *)
(** * Pagination and search                                               *)
(* ===================================================================== *)

Lemma Math_ceil_pages (total lim : Z) :
  0 <= total < 2 ^ 50 -> 1 <= lim <= 100 ->
  JS.Math_ceil (JS.div (JS.of_int total) (JS.of_int lim)) = ceil_div total lim.
Proof.
  intros Ht Hl. unfold ceil_div. apply ceil_quotient; [exact Ht|].
  assert (100 < 2 ^ 53) by reflexivity. lia.
Qed.

Lemma startsWith_spec (s t : string) :
  JS.startsWith s t = true <-> exists post : string, s = (t ++ post)%string.
Proof.
  revert s. induction t as [|b t IH]; intros s.
  - split; [intros _; exists s; reflexivity | intros _; destruct s; reflexivity].
  - destruct s as [|a s]; cbn [JS.startsWith].
    + split; [discriminate | intros [post H]; discriminate].
    + destruct (Ascii.eqb_spec a b) as [->|Hne].
      * rewrite IH. split; intros [post H]; exists post.
        -- rewrite H. reflexivity.
        -- injection H as H. exact H.
      * split; [discriminate | intros [post H]; injection H as H1 H2; contradiction].
Qed.

(** [includes] decides occurrence. *)
Lemma includes_spec (s t : string) : JS.includes s t = true <-> occurs_in t s.
Proof.
  unfold occurs_in. induction s as [|a s IH].
  - cbn [JS.includes]. rewrite orb_false_r, startsWith_spec. split.
    + intros [post H]. exists EmptyString, post. exact H.
    + intros (pre & post & H). destruct pre as [|c pre]; [|discriminate].
      exists post. exact H.
  - cbn [JS.includes]. rewrite orb_true_iff, startsWith_spec, IH. split.
    + intros [[post H]|(pre & post & H)].
      * exists EmptyString, post. exact H.
      * exists (String a pre), post. rewrite H. reflexivity.
    + intros (pre & post & H). destruct pre as [|c pre].
      * left. exists post. exact H.
      * right. exists pre, post. injection H as _ H. exact H.
Qed.

Lemma includes_empty (s : string) : JS.includes s EmptyString = true.
Proof. destruct s; reflexivity. Qed.

Lemma filter_all {A} (f : A -> bool) (l : list A) :
  (forall x, f x = true) -> List.filter f l = l.
Proof.
  intros H. induction l as [|x l IH]; simpl; [reflexivity|].
  rewrite H, IH. reflexivity.
Qed.

(** The product query: the page of the order query, then the search filter. *)
Lemma product_findWithQuery_page `{JS.CaseMapping} (db : Firestore Product)
    (qp : ProductRepository.ProductQueryInput) :
  let p := page (ProductRepository.pq_paging qp) in
  let lim := page_limit (ProductRepository.pq_paging qp) in
  let q := ProductRepository.compile_query qp in
  let offset := (p - 1) * lim in
  ProductRepository.findWithQuery db qp
  = mkPage
      (search_filter (ProductRepository.pq_search qp)
         (if offset >? 0 then slice offset (get db (limit (offset + lim) q))
          else get db (limit lim q)))
      (count db q)
      (JS.Math_ceil (JS.div (JS.of_int (count db q)) (JS.of_int lim))) p.
Proof.
  intros p lim q offset. unfold ProductRepository.findWithQuery, search_filter.
  fold q. fold p. fold lim. fold offset.
  destruct (offset >? 0); reflexivity.
Qed.

Lemma product_compile_query_search (qp : ProductRepository.ProductQueryInput)
    (search : option string) :
  ProductRepository.compile_query (product_search qp search)
  = ProductRepository.compile_query qp.
Proof. reflexivity. Qed.

Section Pagination.
Import OrderRepository.
Context {mapping : JS.CaseMapping}.

Lemma order_compile_query_page (qp : OrderQueryInput) (p lim : Z) :
  compile_query (order_page qp p lim) = compile_query qp.
Proof. reflexivity. Qed.

Lemma order_compile_query_no_limit (qp : OrderQueryInput) :
  q_limit (compile_query qp) = None.
Proof.
  unfold compile_query.
  destruct (truthy_string (oq_status qp)), (oq_channel qp),
    (truthy_string (oq_tableId qp)), (oq_dateFrom qp), (oq_dateTo qp); reflexivity.
Qed.

(** C5. For every filter set, page >= 1 and limit in 1..100, findWithQuery
    counts with the compiled query, which carries the filters and the sort
    and no limit, and returns that count as total; offset is (page - 1) *
    limit; when offset is 0 the page is what the store returns for the query
    with limit alone; when offset is positive the store is asked for offset +
    limit documents and the first offset of them are dropped; totalPages is
    Math.ceil(total / limit), the exact ceiling for every count below 2^50.
    Over a store that answers a limited query with the first documents of
    the unlimited one, the page is the documents at positions offset + 1 to
    offset + limit of the full result, the same documents that page 1 with
    limit offset + limit returns at those positions: for limit 20, page 3 is
    positions 41 to 60 of page 1 with limit 60. *)
Theorem findWithQuery_pagination :
  forall (db : Firestore Order) (qp : OrderQueryInput),
    let p := page (oq_paging qp) in
    let lim := page_limit (oq_paging qp) in
    let q := compile_query qp in
    let offset := (p - 1) * lim in
    let r := findWithQuery db qp in
    1 <= p -> 1 <= lim <= 100 ->
    q_limit q = None
    /\ page_total r = count db q
    /\ currentPage r = p
    /\ totalPages r = JS.Math_ceil (JS.div (JS.of_int (count db q)) (JS.of_int lim))
    /\ (0 <= count db q < 2 ^ 50 -> totalPages r = ceil_div (count db q) lim)
    /\ (offset = 0 -> page_docs r = get db (limit lim q))
    /\ (0 < offset ->
        page_docs r = drop (Z.to_nat offset) (get db (limit (offset + lim) q)))
    /\ ((forall n, 0 <= n -> get db (limit n q) = take (Z.to_nat n) (get db q)) ->
        page_docs r = take (Z.to_nat lim) (drop (Z.to_nat offset) (get db q))
        /\ page_docs r
           = drop (Z.to_nat offset)
               (page_docs (findWithQuery db (order_page qp 1 (offset + lim)))))
    /\ (p = 3 -> lim = 20 ->
        (forall n, 0 <= n -> get db (limit n q) = take (Z.to_nat n) (get db q)) ->
        page_docs r = drop 40 (page_docs (findWithQuery db (order_page qp 1 60)))
        /\ page_docs r = take 20 (drop 40 (get db q)))
    /\ (forall (dbp : Firestore Product) (pq : ProductRepository.ProductQueryInput),
        page (ProductRepository.pq_paging pq) = p ->
        page_limit (ProductRepository.pq_paging pq) = lim ->
        ProductRepository.pq_search pq = None ->
        let q' := ProductRepository.compile_query pq in
        let r' := ProductRepository.findWithQuery dbp pq in
        page_total r' = count dbp q'
        /\ totalPages r'
           = JS.Math_ceil (JS.div (JS.of_int (count dbp q')) (JS.of_int lim))
        /\ (offset = 0 -> page_docs r' = get dbp (limit lim q'))
        /\ (0 < offset ->
            page_docs r' = drop (Z.to_nat offset) (get dbp (limit (offset + lim) q')))).
Proof.
  intros db qp p lim q offset r Hp Hlim.
  assert (Hoff : 0 <= offset) by (subst offset; apply Z.mul_nonneg_nonneg; lia).
  assert (Hpage1 : forall n,
             page_docs (findWithQuery db (order_page qp 1 n)) = get db (limit n q)).
  { intros n. unfold findWithQuery. rewrite order_compile_query_page. fold q.
    cbn [oq_paging order_page page page_limit].
    replace ((1 - 1) * n) with 0 by lia. reflexivity. }
  assert (Hr : r = if offset >? 0
                   then mkPage (slice offset (get db (limit (offset + lim) q)))
                          (count db q)
                          (JS.Math_ceil (JS.div (JS.of_int (count db q)) (JS.of_int lim))) p
                   else mkPage (get db (limit lim q)) (count db q)
                          (JS.Math_ceil (JS.div (JS.of_int (count db q)) (JS.of_int lim))) p).
  { subst r. unfold findWithQuery. fold q. fold p. fold lim. fold offset.
    destruct (offset >? 0); reflexivity. }
  clearbody r.
  assert (Hdocs :
    (forall n, 0 <= n -> get db (limit n q) = take (Z.to_nat n) (get db q)) ->
    page_docs r = take (Z.to_nat lim) (drop (Z.to_nat offset) (get db q))
    /\ page_docs r
       = drop (Z.to_nat offset)
           (page_docs (findWithQuery db (order_page qp 1 (offset + lim))))).
  { intros Hget. rewrite Hpage1, Hr.
    destruct (Z.gtb_spec offset 0) as [Hpos|Hzero]; cbn [page_docs].
    - unfold slice. rewrite Hget by lia. split; [|reflexivity].
      rewrite take_drop_commute. f_equal. f_equal. lia.
    - assert (E : offset = 0) by lia. rewrite E.
      change (Z.to_nat 0) with 0%nat. rewrite !drop_0.
      replace (0 + lim) with lim by lia. rewrite Hget by lia. split; reflexivity. }
  split; [apply order_compile_query_no_limit|].
  split; [rewrite Hr; destruct (offset >? 0); reflexivity|].
  split; [rewrite Hr; destruct (offset >? 0); reflexivity|].
  assert (Hpages : totalPages r
             = JS.Math_ceil (JS.div (JS.of_int (count db q)) (JS.of_int lim)))
    by (rewrite Hr; destruct (offset >? 0); reflexivity).
  split; [exact Hpages|].
  split; [intros Hc; rewrite Hpages; apply Math_ceil_pages; assumption|].
  split.
  { intros E. rewrite Hr, E. reflexivity. }
  split.
  { intros Hpos. rewrite Hr. destruct (Z.gtb_spec offset 0); [reflexivity|lia]. }
  split; [exact Hdocs|].
  split.
  { intros E3 E20 Hget. destruct (Hdocs Hget) as [H1 H2].
    assert (Eo : offset = 40) by (subst offset; rewrite E3, E20; reflexivity).
    split; [rewrite H2 | rewrite H1]; rewrite Eo, E20; reflexivity. }
  intros dbp pq Ep El Es q' r'. subst r'.
  rewrite product_findWithQuery_page. rewrite Ep, El, Es. fold q'.
  fold p. fold lim. fold offset.
  cbn [page_total totalPages page_docs search_filter truthy_string].
  split; [reflexivity|]. split; [reflexivity|]. split.
  - intros E. rewrite E. reflexivity.
  - intros Hpos. destruct (Z.gtb_spec offset 0); [reflexivity|lia].
Qed.


End Pagination.

(* ===================================================================== *)
(** * The discount of a coupon in the cart                                *)
(* ===================================================================== *)

Section CouponDiscount.
Context {mapping : JS.CaseMapping}.
Import Cart.

Lemma round_half_up_percent (s v : Z) :
  0 <= s -> 0 <= v <= 100 -> round_half_up (s * v) 100 <= s.
Proof.
  intros Hs Hv. unfold round_half_up.
  assert (Hsv : s * v <= s * 100) by (apply Z.mul_le_mono_nonneg_l; lia).
  change (2 * 100) with 200.
  apply Z.le_trans with (m := (200 * s + 100) / 200).
  - apply Z.div_le_mono; lia.
  - replace (200 * s + 100) with (s * 200 + 100) by lia.
    rewrite Z.div_add_l by lia. change (100 / 200) with 0. lia.
Qed.


End CouponDiscount.

(* ===================================================================== *)
(** * Analytics                                                           *)
(* ===================================================================== *)

Section Analytics.
Import OrderRepository.

Lemma sum_of_app {A} (f : A -> Z) (l r : list A) :
  sum_of f (l ++ r) = sum_of f l + sum_of f r.
Proof.
  induction l as [|x l IH]; simpl; lia.
Qed.

Lemma sum_of_map {A B} (f : B -> Z) (g : A -> B) (l : list A) :
  sum_of f (map g l) = sum_of (fun x => f (g x)) l.
Proof.
  induction l as [|x l IH]; simpl; congruence.
Qed.

Lemma fold_increment {A K} (eqb : K -> K -> bool) (key : A -> K)
    (l : list A) (init : list (K * Z)) :
  fold_left (fun counts x => increment eqb (key x) counts) l init
  = map (fun kn => (fst kn, snd kn + count_where (fun x => eqb (fst kn) (key x)) l)) init.
Proof.
  revert init. induction l as [|x l IH]; intros init; simpl.
  - induction init as [|[k n] r IHr]; simpl; [reflexivity|].
    rewrite <- IHr. unfold count_where. simpl. rewrite Z.add_0_r. reflexivity.
  - rewrite IH. unfold increment. rewrite map_map. apply map_ext.
    intros [k n]. unfold count_where. simpl.
    destruct (eqb k (key x)); simpl; f_equal; lia.
Qed.

Lemma count_where_cons {A} (f : A -> bool) (x : A) (l : list A) :
  count_where f (x :: l) = (if f x then 1 else 0) + count_where f l.
Proof. reflexivity. Qed.

Lemma status_counts_total (orders : list Order) :
  sum_of (fun st => count_where (fun o => OrderStatus_eqb st (status o)) orders)
    all_statuses
  = Z.of_nat (length orders).
Proof.
  induction orders as [|o r IH]; [reflexivity|].
  unfold all_statuses in *. cbn [sum_of length] in *.
  rewrite !count_where_cons. revert IH.
  repeat match goal with
         | |- context [count_where ?f r] => generalize (count_where f r)
         end.
  intros. destruct (status o); simpl; lia.
Qed.

Lemma channel_counts_total (orders : list Order) :
  sum_of (fun ch => count_where (fun o => OrderChannel_eqb ch (channel o)) orders)
    all_channels
  = Z.of_nat (length orders).
Proof.
  induction orders as [|o r IH]; [reflexivity|].
  unfold all_channels in *. cbn [sum_of length] in *.
  rewrite !count_where_cons. revert IH.
  repeat match goal with
         | |- context [count_where ?f r] => generalize (count_where f r)
         end.
  intros. destruct (channel o); simpl; lia.
Qed.

(** Sorting *)

Lemma sort_insert_perm {A} (compare : A -> A -> Z) (x : A) (l : list A) :
  Permutation (JS.sort_insert compare x l) (x :: l).
Proof.
  induction l as [|y r IH]; simpl; [reflexivity|].
  destruct (compare y x <? 0); [|reflexivity].
  rewrite IH. apply perm_swap.
Qed.

Lemma sort_perm {A} (compare : A -> A -> Z) (l : list A) :
  Permutation (JS.sort compare l) l.
Proof.
  induction l as [|x r IH]; simpl; [reflexivity|].
  unfold JS.sort in *. simpl. rewrite sort_insert_perm. rewrite IH. reflexivity.
Qed.

Lemma filter_split_perm {A} (f : A -> bool) (l : list A) :
  Permutation (List.filter f l ++ List.filter (fun x => negb (f x)) l) l.
Proof.
  induction l as [|x r IH]; simpl; [reflexivity|].
  destruct (f x); simpl.
  - rewrite IH. reflexivity.
  - rewrite <- Permutation_middle. rewrite IH. reflexivity.
Qed.

Lemma entries_perm {V} (o : list (string * V)) : Permutation (JS.entries o) o.
Proof.
  unfold JS.entries. rewrite sort_perm. apply filter_split_perm.
Qed.

Lemma sort_insert_sorted {A} (key : A -> Z) (x : A) (l : list A) :
  StronglySorted (fun a b => key a >= key b) l ->
  StronglySorted (fun a b => key a >= key b)
    (JS.sort_insert (fun a b => key b - key a) x l).
Proof.
  induction l as [|y r IH]; intros Hs; simpl.
  - constructor; constructor.
  - apply StronglySorted_inv in Hs. destruct Hs as [Hr Hy].
    destruct (Z.ltb_spec (key x - key y) 0) as [Hlt|Hge].
    + constructor; [apply IH; exact Hr|].
      rewrite List.Forall_forall. intros z Hz.
      apply (Permutation_in _ (sort_insert_perm _ x r)) in Hz.
      destruct Hz as [<-|Hz]; [lia|].
      rewrite List.Forall_forall in Hy. apply Hy. exact Hz.
    + constructor; [constructor; assumption|].
      constructor; [lia|].
      rewrite List.Forall_forall in *. intros z Hz. specialize (Hy z Hz). lia.
Qed.

Lemma sort_sorted {A} (key : A -> Z) (l : list A) :
  StronglySorted (fun a b => key a >= key b)
    (JS.sort (fun a b => key b - key a) l).
Proof.
  induction l as [|x r IH]; simpl; [constructor|].
  apply sort_insert_sorted. exact IH.
Qed.

(** The object of product statistics *)

Lemma stats_lookup_update (k' k : string) (f : ProductStats -> ProductStats)
    (stats : list (string * ProductStats)) :
  stats_lookup k' (stats_update k f stats)
  = if String.eqb k' k then option_map f (stats_lookup k stats)
    else stats_lookup k' stats.
Proof.
  induction stats as [|[k0 v] r IH]; simpl.
  - destruct (String.eqb k' k); reflexivity.
  - destruct (String.eqb_spec k0 k) as [->|Hk]; simpl.
    + destruct (String.eqb_spec k k') as [->|Hk']; simpl.
      * rewrite String.eqb_refl. reflexivity.
      * destruct (String.eqb_spec k' k); [congruence|reflexivity].
    + destruct (String.eqb_spec k0 k') as [->|Hk']; simpl.
      * destruct (String.eqb_spec k' k); [congruence|reflexivity].
      * exact IH.
Qed.

Lemma stats_lookup_app (k k0 : string) (v : ProductStats)
    (stats : list (string * ProductStats)) :
  stats_lookup k (stats ++ [(k0, v)])
  = match stats_lookup k stats with
    | Some x => Some x
    | None => if String.eqb k0 k then Some v else None
    end.
Proof.
  induction stats as [|[k1 v1] r IH]; simpl; [reflexivity|].
  destruct (String.eqb k1 k); [reflexivity|exact IH].
Qed.

Lemma stats_update_keys (k : string) (f : ProductStats -> ProductStats)
    (stats : list (string * ProductStats)) :
  map fst (stats_update k f stats) = map fst stats.
Proof.
  induction stats as [|[k0 v] r IH]; simpl; [reflexivity|].
  destruct (String.eqb k0 k); simpl; congruence.
Qed.

Lemma stats_lookup_None (k : string) (stats : list (string * ProductStats)) :
  stats_lookup k stats = None -> ~ In k (map fst stats).
Proof.
  induction stats as [|[k0 v] r IH]; simpl; intros H; [tauto|].
  destruct (String.eqb_spec k0 k) as [->|Hk]; [discriminate|].
  intros [E|E]; [congruence|]. exact (IH H E).
Qed.

Lemma stats_lookup_In (k : string) (v : ProductStats)
    (stats : list (string * ProductStats)) :
  List.NoDup (map fst stats) ->
  In (k, v) stats <-> stats_lookup k stats = Some v.
Proof.
  induction stats as [|[k0 v0] r IH]; simpl; intros Hnd.
  - split; [tauto|discriminate].
  - apply List.NoDup_cons_iff in Hnd. destruct Hnd as [Hk0 Hnd].
    destruct (String.eqb_spec k0 k) as [->|Hk].
    + split.
      * intros [E|E]; [congruence|].
        exfalso. apply Hk0. apply (in_map fst) in E. exact E.
      * intros [= ->]. left. reflexivity.
    + rewrite <- (IH Hnd). split.
      * intros [E|E]; [congruence|exact E].
      * intros E. right. exact E.
Qed.

Lemma find_app_one {A} (p : A -> bool) (l : list A) (x : A) :
  find p (l ++ [x])
  = match find p l with
    | Some y => Some y
    | None => if p x then Some x else None
    end.
Proof.
  induction l as [|y r IH]; simpl; [reflexivity|].
  destruct (p y); [reflexivity|exact IH].
Qed.

Lemma sum_of_find_None {A} (p : A -> bool) (g : A -> Z) (l : list A) :
  find p l = None -> sum_of (fun x => if p x then g x else 0) l = 0.
Proof.
  induction l as [|y r IH]; simpl; [reflexivity|].
  destruct (p y); [discriminate|]. intros H. rewrite (IH H). reflexivity.
Qed.

Lemma product_group_other (k : string) (its : list OrderItem) (x : OrderItem) :
  productId x <> k -> product_group k (its ++ [x]) = product_group k its.
Proof.
  intros Hk. unfold product_group.
  rewrite find_app_one.
  unfold quantity_of, revenue_of. rewrite !sum_of_app. simpl.
  destruct (String.eqb_spec (productId x) k) as [E|_]; [contradiction|].
  rewrite !Z.add_0_r.
  destruct (find _ its); reflexivity.
Qed.

Lemma product_stats_groups (its : list OrderItem) :
  let stats := fold_left add_item its [] in
  List.NoDup (map fst stats)
  /\ forall k,
       option_map
         (fun v => mkTopProduct k (ps_name v) (ps_quantity v) (ps_revenue v))
         (stats_lookup k stats)
       = if JS.object_prototype_property k then None else product_group k its.
Proof.
  induction its as [|x its IH] using List.rev_ind.
  - simpl. split; [constructor|].
    intros k. destruct (JS.object_prototype_property k); reflexivity.
  - rewrite fold_left_app. simpl.
    set (stats := fold_left add_item its []) in *.
    destruct IH as [Hnd Hl].
    pose proof (Hl (productId x)) as Hid.
    unfold add_item, stats_truthy.
    destruct (stats_lookup (productId x) stats) as [v0|] eqn:Elook.
    + split; [rewrite !stats_update_keys; exact Hnd|].
      intros k. rewrite !stats_lookup_update.
      destruct (String.eqb_spec k (productId x)) as [->|Hk].
      * rewrite Elook. simpl. simpl in Hid.
        destruct (JS.object_prototype_property (productId x)); [discriminate|].
        unfold product_group in *. rewrite find_app_one.
        destruct (find _ its) as [first|]; [|discriminate].
        injection Hid as Hn Hq Hr.
        unfold quantity_of, revenue_of in *. rewrite !sum_of_app. simpl.
        rewrite String.eqb_refl, Hn, Hq, Hr, !Z.add_0_r. reflexivity.
      * rewrite product_group_other by congruence. apply Hl.
    + destruct (JS.object_prototype_property (productId x)) eqn:Eproto.
      * split; [rewrite !stats_update_keys; exact Hnd|].
        intros k. rewrite !stats_lookup_update.
        destruct (String.eqb_spec k (productId x)) as [->|Hk].
        -- rewrite String.eqb_refl, Elook, Eproto. reflexivity.
        -- rewrite product_group_other by congruence. apply Hl.
      * split.
        -- rewrite !stats_update_keys, map_app. simpl.
           apply Permutation_NoDup with (l := productId x :: map fst stats).
           ++ apply Permutation_cons_append.
           ++ constructor; [apply stats_lookup_None; exact Elook|exact Hnd].
        -- intros k. rewrite !stats_lookup_update, !stats_lookup_app.
           destruct (String.eqb_spec k (productId x)) as [->|Hk].
           ++ rewrite Elook, String.eqb_refl. simpl.
              rewrite Eproto in *. unfold product_group in *.
              simpl in Hid.
              rewrite find_app_one.
              destruct (find _ its) as [first|] eqn:Efind; [discriminate|].
              rewrite String.eqb_refl.
              unfold quantity_of, revenue_of. rewrite !sum_of_app.
              rewrite !(sum_of_find_None _ _ _ Efind). simpl.
              rewrite String.eqb_refl, !Z.add_0_r. reflexivity.
           ++ destruct (String.eqb_spec (productId x) k) as [E|_]; [congruence|].
              rewrite product_group_other by congruence.
              rewrite <- (Hl k). destruct (stats_lookup k stats); reflexivity.
Qed.

Lemma product_stats_flat (orders : list Order) :
  product_stats orders = fold_left add_item (all_items orders) [].
Proof.
  unfold product_stats, all_items. generalize (@nil (string * ProductStats)).
  induction orders as [|o r IH]; intros acc; simpl; [reflexivity|].
  rewrite fold_left_app. apply IH.
Qed.

Lemma In_take {A} (n : nat) (l : list A) (x : A) : In x (take n l) -> In x l.
Proof.
  revert n. induction l as [|y r IH]; intros [|n]; simpl; try tauto.
  intros [E|E]; [left; exact E|right; exact (IH n E)].
Qed.

Lemma In_drop {A} (n : nat) (l : list A) (x : A) : In x (drop n l) -> In x l.
Proof.
  revert n. induction l as [|y r IH]; intros [|n]; simpl; try tauto.
  intros E. right. exact (IH n E).
Qed.

Lemma StronglySorted_take {A} (R : A -> A -> Prop) (n : nat) (l : list A) :
  StronglySorted R l -> StronglySorted R (take n l).
Proof.
  revert n. induction l as [|y r IH]; intros [|n] Hs; simpl; try constructor.
  - apply IH. apply StronglySorted_inv in Hs. tauto.
  - apply StronglySorted_inv in Hs. destruct Hs as [_ Hy].
    rewrite List.Forall_forall in *. intros z Hz. apply Hy.
    exact (In_take n r z Hz).
Qed.

Lemma StronglySorted_take_drop {A} (R : A -> A -> Prop) (n : nat) (l : list A) :
  StronglySorted R l ->
  forall a b, In a (take n l) -> In b (drop n l) -> R a b.
Proof.
  revert n. induction l as [|y r IH]; intros [|n] Hs a b; simpl; try tauto.
  apply StronglySorted_inv in Hs. destruct Hs as [Hr Hy].
  intros [<-|Ha] Hb.
  - rewrite List.Forall_forall in Hy. apply Hy. exact (In_drop n r b Hb).
  - exact (IH n Hr a b Ha Hb).
Qed.

Lemma NoDup_take {A} (n : nat) (l : list A) : List.NoDup l -> List.NoDup (take n l).
Proof.
  intros H. rewrite <- (take_drop n l) in H.
  exact (NoDup_app_remove_r _ _ H).
Qed.

Lemma ranking_spec (orders : list Order) :
  let its := all_items orders in
  let ranking :=
    JS.sort (fun a b => tp_revenue b - tp_revenue a)
      (map (fun kv => mkTopProduct (fst kv) (ps_name (snd kv))
                        (ps_quantity (snd kv)) (ps_revenue (snd kv)))
         (JS.entries (product_stats orders))) in
  StronglySorted by_revenue ranking
  /\ List.NoDup (map tp_productId ranking)
  /\ (forall t, In t ranking <->
                 JS.object_prototype_property (tp_productId t) = false
                 /\ product_group (tp_productId t) its = Some t).
Proof.
  intros its ranking.
  destruct (product_stats_groups its) as [Hnd Hl].
  fold its in Hnd, Hl. unfold its in Hnd, Hl.
  rewrite <- product_stats_flat in Hnd, Hl. fold its in Hl.
  set (stats := product_stats orders) in *.
  set (mk := fun kv : string * ProductStats =>
               mkTopProduct (fst kv) (ps_name (snd kv))
                 (ps_quantity (snd kv)) (ps_revenue (snd kv))) in *.
  assert (Hperm : Permutation ranking (map mk stats)).
  { unfold ranking. rewrite sort_perm. apply Permutation_map. apply entries_perm. }
  split; [apply (sort_sorted tp_revenue)|]. split.
  - apply Permutation_NoDup with (l := map fst stats); [|exact Hnd].
    symmetry. rewrite (Permutation_map tp_productId Hperm).
    rewrite map_map. reflexivity.
  - intros t. split.
    + intros Ht. apply (Permutation_in _ Hperm) in Ht.
      apply in_map_iff in Ht. destruct Ht as ([k v] & <- & Hkv).
      apply (stats_lookup_In k v stats Hnd) in Hkv.
      simpl. specialize (Hl k). rewrite Hkv in Hl. simpl in Hl.
      destruct (JS.object_prototype_property k); [discriminate|].
      split; [reflexivity|]. symmetry. exact Hl.
    + intros [Hp Ht]. specialize (Hl (tp_productId t)).
      rewrite Hp, Ht in Hl. rename Hl into Ht'. clear Ht. rename Ht' into Ht.
      destruct (stats_lookup (tp_productId t) stats) as [v|] eqn:Elook;
        [|discriminate].
      apply (stats_lookup_In _ v stats Hnd) in Elook.
      apply (Permutation_in _ (Permutation_sym Hperm)).
      apply in_map_iff. exists (tp_productId t, v).
      split; [|exact Elook]. simpl in Ht. injection Ht as <-. reflexivity.
Qed.

Lemma product_group_sums (pid : string) (its : list OrderItem) (t : TopProduct) :
  product_group pid its = Some t ->
  tp_productId t = pid
  /\ tp_quantity t = quantity_of pid its
  /\ tp_revenue t = revenue_of pid its
  /\ exists first,
       find (fun it => String.eqb (productId it) pid) its = Some first
       /\ tp_name t = item_name first.
Proof.
  unfold product_group.
  destruct (find _ its) as [first|]; [|discriminate].
  intros [= <-]. simpl. repeat split. exists first. split; reflexivity.
Qed.

Lemma product_group_complete (its : list OrderItem) (it : OrderItem) :
  In it its -> exists t, product_group (productId it) its = Some t.
Proof.
  intros Hin. unfold product_group.
  destruct (find _ its) as [first|] eqn:Efind; [eexists; reflexivity|].
  exfalso. apply (find_none _ _ Efind) in Hin.
  rewrite String.eqb_refl in Hin. discriminate.
Qed.

(** The analytics of every order set. ordersByStatus and ordersByChannel
    hold one entry for every member of the enumeration, in the order of the
    enumeration, with the number of orders of that status or channel, 0
    where there is none; the counts of each sum to totalOrders, the number
    of orders. topProducts has at most ten entries, sorted by revenue,
    largest first, with distinct productIds; each entry carries the name of
    the first item of its product, the sum of the qty and the sum of
    unitPrice * qty of the items of that product. topProducts is the first
    ten entries of a ranking with the same properties that holds an entry
    for every productId among the items that is not the name of a property
    of Object.prototype, and an entry of the ranking outside the first ten
    has no more revenue than one inside. *)
Theorem getAnalytics_counts_and_ranking :
  forall (db : Firestore Order) (startDate endDate : option Z),
    let orders := get db (date_range_query startDate endDate) in
    let its := all_items orders in
    let r := getAnalytics db startDate endDate in
    ordersByStatus r
    = map (fun st => (st, count_where (fun o => OrderStatus_eqb st (status o)) orders))
        all_statuses
    /\ ordersByChannel r
       = map (fun ch => (ch, count_where (fun o => OrderChannel_eqb ch (channel o)) orders))
           all_channels
    /\ totalOrders r = Z.of_nat (length orders)
    /\ sum_of snd (ordersByStatus r) = totalOrders r
    /\ sum_of snd (ordersByChannel r) = totalOrders r
    /\ (length (topProducts r) <= 10)%nat
    /\ StronglySorted by_revenue (topProducts r)
    /\ List.NoDup (map tp_productId (topProducts r))
    /\ (forall t, In t (topProducts r) ->
          tp_quantity t = quantity_of (tp_productId t) its
          /\ tp_revenue t = revenue_of (tp_productId t) its
          /\ exists first,
               find (fun it => String.eqb (productId it) (tp_productId t)) its
               = Some first
               /\ tp_name t = item_name first)
    /\ exists ranking,
         topProducts r = take 10 ranking
         /\ StronglySorted by_revenue ranking
         /\ List.NoDup (map tp_productId ranking)
         /\ (forall t, In t ranking -> product_group (tp_productId t) its = Some t)
         /\ (forall t, product_group (tp_productId t) its = Some t ->
               JS.object_prototype_property (tp_productId t) = false ->
               In t ranking)
         /\ (forall it, In it its ->
               JS.object_prototype_property (productId it) = false ->
               exists t, In t ranking /\ tp_productId t = productId it)
         /\ (forall t u, In t (topProducts r) -> In u ranking ->
               ~ In u (topProducts r) -> by_revenue t u).
Proof.
  intros db startDate endDate orders its r.
  assert (Hst : ordersByStatus r
                = map (fun st => (st, count_where
                                        (fun o => OrderStatus_eqb st (status o)) orders))
                    all_statuses).
  { unfold r, getAnalytics, analytics. cbn [ordersByStatus]. fold orders.
    rewrite (fold_increment OrderStatus_eqb status). unfold initial_ordersByStatus.
    simpl. rewrite ?Z.add_0_l. reflexivity. }
  assert (Hch : ordersByChannel r
                = map (fun ch => (ch, count_where
                                        (fun o => OrderChannel_eqb ch (channel o)) orders))
                    all_channels).
  { unfold r, getAnalytics, analytics. cbn [ordersByChannel]. fold orders.
    rewrite (fold_increment OrderChannel_eqb channel). unfold initial_ordersByChannel.
    simpl. rewrite ?Z.add_0_l. reflexivity. }
  assert (Hn : totalOrders r = Z.of_nat (length orders)) by reflexivity.
  destruct (ranking_spec orders) as (Hsorted & Hnd & Hin).
  fold its in Hin.
  set (ranking :=
         JS.sort (fun a b => tp_revenue b - tp_revenue a)
           (map (fun kv => mkTopProduct (fst kv) (ps_name (snd kv))
                             (ps_quantity (snd kv)) (ps_revenue (snd kv)))
              (JS.entries (product_stats orders)))) in *.
  assert (Htop : topProducts r = take 10 ranking) by reflexivity.
  split; [exact Hst|]. split; [exact Hch|]. split; [exact Hn|].
  split; [rewrite Hst, sum_of_map, Hn; apply status_counts_total|].
  split; [rewrite Hch, sum_of_map, Hn; apply channel_counts_total|].
  split; [rewrite Htop; apply firstn_le_length|].
  split; [rewrite Htop; apply StronglySorted_take; exact Hsorted|].
  split; [rewrite Htop, <- firstn_map; apply NoDup_take; exact Hnd|].
  split.
  { intros t Ht. rewrite Htop in Ht. apply In_take in Ht.
    apply Hin in Ht. destruct Ht as [_ Ht].
    destruct (product_group_sums _ _ _ Ht) as (_ & Hq & Hr & Hfirst).
    split; [exact Hq|]. split; [exact Hr|exact Hfirst]. }
  exists ranking.
  split; [exact Htop|]. split; [exact Hsorted|]. split; [exact Hnd|].
  split; [intros t Ht; apply Hin; exact Ht|].
  split; [intros t Ht Hp; apply Hin; split; assumption|]. split.
  - intros it Hit Hp.
    destruct (product_group_complete its it Hit) as [t Ht].
    destruct (product_group_sums _ _ _ Ht) as (Hid & _).
    exists t. split; [|exact Hid]. apply Hin. rewrite Hid. split; assumption.
  - intros t u Ht Hu Hnot. rewrite Htop in Ht, Hnot.
    apply (StronglySorted_take_drop by_revenue 10 ranking Hsorted t u Ht).
    rewrite <- (take_drop 10 ranking) in Hu.
    apply in_app_or in Hu. destruct Hu as [Hu|Hu]; [contradiction|exact Hu].
Qed.

(** C7 fails on an item whose productId is the name of a property that
    every object inherits. One order of one item, two units at 1500 of the
    product [constructor]: the quantity of the product is 2 and its revenue
    3000, yet topProducts is empty, since [productStats["constructor"]] is
    the inherited constructor, a truthy value, and no entry is created.
    Under the productId [prod-01] the same item makes the one entry of
    topProducts. *)
Lemma getAnalytics_inherited_name_dropped :
  let r := getAnalytics (list_store [order_of_item inherited_name_item]) None None in
  all_items (get (list_store [order_of_item inherited_name_item])
               (date_range_query None None))
  = [inherited_name_item]
  /\ quantity_of "constructor" [inherited_name_item] = 2
  /\ revenue_of "constructor" [inherited_name_item] = 3000
  /\ totalOrders r = 1
  /\ topProducts r = []
  /\ topProducts
       (getAnalytics
          (list_store [order_of_item (mkOrderItem "prod-01" "Burger" 2 1500 [] None)])
          None None)
     = [mkTopProduct "prod-01" "Burger" 2 3000].
Proof. vm_compute. repeat split. Qed.

(** C8. For every order set, totalOrders is the number of orders and
    totalRevenue the sum of their totals. With no order averageOrderValue
    is the number 0, and no division takes place. With at least one order
    totalOrders is positive and averageOrderValue is the quotient, in
    double arithmetic, of totalRevenue by totalOrders; the divisor, below
    2^53, is a finite double other than zero, and for a revenue between 0
    and 2^53 the quotient is a finite double within half a unit in the
    last place of totalRevenue / totalOrders. The quotient 0 / 0, which
    the guard avoids, is NaN. *)
Theorem getAnalytics_average :
  forall (db : Firestore Order) (startDate endDate : option Z),
    let orders := get db (date_range_query startDate endDate) in
    let r := getAnalytics db startDate endDate in
    totalOrders r = Z.of_nat (length orders)
    /\ totalRevenue r = sum_of (fun o => total (amounts o)) orders
    /\ (orders = [] ->
        totalOrders r = 0 /\ averageOrderValue r = S754_zero false)
    /\ (orders <> [] ->
        0 < totalOrders r
        /\ averageOrderValue r
           = JS.div (JS.of_int (totalRevenue r)) (JS.of_int (totalOrders r)))
    /\ (0 < totalOrders r < 2 ^ 53 ->
        exists m e, JS.of_int (totalOrders r) = S754_finite false m e)
    /\ (0 < totalOrders r < 2 ^ 53 -> 0 < totalRevenue r < 2 ^ 53 ->
        exists m e sc,
          averageOrderValue r = S754_finite false m e
          /\ sc <= e <= sc + 1 /\ sc <= 0
          /\ let R := Zpos m * 2 ^ (e - sc) in
             2 ^ 52 <= R <= 2 ^ 53
             /\ - totalOrders r
                <= 2 * (R * totalOrders r - totalRevenue r * 2 ^ (- sc))
                <= totalOrders r)
    /\ JS.div (JS.of_int 0) (JS.of_int 0) = S754_nan.
Proof.
  intros db startDate endDate orders r.
  assert (Hn : totalOrders r = Z.of_nat (length orders)) by reflexivity.
  assert (Hrev : totalRevenue r = sum_of (fun o => total (amounts o)) orders).
  { unfold r, getAnalytics, analytics. cbn [totalRevenue]. fold orders.
    rewrite fold_left_sum. apply Z.add_0_l. }
  assert (Havg : 0 < totalOrders r ->
                 averageOrderValue r
                 = JS.div (JS.of_int (totalRevenue r)) (JS.of_int (totalOrders r))).
  { intros Hpos. unfold r, getAnalytics, analytics.
    cbn [averageOrderValue totalRevenue totalOrders]. fold orders.
    rewrite Hn in Hpos.
    destruct (Z.gtb_spec (Z.of_nat (length orders)) 0) as [_|H]; [reflexivity|lia]. }
  split; [exact Hn|]. split; [exact Hrev|]. split.
  { intros Hnil. unfold r, getAnalytics. fold orders. rewrite Hnil.
    split; reflexivity. }
  split.
  { intros Hne. assert (Hpos : 0 < totalOrders r).
    { rewrite Hn. destruct orders; [contradiction|simpl; lia]. }
    split; [exact Hpos|exact (Havg Hpos)]. }
  split.
  { intros Hb. destruct (of_int_exact _ Hb) as (m & e & Hof & _).
    exists m, e. exact Hof. }
  split; [|reflexivity].
  intros Hb Ha. rewrite (Havg (proj1 Hb)).
  destruct (div_of_int _ _ Ha Hb) as (m & e & sc & Hdiv & _ & He & Hsc & _ & Henc & HR).
  exists m, e, sc. split; [exact Hdiv|]. split; [exact He|]. split; [exact Hsc|].
  split; [exact HR|exact Henc].
Qed.

End Analytics.

(* ===================================================================== *)
(** * The cart store                                                      *)
(* ===================================================================== *)

Section CartStore.
Variable stringify : list SelectedOption -> string.

Lemma store_optionsPrice_sum (line : Store.CartItem) :
  Store.optionsPrice line = sum_of opt_price (Store.options line).
Proof. unfold Store.optionsPrice. rewrite fold_left_sum. lia. Qed.

Lemma calculateTotals_spec (state : Store.CartState) :
  Store.calculateTotals state
  = Store.mkCartState (Store.items state) (Store.restaurant state)
      (Store.table state) (Store.channel state)
      (lines_total (Store.items state)) (Store.discounts state) (Store.fees state)
      (lines_total (Store.items state) - Store.discounts state
       + (default 0 (service (Store.fees state))
          + default 0 (fee_delivery (Store.fees state))))
      (Store.couponCode state).
Proof.
  unfold Store.calculateTotals. rewrite fold_left_sum. simpl.
  assert (H : sum_of
                (fun item => (Store.price item + Store.optionsPrice item) * Store.qty item)
                (Store.items state)
              = lines_total (Store.items state)).
  { unfold lines_total. induction (Store.items state) as [|x r IH]; simpl; [reflexivity|].
    rewrite IH. unfold line_total. rewrite store_optionsPrice_sum. reflexivity. }
  rewrite H. f_equal; lia.
Qed.

Lemma calculateTotals_consistent (state : Store.CartState) :
  consistent (Store.calculateTotals state).
Proof. rewrite calculateTotals_spec. split; reflexivity. Qed.

Lemma calculateTotals_fixed (state : Store.CartState) :
  consistent state -> Store.calculateTotals state = state.
Proof.
  intros [H1 H2]. rewrite calculateTotals_spec. destruct state; simpl in *.
  subst. reflexivity.
Qed.

(** Whatever the state of the store, every action that recomputes the
    totals, and clearCart, leaves a cart whose subtotal is the sum over its
    lines of (price + option prices) * qty and whose total is subtotal -
    discounts + fees; setTable and setRestaurant leave lines, discount, fees
    and totals as they were. A reload of the page keeps the lines, the
    restaurant, the table, the channel and the coupon code, and resets
    subtotal, discount, fees and total: the totals then agree with the
    lines only if the lines are worth nothing, until the next action that
    recomputes them; and the discount of the coupon is lost though its code
    is kept, a change of the lines after the reload leaving a total of the
    lines alone. So a state reached from the initial state has consistent
    totals when no reload is among the steps, and consistent or reset
    totals in any case. *)
Theorem store_totals_consistent :
  (forall a state,
      let state' := act stringify a state in
      match a with
      | SetTable _ | SetRestaurant _ =>
          Store.items state' = Store.items state
          /\ Store.subtotal state' = Store.subtotal state
          /\ Store.discounts state' = Store.discounts state
          /\ Store.fees state' = Store.fees state
          /\ Store.total state' = Store.total state
      | Reload =>
          Store.items state' = Store.items state
          /\ Store.restaurant state' = Store.restaurant state
          /\ Store.table state' = Store.table state
          /\ Store.channel state' = Store.channel state
          /\ Store.couponCode state' = Store.couponCode state
          /\ totals_reset state'
          /\ (consistent state' <-> lines_total (Store.items state) = 0)
      | _ => consistent state'
      end)
  /\ (forall a state,
        changes_lines a = true ->
        let state' := act stringify a (act stringify Reload state) in
        Store.couponCode state' = Store.couponCode state
        /\ Store.discounts state' = 0
        /\ Store.total state' = lines_total (Store.items state'))
  /\ (forall actions,
        let state :=
          fold_left (fun state a => act stringify a state) actions Store.initialState in
        (consistent state \/ totals_reset state)
        /\ (Forall (fun a => a <> Reload) actions -> consistent state)).
Proof.
  assert (Hstep : forall a state,
             a <> Reload -> consistent state -> consistent (act stringify a state)).
  { intros a state Ha H. destruct a; simpl;
      try apply calculateTotals_consistent; try exact H.
    - split; reflexivity.
    - contradiction. }
  assert (Hany : forall a state,
             consistent state \/ totals_reset state ->
             consistent (act stringify a state) \/ totals_reset (act stringify a state)).
  { intros a state H. destruct a; simpl;
      try (left; apply calculateTotals_consistent).
    - left. split; reflexivity.
    - exact H.
    - exact H.
    - right. repeat split. }
  split; [|split].
  - intros a state. destruct a; simpl;
      try apply calculateTotals_consistent; try (repeat split; reflexivity).
    repeat split; try reflexivity.
    + intros [H _]. simpl in H. symmetry. exact H.
    + simpl. symmetry. assumption.
  - intros a state Ha state'. subst state'.
    destruct a; try discriminate; cbn [act];
      unfold Store.addItem, Store.removeItem, Store.updateItemQty;
      rewrite calculateTotals_spec; cbn; repeat split; lia.
  - intros actions.
    assert (H0 : consistent Store.initialState) by (split; reflexivity).
    revert H0. generalize Store.initialState.
    induction actions as [|a r IH]; intros state H; simpl.
    + split; [left; exact H|intros _; exact H].
    + split.
      * assert (Hor : forall l s, consistent s \/ totals_reset s ->
                        let s' := fold_left (fun state a => act stringify a state) l s in
                        consistent s' \/ totals_reset s').
        { intros l. induction l as [|x l IHl]; intros s Hs; simpl; [exact Hs|].
          apply IHl. apply Hany. exact Hs. }
        apply Hor. apply Hany. left. exact H.
      * intros Hall. apply Forall_cons in Hall. destruct Hall as [Ha Hr].
        apply IH; [|exact Hr]. apply Hstep; assumption.
Qed.

Lemma filter_Boolean_map {A} (f : A -> bool) (g : A -> A) (l : list A) :
  filter_Boolean (map (fun x => if f x then None else Some (g x)) l)
  = map g (List.filter (fun x => negb (f x)) l).
Proof.
  induction l as [|x r IH]; simpl; [reflexivity|].
  destruct (f x); simpl; rewrite IH; reflexivity.
Qed.

Lemma filter_Boolean_Some {A} (g : A -> A) (l : list A) :
  filter_Boolean (map (fun x => Some (g x)) l) = map g l.
Proof. induction l as [|x r IH]; simpl; [reflexivity|]. rewrite IH. reflexivity. Qed.

Lemma filter_filter_same {A} (f : A -> bool) (l : list A) :
  List.filter f (List.filter f l) = List.filter f l.
Proof.
  induction l as [|x r IH]; simpl; [reflexivity|].
  destruct (f x) eqn:E; simpl; rewrite ?E, IH; reflexivity.
Qed.

Lemma is_line_None (p : string) (o : list SelectedOption) (line : Store.CartItem) :
  Store.is_line stringify p (Some o) line = true ->
  Store.is_line stringify p None line = true.
Proof.
  unfold Store.is_line. destruct (String.eqb (Store.productId line) p); simpl; auto.
Qed.

(** updateItemQty with a quantity of 0 or less is removeItem: the lines of
    the product (with the options given, or every line of the product when
    none are given) are taken out. With a positive quantity the cart keeps
    its lines, in their order, and each of those lines gets the quantity.
    removeItem leaves no such line, removing twice is removing once, and
    removing the product without options after removing it with options is
    removing it without options. *)
Theorem updateItemQty_removeItem :
  forall (p : string) (q : Z) (opts : option (list SelectedOption))
         (state : Store.CartState),
    (q <= 0 ->
     Store.updateItemQty stringify p q opts state
     = Store.removeItem stringify p opts state)
    /\ (0 < q ->
        Store.items (Store.updateItemQty stringify p q opts state)
        = map (fun line =>
                 if Store.is_line stringify p opts line
                 then Store.set_qty q line else line)
            (Store.items state))
    /\ (forall line,
          In line (Store.items (Store.removeItem stringify p opts state)) <->
          In line (Store.items state)
          /\ Store.is_line stringify p opts line = false)
    /\ Store.removeItem stringify p opts (Store.removeItem stringify p opts state)
       = Store.removeItem stringify p opts state
    /\ Store.removeItem stringify p None (Store.removeItem stringify p opts state)
       = Store.removeItem stringify p None state.
Proof.
  intros p q opts state.
  split; [|split; [|split; [|split]]].
  - intros Hq. unfold Store.updateItemQty, Store.removeItem.
    destruct (Z.leb_spec q 0) as [_|H]; [|lia].
    f_equal. f_equal.
    rewrite <- (map_id (List.filter _ _)).
    rewrite <- (filter_Boolean_map (Store.is_line stringify p opts) (fun x => x)).
    reflexivity.
  - intros Hq. unfold Store.updateItemQty.
    destruct (Z.leb_spec q 0) as [H|_]; [lia|].
    rewrite calculateTotals_spec. simpl.
    rewrite <- (filter_Boolean_Some
                  (fun line => if Store.is_line stringify p opts line
                               then Store.set_qty q line else line)).
    f_equal. apply map_ext. intros line.
    destruct (Store.is_line stringify p opts line); reflexivity.
  - intros line. unfold Store.removeItem. rewrite calculateTotals_spec. simpl.
    rewrite filter_In.
    destruct (Store.is_line stringify p opts line); simpl; intuition congruence.
  - unfold Store.removeItem. rewrite !calculateTotals_spec. simpl.
    rewrite filter_filter_same. reflexivity.
  - unfold Store.removeItem. rewrite !calculateTotals_spec. simpl.
    assert (H : List.filter (fun item => negb (Store.is_line stringify p None item))
                  (List.filter (fun item => negb (Store.is_line stringify p opts item))
                     (Store.items state))
                = List.filter (fun item => negb (Store.is_line stringify p None item))
                    (Store.items state)).
    { induction (Store.items state) as [|x r IH]; simpl; [reflexivity|].
      destruct (Store.is_line stringify p opts x) eqn:E1; simpl.
      - assert (E2 : Store.is_line stringify p None x = true).
        { destruct opts; [exact (is_line_None _ _ _ E1)|exact E1]. }
        rewrite E2. simpl. exact IH.
      - destruct (Store.is_line stringify p None x); simpl; rewrite IH; reflexivity. }
    rewrite H. reflexivity.
Qed.

Lemma findIndex_None {A} (p : A -> bool) (l : list A) :
  findIndex p l = None <-> forall x, In x l -> p x = false.
Proof.
  induction l as [|y r IH]; simpl.
  - split; [intros _ x []|reflexivity].
  - destruct (p y) eqn:E.
    + split; [discriminate|]. intros H. specialize (H y (or_introl eq_refl)). congruence.
    + destruct (findIndex p r) as [n|]; simpl.
      * split; [discriminate|]. intros H. exfalso.
        assert (H' : Some n = None); [|discriminate].
        apply IH. intros x Hx. apply H. right. exact Hx.
      * split; [|reflexivity]. intros _ x [<-|Hx]; [exact E|].
        apply IH; [reflexivity|exact Hx].
Qed.

Lemma findIndex_Some {A} (p : A -> bool) (l : list A) (n : nat) :
  findIndex p l = Some n <->
  exists x, l !! n = Some x /\ p x = true
            /\ forall j y, (j < n)%nat -> l !! j = Some y -> p y = false.
Proof.
  revert n. induction l as [|y r IH]; intros n; simpl.
  - split; [discriminate|]. intros (x & H & _). discriminate.
  - destruct (p y) eqn:E.
    + split.
      * intros [= <-]. exists y. split; [reflexivity|]. split; [exact E|].
        intros j z Hj. lia.
      * intros (x & Hx & Hp & Hfirst). destruct n as [|n]; [reflexivity|].
        specialize (Hfirst 0%nat y ltac:(lia) eq_refl). congruence.
    + split.
      * destruct (findIndex p r) as [m|] eqn:Er; [|discriminate].
        intros [= <-]. destruct (proj1 (IH m) eq_refl) as (x & Hx & Hp & Hfirst).
        exists x. split; [exact Hx|]. split; [exact Hp|].
        intros [|j] z Hj Hz; simpl in Hz; [congruence|].
        apply (Hfirst j z); [lia|exact Hz].
      * intros (x & Hx & Hp & Hfirst). destruct n as [|n]; simpl in Hx; [congruence|].
        assert (Hn : findIndex p r = Some n).
        { apply IH. exists x. split; [exact Hx|]. split; [exact Hp|].
          intros j z Hj Hz. apply (Hfirst (S j) z); [lia|exact Hz]. }
        rewrite Hn. reflexivity.
Qed.

Lemma lookup_In {A} (l : list A) (n : nat) (x : A) : l !! n = Some x -> In x l.
Proof.
  revert n. induction l as [|y r IH]; intros [|n] H; try discriminate.
  - injection H as ->. left. reflexivity.
  - right. exact (IH n H).
Qed.

Lemma lines_total_app (l r : list Store.CartItem) :
  lines_total (l ++ r) = lines_total l + lines_total r.
Proof. unfold lines_total. induction l as [|x l IH]; simpl; lia. Qed.

Lemma lines_total_cons (x : Store.CartItem) (l : list Store.CartItem) :
  lines_total (x :: l) = line_total x + lines_total l.
Proof. reflexivity. Qed.

Lemma lines_total_alter (f : Store.CartItem -> Store.CartItem) (n : nat)
    (l : list Store.CartItem) (line : Store.CartItem) :
  l !! n = Some line ->
  lines_total (alter f n l) = lines_total l - line_total line + line_total (f line).
Proof.
  revert n. induction l as [|x r IH]; intros [|n] H; try discriminate.
  - injection H as ->. unfold lines_total. simpl. lia.
  - simpl in H. change (alter f (S n) (x :: r)) with (x :: alter f n r).
    rewrite !lines_total_cons, (IH n H). lia.
Qed.

Lemma addItem_items (item : Store.NewItem) (state : Store.CartState) :
  Store.items (Store.addItem stringify item state)
  = match findIndex
            (fun line =>
               String.eqb (Store.productId line) (Store.new_productId item)
               && String.eqb (stringify (Store.options line))
                    (stringify (Store.new_options item)))
            (Store.items state) with
    | Some n =>
        alter (fun line =>
                 Store.set_qty (Store.qty line + or_1 (Store.new_qty item)) line)
          n (Store.items state)
    | None =>
        (Store.items state
         ++ [Store.mkCartItem (Store.new_productId item) (Store.new_name item)
               (Store.new_price item) (or_1 (Store.new_qty item))
               (Store.new_options item) (Store.new_notes item)
               (Store.new_imageUrl item)])%list
    end.
Proof. unfold Store.addItem. rewrite calculateTotals_spec. reflexivity. Qed.

(** addItem. When no line of the cart has the productId and the options of
    the item, a line is added at the end; otherwise the first such line gets
    the quantity on top of its own, and the cart has the lines it had. The
    quantity is the one given, or 1 when none or 0 is given. Either way the
    subtotal grows by that quantity at the price of the line that received
    it, the discount and the coupon code stay, and adding the same item
    again adds no line. *)
Theorem addItem_merges :
  forall (item : Store.NewItem) (state : Store.CartState),
    let same := fun line =>
      String.eqb (Store.productId line) (Store.new_productId item)
      && String.eqb (stringify (Store.options line))
           (stringify (Store.new_options item)) in
    let q := or_1 (Store.new_qty item) in
    let added := Store.addItem stringify item state in
    ((forall line, In line (Store.items state) -> same line = false) ->
     Store.items added
     = (Store.items state
        ++ [Store.mkCartItem (Store.new_productId item) (Store.new_name item)
              (Store.new_price item) q (Store.new_options item)
              (Store.new_notes item) (Store.new_imageUrl item)])%list)
    /\ (forall n line,
          Store.items state !! n = Some line -> same line = true ->
          (forall j y, (j < n)%nat -> Store.items state !! j = Some y ->
                       same y = false) ->
          Store.items added
          = <[n := Store.set_qty (Store.qty line + q) line]> (Store.items state))
    /\ (exists line,
          In line (Store.items added) /\ same line = true
          /\ Store.subtotal added
             = lines_total (Store.items state)
               + (Store.price line + sum_of opt_price (Store.options line)) * q)
    /\ (q = match Store.new_qty item with
            | Some n => if n =? 0 then 1 else n
            | None => 1
            end)
    /\ Store.discounts added = Store.discounts state
    /\ Store.couponCode added = Store.couponCode state
    /\ length (Store.items (Store.addItem stringify item added))
       = length (Store.items added).
Proof.
  intros item state same q added.
  assert (Hitems : Store.items added
                   = match findIndex same (Store.items state) with
                     | Some n =>
                         alter (fun line => Store.set_qty (Store.qty line + q) line) n
                           (Store.items state)
                     | None =>
                         (Store.items state
                          ++ [Store.mkCartItem (Store.new_productId item)
                                (Store.new_name item) (Store.new_price item) q
                                (Store.new_options item) (Store.new_notes item)
                                (Store.new_imageUrl item)])%list
                     end).
  { exact (addItem_items item state). }
  assert (Hsub : Store.subtotal added = lines_total (Store.items added)).
  { unfold added, Store.addItem. rewrite calculateTotals_spec. reflexivity. }
  assert (Hfound : exists n line,
             findIndex same (Store.items added) = Some n
             /\ Store.items added !! n = Some line /\ same line = true
             /\ lines_total (Store.items added)
                = lines_total (Store.items state)
                  + (Store.price line + sum_of opt_price (Store.options line)) * q).
  { rewrite Hitems. destruct (findIndex same (Store.items state)) as [n|] eqn:Ef.
    - destruct (proj1 (findIndex_Some _ _ _) Ef) as (line & Hl & Hs & Hfirst).
      exists n, (Store.set_qty (Store.qty line + q) line).
      assert (Hl' : alter (fun line => Store.set_qty (Store.qty line + q) line) n
                      (Store.items state) !! n
                    = Some (Store.set_qty (Store.qty line + q) line)).
      { rewrite list_lookup_alter. destruct (decide (n = n)); [|congruence].
        rewrite Hl. reflexivity. }
      split; [|split; [exact Hl'|split; [exact Hs|]]].
      + apply findIndex_Some. exists (Store.set_qty (Store.qty line + q) line).
        split; [exact Hl'|]. split; [exact Hs|].
        intros j y Hj Hy. rewrite list_lookup_alter_ne in Hy by lia.
        exact (Hfirst j y Hj Hy).
      + rewrite (lines_total_alter _ _ _ _ Hl). unfold line_total. simpl. lia.
    - pose proof (proj1 (findIndex_None _ _) Ef) as Hnone.
      set (line := Store.mkCartItem (Store.new_productId item) (Store.new_name item)
                     (Store.new_price item) q (Store.new_options item)
                     (Store.new_notes item) (Store.new_imageUrl item)).
      assert (Hs : same line = true).
      { unfold same, line. simpl. rewrite !String.eqb_refl. reflexivity. }
      exists (length (Store.items state)), line.
      assert (Hl : (Store.items state ++ [line])%list !! length (Store.items state)
                   = Some line).
      { rewrite lookup_app_r by lia. rewrite Nat.sub_diag. reflexivity. }
      split; [|split; [exact Hl|split; [exact Hs|]]].
      + apply findIndex_Some. exists line. split; [exact Hl|]. split; [exact Hs|].
        intros j y Hj Hy. rewrite lookup_app_l in Hy by exact Hj.
        apply Hnone. exact (lookup_In _ _ _ Hy).
      + rewrite lines_total_app. unfold lines_total at 2. simpl.
        unfold line_total. simpl. lia. }
  split; [|split; [|split; [|split; [|split; [|split]]]]].
  - intros Hnone. rewrite Hitems.
    rewrite (proj2 (findIndex_None same (Store.items state)) Hnone). reflexivity.
  - intros n line Hl Hs Hfirst. rewrite Hitems.
    assert (Ef : findIndex same (Store.items state) = Some n).
    { apply findIndex_Some. exists line. auto. }
    rewrite Ef. apply list_eq. intros i.
    destruct (decide (i = n)) as [->|Hne].
    + rewrite list_lookup_alter. destruct (decide (n = n)); [|congruence].
      rewrite Hl. simpl.
      rewrite list_lookup_insert_eq; [reflexivity|].
      apply lookup_lt_Some in Hl. exact Hl.
    + rewrite list_lookup_alter_ne by congruence.
      rewrite list_lookup_insert_ne by congruence. reflexivity.
  - destruct Hfound as (n & line & _ & Hl & Hs & Htot).
    exists line. split; [|split; [exact Hs|]].
    + exact (lookup_In _ _ _ Hl).
    + rewrite Hsub. exact Htot.
  - unfold q, or_1, JS.truthy. destruct (Store.new_qty item) as [n|]; [|reflexivity].
    destruct (n =? 0); reflexivity.
  - unfold added, Store.addItem. rewrite calculateTotals_spec. reflexivity.
  - unfold added, Store.addItem. rewrite calculateTotals_spec. reflexivity.
  - destruct Hfound as (n & line & Ef & _).
    rewrite (addItem_items item added). unfold same in Ef. rewrite Ef.
    apply length_alter.
Qed.

(** The store and the part of it that the coupon handler was described
    on agree. *)
Lemma to_cart_calculateTotals (state : Store.CartState) :
  Store.to_cart (Store.calculateTotals state)
  = Cart.calculateTotals (Store.to_cart state).
Proof.
  unfold Store.calculateTotals, Cart.calculateTotals, Store.to_cart. simpl.
  rewrite !fold_left_sum.
  assert (H : sum_of
                (fun item => (Store.price item + Store.optionsPrice item) * Store.qty item)
                (Store.items state)
              = sum_of
                  (fun item =>
                     (Cart.ci_price item
                      + fold_left (fun optSum opt => optSum + opt_price opt)
                          (Cart.ci_options item) 0) * Cart.ci_qty item)
                  (map (fun i => Cart.mkCartItem (Store.productId i) (Store.name i)
                                   (Store.price i) (Store.qty i) (Store.options i))
                     (Store.items state))).
  { induction (Store.items state) as [|x r IH]; simpl; [reflexivity|].
    rewrite IH. reflexivity. }
  rewrite H. reflexivity.
Qed.

Lemma to_cart_applyCoupon (code : string) (discount : Z) (state : Store.CartState) :
  Store.to_cart (Store.applyCoupon code discount state)
  = Cart.applyCoupon code discount (Store.to_cart state).
Proof. unfold Store.applyCoupon. rewrite to_cart_calculateTotals. reflexivity. Qed.

(** The discount of the cart is the amount handed to applyCoupon and
    nothing recomputes it. Applying a second coupon replaces the first,
    removeCoupon undoes applyCoupon (on a cart with consistent totals and no
    coupon it gives back the cart), and the actions that change the lines
    keep the code and the amount: the total is then the price of the new
    lines less the old discount plus the fees, so that a cart emptied line
    by line is left with a total of fees minus discount. *)
Theorem coupon_amount_is_kept :
  forall (code : string) (d : Z) (state : Store.CartState),
    let applied := Store.applyCoupon code d state in
    Store.removeCoupon applied = Store.removeCoupon state
    /\ (forall code2 d2,
          Store.applyCoupon code2 d2 applied = Store.applyCoupon code2 d2 state)
    /\ (consistent state -> Store.couponCode state = None ->
        Store.discounts state = 0 -> Store.removeCoupon applied = state)
    /\ (forall a, changes_lines a = true ->
          let changed := act stringify a applied in
          let feesTotal := default 0 (service (Store.fees state))
                           + default 0 (fee_delivery (Store.fees state)) in
          Store.discounts changed = d
          /\ Store.couponCode changed = Some code
          /\ Store.total changed = lines_total (Store.items changed) - d + feesTotal
          /\ (Store.items changed = [] -> Store.total changed = feesTotal - d)).
Proof.
  intros code d state applied.
  split; [|split; [|split]].
  - unfold applied, Store.removeCoupon, Store.applyCoupon.
    rewrite !calculateTotals_spec. reflexivity.
  - intros code2 d2. unfold applied, Store.applyCoupon.
    rewrite !calculateTotals_spec. reflexivity.
  - intros [H1 H2] Hc Hd. unfold applied, Store.removeCoupon, Store.applyCoupon.
    rewrite !calculateTotals_spec. destruct state; simpl in *. subst.
    f_equal; lia.
  - intros a Ha changed feesTotal.
    assert (H : Store.discounts changed = d
                /\ Store.couponCode changed = Some code
                /\ Store.total changed
                   = lines_total (Store.items changed) - d + feesTotal).
    { unfold changed, applied. destruct a; try discriminate; cbn [act].
      - unfold Store.addItem, Store.applyCoupon. rewrite !calculateTotals_spec.
        repeat split.
      - unfold Store.removeItem, Store.applyCoupon. rewrite !calculateTotals_spec.
        repeat split.
      - unfold Store.updateItemQty, Store.applyCoupon. rewrite !calculateTotals_spec.
        repeat split. }
    destruct H as (Hd & Hc & Ht).
    split; [exact Hd|]. split; [exact Hc|]. split; [exact Ht|].
    intros Hempty. rewrite Ht, Hempty. unfold lines_total. simpl. lia.
Qed.

End CartStore.

(* ===================================================================== *)
(** * The mock service                                                    *)
(* ===================================================================== *)

Section Mock.
Import MockService.

Lemma find_findIndex_None {A} (p : A -> bool) (l : list A) :
  find p l = None <-> findIndex p l = None.
Proof.
  induction l as [|x r IH]; simpl; [tauto|].
  destruct (p x); [split; discriminate|].
  rewrite IH. destruct (findIndex p r); simpl; split; congruence.
Qed.

Lemma find_findIndex_Some {A} (p : A -> bool) (l : list A) (x : A) :
  find p l = Some x -> exists n, findIndex p l = Some n /\ l !! n = Some x.
Proof.
  induction l as [|y r IH]; simpl; [discriminate|].
  destruct (p y).
  - intros [= ->]. exists 0%nat. split; reflexivity.
  - intros H. destruct (IH H) as (n & Hn & Hl). exists (S n).
    rewrite Hn. split; [reflexivity|exact Hl].
Qed.

Lemma find_alter_found {A} (p : A -> bool) (f : A -> A) (l : list A) (n : nat) :
  (forall x, p (f x) = p x) -> findIndex p l = Some n ->
  find p (alter f n l) = option_map f (find p l).
Proof.
  intros Hp. revert n. induction l as [|y r IH]; intros n; simpl; [discriminate|].
  destruct (p y) eqn:E.
  - intros [= <-]. simpl. rewrite Hp, E. reflexivity.
  - destruct (findIndex p r) as [m|] eqn:Er; [|discriminate].
    intros [= <-]. simpl. rewrite E. apply IH. reflexivity.
Qed.

Lemma find_alter_other {A} (q : A -> bool) (f : A -> A) (l : list A) (n : nat) (x : A) :
  l !! n = Some x -> q x = false -> q (f x) = false ->
  find q (alter f n l) = find q l.
Proof.
  revert n. induction l as [|y r IH]; intros [|n] Hl Hq Hq'; try discriminate.
  - injection Hl as ->. simpl. rewrite Hq, Hq'. reflexivity.
  - simpl. destruct (q y); [reflexivity|]. exact (IH n Hl Hq Hq').
Qed.

Lemma map_alter_same {A B} (g : A -> B) (f : A -> A) (l : list A) (n : nat) :
  (forall x, g (f x) = g x) -> map g (alter f n l) = map g l.
Proof.
  intros Hg. revert n. induction l as [|y r IH]; intros [|n]; simpl; try reflexivity.
  - rewrite Hg. reflexivity.
  - change (alter f n r) with (alter f n r). f_equal. apply IH.
Qed.

Lemma updateOrderStatus_ids (updated closed_at : Z) (orderId : string)
    (st : OrderStatus) (this : Service) :
  map id (orders (updateOrderStatus updated closed_at orderId st this))
  = map id (orders this)
  /\ orderIdCounter (updateOrderStatus updated closed_at orderId st this)
     = orderIdCounter this.
Proof.
  unfold updateOrderStatus.
  destruct (findIndex _ (orders this)); [|split; reflexivity].
  split; [|reflexivity]. cbn [orders]. apply map_alter_same. reflexivity.
Qed.

(** updateOrderStatus of the mock service. An id that no order has leaves
    the instance as it was, without an error. Otherwise the first order
    with the id gets the status and the time of the change; it gets a
    closing time exactly on the status closed, and keeps the one it had on
    every other status, canceled included. Its other properties, the other
    orders, the order of the orders and the counter stay. *)
Theorem mock_updateOrderStatus :
  forall (updated closed_at : Z) (orderId : string) (st : OrderStatus)
         (this : Service),
    let this' := updateOrderStatus updated closed_at orderId st this in
    (getOrder orderId this = None -> this' = this)
    /\ (forall order, getOrder orderId this = Some order ->
          getOrder orderId this'
          = Some (mkOrder (id order) (tableId order) (items order) st
                    (channel order) (amounts order) (customer order)
                    (orderNumber order) (createdAt order) updated
                    (match st with
                     | closed => Some closed_at
                     | _ => closedAt order
                     end)))
    /\ (forall other, other <> orderId -> getOrder other this' = getOrder other this)
    /\ map id (orders this') = map id (orders this)
    /\ orderIdCounter this' = orderIdCounter this.
Proof.
  intros updated closed_at orderId st this this'.
  unfold this', updateOrderStatus, getOrder.
  destruct (findIndex (fun o => String.eqb (id o) orderId) (orders this)) as [n|] eqn:Ef.
  - set (f := fun order : Order => mkOrder _ _ _ _ _ _ _ _ _ _ _).
    split; [|split; [|split; [|split]]].
    + intros Hnone. apply find_findIndex_None in Hnone. congruence.
    + intros order Ho. cbn [orders].
      rewrite (find_alter_found _ f _ n) by (reflexivity || exact Ef).
      rewrite Ho. simpl. destruct st; reflexivity.
    + intros other Hne. cbn [orders].
      destruct (proj1 (findIndex_Some _ _ _) Ef) as (x & Hx & Hp & _).
      apply (find_alter_other _ f _ n x Hx).
      * destruct (String.eqb_spec (id x) other) as [E|_]; [|reflexivity].
        destruct (String.eqb_spec (id x) orderId) as [E'|]; [congruence|discriminate].
      * simpl. destruct (String.eqb_spec (id x) other) as [E|_]; [|reflexivity].
        destruct (String.eqb_spec (id x) orderId) as [E'|]; [congruence|discriminate].
    + cbn [orders]. apply map_alter_same. reflexivity.
    + reflexivity.
  - split; [reflexivity|]. split; [|split; [|split]]; try reflexivity.
    intros order Ho. apply find_findIndex_None in Ef. congruence.
Qed.

Lemma order_id_inj (j k : Z) :
  "order-" +:+ pretty j = "order-" +:+ pretty k -> j = k.
Proof. intros H. injection H as H. exact (inj pretty _ _ H). Qed.

Lemma ids_below_call (c : Call) (this : Service) :
  ids_below this -> ids_below (call c this).
Proof.
  intros (Hc & Hnd & Hids). destruct c as [n cr up od|up cl oid st]; simpl.
  - unfold createOrder, ids_below. cbn [snd orders orderIdCounter].
    split; [lia|]. split.
    + rewrite map_app. simpl.
      apply Permutation_NoDup
        with (l := ("order-" +:+ pretty (orderIdCounter this)) :: map id (orders this)).
      * apply Permutation_cons_append.
      * constructor; [|exact Hnd]. intros Hin. apply in_map_iff in Hin.
        destruct Hin as (o & Ho & Hino). destruct (Hids o Hino) as (k & Hk & Hidk).
        rewrite Hidk in Ho. apply order_id_inj in Ho. lia.
    + intros o Hin. apply in_app_or in Hin. destruct Hin as [Hin|[<-|[]]].
      * destruct (Hids o Hin) as (k & Hk & Hidk). exists k. split; [lia|exact Hidk].
      * exists (orderIdCounter this). split; [lia|reflexivity].
  - pose proof (updateOrderStatus_ids up cl oid st this) as (Hmap & Hcnt).
    unfold ids_below.
    split; [rewrite Hcnt; exact Hc|]. split; [rewrite Hmap; exact Hnd|].
    rewrite Hcnt. intros o Hin.
    assert (Hid : In (id o) (map id (orders this))).
    { rewrite <- Hmap. apply in_map. exact Hin. }
    apply in_map_iff in Hid. destruct Hid as (o' & Ho' & Hin').
    destruct (Hids o' Hin') as (k & Hk & Hidk). exists k. split; [exact Hk|congruence].
Qed.

Lemma ids_below_after (calls : list Call) : ids_below (service_after calls).
Proof.
  unfold service_after.
  assert (H0 : ids_below new_service).
  { split; [simpl; lia|]. split; [constructor|]. intros o []. }
  revert H0. generalize new_service.
  induction calls as [|c r IH]; intros this H; simpl; [exact H|].
  apply IH. apply ids_below_call. exact H.
Qed.

Lemma getOrder_snoc (oid : string) (o : Order) (l : list Order) (c : Z) :
  getOrder oid (mkService (l ++ [o])%list c)
  = match find (fun x => String.eqb (id x) oid) l with
    | Some y => Some y
    | None => if String.eqb (id o) oid then Some o else None
    end.
Proof.
  unfold getOrder. cbn [orders].
  exact (find_app_one (fun x => String.eqb (id x) oid) l o).
Qed.

(** createOrder and getOrder on one instance. After any sequence of calls
    on a new instance, createOrder returns the id order-k for k the counter,
    which no order of the instance has; afterwards getOrder finds under that
    id the order created, placed and not closed, with the items, channel,
    table and customer given, and finds under every other id what it found
    before. The ids of the orders are distinct, and the orders are kept in
    the order of their creation. *)
Theorem mock_createOrder_getOrder :
  forall (calls : list Call) (number created updated : Z)
         (orderData : OrderRepository.OrderData),
    let this := service_after calls in
    let orderId := fst (createOrder number created updated orderData this) in
    let this' := snd (createOrder number created updated orderData this) in
    orderId = "order-" +:+ pretty (orderIdCounter this)
    /\ orderIdCounter this' = orderIdCounter this + 1
    /\ getOrder orderId this = None
    /\ (exists order,
          getOrder orderId this' = Some order
          /\ orders this' = (orders this ++ [order])%list
          /\ id order = orderId /\ status order = placed /\ closedAt order = None
          /\ items order = OrderRepository.od_items orderData
          /\ channel order = OrderRepository.od_channel orderData
          /\ tableId order = OrderRepository.od_tableId orderData
          /\ customer order = OrderRepository.od_customer orderData
          /\ orderNumber order = Some number
          /\ createdAt order = created /\ updatedAt order = updated)
    /\ (forall other, other <> orderId -> getOrder other this' = getOrder other this)
    /\ List.NoDup (map id (orders this')).
Proof.
  intros calls number created updated orderData this orderId this'.
  pose proof (ids_below_after calls) as Hinv. fold this in Hinv.
  pose proof (ids_below_call (CallCreateOrder number created updated orderData)
                this Hinv) as Hinv'.
  simpl in Hinv'. fold this' in Hinv'.
  destruct Hinv as (Hc & Hnd & Hids).
  assert (Hoid : orderId = "order-" +:+ pretty (orderIdCounter this)) by reflexivity.
  clearbody orderId. subst orderId.
  assert (Hfresh : getOrder ("order-" +:+ pretty (orderIdCounter this)) this = None).
  { unfold getOrder. apply find_findIndex_None. apply findIndex_None.
    intros o Hin. destruct (Hids o Hin) as (k & Hk & Hidk).
    destruct (String.eqb_spec (id o) ("order-" +:+ pretty (orderIdCounter this)))
      as [E|_]; [|reflexivity].
    rewrite Hidk in E. apply order_id_inj in E. lia. }
  split; [reflexivity|]. split; [reflexivity|]. split; [exact Hfresh|].
  split; [|split].
  - eexists. split; [|split; [reflexivity|repeat split]].
    unfold this', createOrder. cbn [snd]. rewrite getOrder_snoc.
    unfold getOrder in Hfresh. rewrite Hfresh.
    cbn [id]. rewrite String.eqb_refl. reflexivity.
  - intros other Hne. unfold this', createOrder. cbn [snd]. rewrite getOrder_snoc.
    unfold getOrder. destruct (find _ (orders this)); [reflexivity|].
    cbn [id]. destruct (String.eqb_spec ("order-" +:+ pretty (orderIdCounter this)) other)
      as [E|_]; [|reflexivity].
    exfalso. apply Hne. rewrite <- E. reflexivity.
  - exact (proj1 (proj2 Hinv')).
Qed.

Lemma sort_insert_stable {A} (key : A -> Z) (t : Z) (x : A) (l : list A) :
  List.filter (fun y => key y =? t) (JS.sort_insert (fun a b => key b - key a) x l)
  = List.filter (fun y => key y =? t) (x :: l).
Proof.
  induction l as [|y r IH]; simpl; [reflexivity|].
  destruct (Z.ltb_spec (key x - key y) 0) as [Hlt|Hge]; simpl.
  - simpl in IH. rewrite IH.
    destruct (Z.eqb_spec (key x) t) as [Ex|Ex];
      destruct (Z.eqb_spec (key y) t) as [Ey|Ey]; try reflexivity. lia.
  - reflexivity.
Qed.

Lemma sort_stable {A} (key : A -> Z) (t : Z) (l : list A) :
  List.filter (fun y => key y =? t) (JS.sort (fun a b => key b - key a) l)
  = List.filter (fun y => key y =? t) l.
Proof.
  induction l as [|x r IH]; [reflexivity|].
  unfold JS.sort in *. cbn [fold_right]. rewrite sort_insert_stable.
  simpl. rewrite IH. reflexivity.
Qed.

(** getOrders returns the orders of the instance, each once, newest
    first; orders created at the same time keep the order of their
    creation. *)
Theorem mock_getOrders_newest_first :
  forall (this : Service),
    Permutation (getOrders this) (orders this)
    /\ StronglySorted newest_first (getOrders this)
    /\ (forall t,
          List.filter (fun o => createdAt o =? t) (getOrders this)
          = List.filter (fun o => createdAt o =? t) (orders this)).
Proof.
  intros this. unfold getOrders. split; [apply sort_perm|]. split.
  - exact (sort_sorted createdAt (orders this)).
  - intros t. apply (sort_stable createdAt).
Qed.

(** The amounts of an order of the mock service against those the
    server's createOrder computes for the same items and channel: the same
    subtotal, no discount, the same service fee; a delivery fee of 590 where
    the server charges 500, so a total that is 90 more on delivery and the
    same otherwise. The mock writes both fees, 0 included; the server writes
    a fee of 0 as [undefined]: the service fee exactly when it is 0, the
    delivery fee exactly off delivery. The mock appends its order; the
    server, whose order the store refuses, stores nothing. *)
Theorem mock_amounts_against_server :
  forall (number created updated : Z) (orderData : OrderRepository.OrderData)
         (this : Service) (rid docId : string) (ts : Z) c,
    let its := OrderRepository.od_items orderData in
    let ch := OrderRepository.od_channel orderData in
    let server := OrderRepository.calc_amounts its ch in
    let after := snd (createOrder number created updated orderData this) in
    exists order,
    orders after = (orders this ++ [order])%list
    /\ snd (OrderRepository.createOrder rid docId number ts orderData c) = c
    /\ subtotal (amounts order) = subtotal server
    /\ subtotal (amounts order)
       = sum_of (fun item => qty item * (unitPrice item + sum_of opt_price (options item)))
           its
    /\ discounts (amounts order) = 0 /\ discounts server = 0
    /\ (exists f, service (fees (amounts order)) = Some f
                  /\ (service (fees server) = if f =? 0 then None else Some f))
    /\ fee_delivery (fees (amounts order))
       = Some (match ch with delivery => 590 | _ => 0 end)
    /\ fee_delivery (fees server) = match ch with delivery => Some 500 | _ => None end
    /\ total (amounts order)
       = total server + match ch with delivery => 90 | _ => 0 end.
Proof.
  intros number created updated orderData this rid docId ts c its ch server after.
  unfold after, createOrder. cbn [snd orders].
  eexists. split; [reflexivity|]. cbn [amounts].
  split; [apply createOrder_leaves|].
  assert (Hsub : fold_left
                   (fun sum item =>
                      sum + (unitPrice item
                             + fold_left (fun optSum opt => optSum + opt_price opt)
                                 (options item) 0) * qty item)
                   (OrderRepository.od_items orderData) 0
                 = subtotal server).
  { reflexivity. }
  rewrite Hsub.
  assert (Hsum : subtotal server
                 = sum_of (fun item =>
                             qty item * (unitPrice item + sum_of opt_price (options item)))
                     its).
  { apply calc_subtotal_sum. }
  unfold server, OrderRepository.calc_amounts in *.
  cbn [subtotal discounts fees total service fee_delivery] in *.
  fold its ch.
  split; [reflexivity|]. split; [exact Hsum|]. split; [reflexivity|].
  split; [reflexivity|].
  unfold OrderRepository.serviceFee, OrderRepository.deliveryFee.
  split.
  - eexists. split; [reflexivity|].
    unfold JS.or_undefined, JS.truthy.
    destruct ch; cbn [OrderChannel_eqb]; try reflexivity.
    destruct (_ =? 0); reflexivity.
  - destruct ch; cbn [OrderChannel_eqb]; repeat split; lia.
Qed.

End Mock.

(* ===================================================================== *)
(** * Placing the order of the cart                                       *)
(* ===================================================================== *)

Section PlaceOrder.

Lemma order_items_subtotal (lines : list Store.CartItem) :
  OrderRepository.calc_subtotal
    (map (fun item =>
            mkOrderItem (Store.productId item) (Store.name item) (Store.qty item)
              (Store.price item) (Store.options item) (Store.notes item))
       lines)
  = lines_total lines.
Proof.
  rewrite calc_subtotal_sum. unfold lines_total.
  induction lines as [|x r IH]; simpl; [reflexivity|].
  rewrite IH. unfold line_total. lia.
Qed.


End PlaceOrder.

(* ===================================================================== *)
(** * The life of a stored order                                          *)
(* ===================================================================== *)

Section OrderLife.
Import OrderRepository.

Lemma addPayment_stored (ts : Z) (orderId : string) (payment : Payment)
    (c : gmap string Order) (o : Order) :
  c !! orderId = Some o ->
  addPayment ts orderId payment c
  = (Ok tt,
     <[orderId := set_updatedAt ts
                    (merge (mkOrderUpdate None None None
                              (Some (default [] (payments o) ++ [payment])%list)) o)]> c).
Proof.
  intros H. unfold addPayment, try_catch, bind, findById, BaseRepository.findById.
  rewrite H. rewrite (update_stored _ _ _ _ _ H). reflexivity.
Qed.

Lemma addPayment_missing (ts : Z) (orderId : string) (payment : Payment)
    (c : gmap string Order) :
  c !! orderId = None ->
  addPayment ts orderId payment c
  = (Fail (Wrapped "Failed to add payment" (Thrown "Order not found")), c).
Proof.
  intros H. unfold addPayment, try_catch, bind, findById, BaseRepository.findById.
  rewrite H. reflexivity.
Qed.

(** cancel and updateStatus on an id under which no order is stored fail
    with the refusal of the store, wrapped as 'Failed to update document',
    and leave the collection as it was: no order is created. On a stored
    order cancel succeeds whatever the status of the order; it records the
    reason when one is given and is not empty, and otherwise keeps the
    reason the order had; the purchase (items, amounts, channel, payments)
    is left as it was. *)
Theorem cancel_reason_and_missing_order :
  forall (now ts : Z) (orderId : string) (reason : option string)
         (c : gmap string Order),
    (c !! orderId = None ->
     cancel now ts orderId reason c
     = (Fail (Wrapped "Failed to update document" NoSuchDocument), c)
     /\ forall st,
          updateStatus now ts orderId st c
          = (Fail (Wrapped "Failed to update document" NoSuchDocument), c))
    /\ (forall o, c !! orderId = Some o ->
        exists o',
          cancel now ts orderId reason c = (Ok tt, <[orderId := o']> c)
          /\ cancelReason o'
             = match reason with
               | Some r => if JS.nonempty r then Some r else cancelReason o
               | None => cancelReason o
               end
          /\ updatedAt o' = ts /\ createdAt o' = createdAt o
          /\ items o' = items o /\ amounts o' = amounts o
          /\ channel o' = channel o /\ payments o' = payments o
          /\ orderNumber o' = orderNumber o /\ customer o' = customer o).
Proof.
  intros now ts orderId reason c. split.
  - intros H. split; [|intros st]; apply update_missing; exact H.
  - intros o H. eexists. split.
    + unfold cancel. apply update_stored. exact H.
    + destruct reason as [r|]; [destruct (JS.nonempty r)|]; repeat split.
Qed.

Lemma well_kept_update (u : OrderUpdate) (ts : Z) (o : Order) :
  well_kept o ->
  (u_status u = Some closed -> u_closedAt u <> None) ->
  (forall r, u_cancelReason u = Some r -> r <> "" /\ u_closedAt u <> None) ->
  u_payments u <> Some [] ->
  well_kept (set_updatedAt ts (merge u o)).
Proof.
  intros (Hc & Hr & Hp) Hu1 Hu2 Hu3. unfold well_kept, set_updatedAt, merge.
  cbn [status closedAt cancelReason payments].
  split; [|split].
  - destruct (u_status u) as [st|]; simpl.
    + intros ->. destruct (u_closedAt u); [discriminate|]. exfalso.
      apply Hu1; reflexivity.
    + intros Hst. destruct (u_closedAt u); [discriminate|]. exact (Hc Hst).
  - intros r. destruct (u_cancelReason u) as [r'|].
    + intros [= ->]. destruct (Hu2 r eq_refl) as [H1 H2]. split; [exact H1|].
      destruct (u_closedAt u); [discriminate|contradiction].
    + intros Hr'. destruct (Hr r Hr') as [H1 H2]. split; [exact H1|].
      destruct (u_closedAt u); [discriminate|exact H2].
  - destruct (u_payments u); [exact Hu3|exact Hp].
Qed.

(** What a write leaves of a collection: the collection itself, or the
    collection with one stored order updated. *)
Lemma apply_write_cases (w : OrderWrite) (c : gmap string Order) :
  apply_write w c = c
  \/ exists oid o0 u ts,
       c !! oid = Some o0
       /\ apply_write w c = <[oid := set_updatedAt ts (merge u o0)]> c
       /\ (u_status u = Some closed -> u_closedAt u <> None)
       /\ (forall r, u_cancelReason u = Some r -> r <> "" /\ u_closedAt u <> None)
       /\ u_payments u <> Some [].
Proof.
  destruct w as [rid docId n ts od|now ts oid st|now ts oid reason|ts oid p];
    cbn [apply_write].
  - left. apply createOrder_leaves.
  - destruct (c !! oid) as [o0|] eqn:E.
    + right. exists oid, o0. eexists. exists ts. split; [exact E|]. split.
      * unfold updateStatus. rewrite (update_stored _ _ _ _ _ E). reflexivity.
      * destruct st; cbn; repeat split; intros; discriminate.
    + left. unfold updateStatus. rewrite (update_missing _ _ _ _ E). reflexivity.
  - destruct (c !! oid) as [o0|] eqn:E.
    + right. exists oid, o0. eexists. exists ts. split; [exact E|]. split.
      * unfold cancel. rewrite (update_stored _ _ _ _ _ E). reflexivity.
      * destruct reason as [r|]; [destruct (JS.nonempty r) eqn:En|]; cbn;
          repeat split; intros; try discriminate.
        simplify_eq. intros ->. discriminate.
    + left. unfold cancel. rewrite (update_missing _ _ _ _ E). reflexivity.
  - destruct (c !! oid) as [o0|] eqn:E.
    + right. exists oid, o0. eexists. exists ts. split; [exact E|]. split.
      * rewrite (addPayment_stored _ _ _ _ _ E). reflexivity.
      * cbn. repeat split; intros; try discriminate.
        intros [= H]. destruct (default [] (payments o0)); discriminate.
    + left. rewrite (addPayment_missing _ _ _ _ E). reflexivity.
Qed.

Lemma same_purchase_refl (o : Order) : same_purchase o o.
Proof. repeat split. Qed.

Lemma same_purchase_trans (o1 o2 o3 : Order) :
  same_purchase o1 o2 -> same_purchase o2 o3 -> same_purchase o1 o3.
Proof. unfold same_purchase. intuition congruence. Qed.

Lemma same_orders_refl (c : gmap string Order) : same_orders c c.
Proof. intros k. destruct (c !! k); [apply same_purchase_refl|exact I]. Qed.

Lemma same_orders_trans (c1 c2 c3 : gmap string Order) :
  same_orders c1 c2 -> same_orders c2 c3 -> same_orders c1 c3.
Proof.
  intros H12 H23 k. specialize (H12 k). specialize (H23 k).
  destruct (c1 !! k), (c2 !! k), (c3 !! k); try contradiction; try exact I.
  eapply same_purchase_trans; eassumption.
Qed.

Lemma well_kept_write (w : OrderWrite) (c : gmap string Order) :
  (forall k o, c !! k = Some o -> well_kept o) ->
  forall k o, apply_write w c !! k = Some o -> well_kept o.
Proof.
  intros Hc k o.
  destruct (apply_write_cases w c) as [->|(oid & o0 & u & ts & E & -> & H1 & H2 & H3)].
  - apply Hc.
  - destruct (decide (k = oid)) as [->|Hne].
    + rewrite lookup_insert_eq. intros [= <-].
      apply well_kept_update; [exact (Hc _ _ E)|exact H1|exact H2|exact H3].
    + rewrite lookup_insert_ne by congruence. apply Hc.
Qed.

Lemma same_orders_write (w : OrderWrite) (c : gmap string Order) :
  same_orders (apply_write w c) c.
Proof.
  destruct (apply_write_cases w c) as [->|(oid & o0 & u & ts & E & -> & _)].
  - apply same_orders_refl.
  - intros k. destruct (decide (k = oid)) as [->|Hne].
    + rewrite lookup_insert_eq, E. repeat split.
    + rewrite lookup_insert_ne by congruence.
      destruct (c !! k); [apply same_purchase_refl|exact I].
Qed.

(** Whatever sequence of createOrder, updateStatus, cancel and addPayment
    is applied to a collection, failed writes included, the collection
    holds the same orders afterwards, under the same ids: none is added,
    createOrder being refused, and none is removed; and each has the
    restaurant, table, items, channel, amounts, customer, order number and
    creation time it had. Where every order of the collection is such
    that, if its status is closed, it has a closing time, if it has a cancel
    reason, the reason is not empty and it has a closing time, and its
    list of payments, if stored, is not empty, every order is so
    afterwards. *)
Theorem stored_orders_well_kept :
  forall (writes : list OrderWrite) (c : gmap string Order),
    same_orders (orders_after writes c) c
    /\ ((forall k o, c !! k = Some o -> well_kept o) ->
        forall k o, orders_after writes c !! k = Some o -> well_kept o).
Proof.
  intros writes. unfold orders_after.
  induction writes as [|w r IH]; intros c; simpl.
  - split; [apply same_orders_refl|auto].
  - destruct (IH (apply_write w c)) as [Hs Hk]. split.
    + eapply same_orders_trans; [exact Hs|apply same_orders_write].
    + intros Hc. apply Hk. apply well_kept_write. exact Hc.
Qed.

End OrderLife.

(* ===================================================================== *)
(** * Products: search, categories, flags and the paginated response      *)
(* ===================================================================== *)

Section ProductReads.
Context {mapping : JS.CaseMapping}.

Lemma filter_sublist {A} (f : A -> bool) (l : list A) : sublist (List.filter f l) l.
Proof.
  induction l as [|x r IH]; simpl; [constructor|].
  destruct (f x); [apply sublist_skip|apply sublist_cons]; exact IH.
Qed.

(** search. The products returned are those of the collection, in its
    order, of which the name, the description or the category contains the
    term when the case of letters is ignored. The empty term returns every
    product. Whatever the product query's own filter finds on the
    collection (it reads name and description only), search finds too. *)
Theorem search_reads_three_fields :
  forall (db : Firestore Product) (term : string),
    let all := get db getCollection in
    (forall product,
        In product (Products.search db term) <->
        In product all
        /\ (contains_ci (product_name product) term
            \/ contains_ci (description product) term
            \/ contains_ci (category product) term))
    /\ sublist (Products.search db term) all
    /\ Products.search db "" = all
    /\ (forall product,
          In product (search_filter (Some term) all) ->
          In product (Products.search db term)).
Proof.
  intros db term all.
  assert (Hin : forall product,
             In product (Products.search db term) <->
             In product all
             /\ (contains_ci (product_name product) term
                 \/ contains_ci (description product) term
                 \/ contains_ci (category product) term)).
  { intros product. unfold Products.search, findAll. fold all. rewrite filter_In.
    unfold contains_ci. rewrite <- !includes_spec.
    rewrite !orb_true_iff. tauto. }
  split; [exact Hin|]. split; [|split].
  - unfold Products.search. apply filter_sublist.
  - unfold Products.search, findAll. fold all. apply filter_all.
    intros product. rewrite JS.toLowerCase_empty.
    rewrite includes_empty. reflexivity.
  - intros product. unfold search_filter, truthy_string.
    destruct (JS.nonempty term) eqn:En.
    + rewrite filter_In. unfold ProductRepository.matches.
      rewrite orb_true_iff, !includes_spec. intros [H1 H2]. apply Hin.
      split; [exact H1|]. unfold contains_ci. tauto.
    + intros H. destruct term; [|discriminate].
      apply Hin. split; [exact H|]. left. unfold contains_ci.
      apply includes_spec. rewrite JS.toLowerCase_empty. apply includes_empty.
Qed.

Lemma ascii_compare_trans (a b c : ascii) :
  Ascii.compare a b = Lt -> Ascii.compare b c = Lt -> Ascii.compare a c = Lt.
Proof.
  unfold Ascii.compare. rewrite !N.compare_lt_iff. lia.
Qed.

Lemma string_compare_trans (a b c : string) :
  String.compare a b = Lt -> String.compare b c = Lt -> String.compare a c = Lt.
Proof.
  revert b c. induction a as [|x a IH]; intros [|y b] [|z c]; simpl; try congruence.
  destruct (Ascii.compare x y) eqn:Exy; try discriminate;
    destruct (Ascii.compare y z) eqn:Eyz; try discriminate.
  - apply Ascii.compare_eq_iff in Exy, Eyz. subst.
    rewrite (proj2 (N.compare_eq_iff _ _) eq_refl : Ascii.compare z z = Eq).
    apply IH.
  - apply Ascii.compare_eq_iff in Exy. subst. rewrite Eyz. reflexivity.
  - apply Ascii.compare_eq_iff in Eyz. subst. rewrite Exy. reflexivity.
  - rewrite (ascii_compare_trans _ _ _ Exy Eyz). reflexivity.
Qed.

Lemma string_compare_refl (a : string) : String.compare a a = Eq.
Proof.
  induction a as [|x a IH]; simpl; [reflexivity|].
  rewrite (proj2 (N.compare_eq_iff _ _) eq_refl : Ascii.compare x x = Eq). exact IH.
Qed.

Lemma default_compare_lt (a b : string) :
  (default_compare a b <? 0) = true <-> String.compare a b = Lt.
Proof.
  unfold default_compare.
  destruct (String.compare a b); split; intros H;
    first [reflexivity | discriminate | (vm_compute in H; discriminate)].
Qed.

Lemma sort_insert_strict (x : string) (l : list string) :
  StronglySorted string_lt l -> ~ In x l ->
  StronglySorted string_lt (JS.sort_insert default_compare x l).
Proof.
  induction l as [|y r IH]; intros Hs Hx; simpl.
  - constructor; constructor.
  - apply StronglySorted_inv in Hs. destruct Hs as [Hr Hy].
    destruct (default_compare y x <? 0) eqn:E.
    + apply default_compare_lt in E.
      constructor; [apply IH; [exact Hr|]; intros H; apply Hx; right; exact H|].
      rewrite List.Forall_forall. intros z Hz.
      apply (Permutation_in _ (sort_insert_perm _ x r)) in Hz.
      destruct Hz as [<-|Hz]; [exact E|].
      rewrite List.Forall_forall in Hy. apply Hy. exact Hz.
    + assert (Hxy : string_lt x y).
      { unfold string_lt. destruct (String.compare x y) eqn:Exy; [| reflexivity |].
        - apply String.compare_eq_iff in Exy. subst. exfalso. apply Hx. left. reflexivity.
        - exfalso. rewrite String.compare_antisym in Exy.
          destruct (String.compare y x) eqn:Eyx; try discriminate.
          assert (H : (default_compare y x <? 0) = true)
            by (apply default_compare_lt; exact Eyx).
          congruence. }
      constructor; [constructor; assumption|].
      constructor; [exact Hxy|].
      rewrite List.Forall_forall in *. intros z Hz.
      exact (string_compare_trans _ _ _ Hxy (Hy z Hz)).
Qed.

Lemma sort_strict (l : list string) :
  List.NoDup l -> StronglySorted string_lt (JS.sort default_compare l).
Proof.
  induction l as [|x r IH]; intros Hnd; [constructor|].
  apply List.NoDup_cons_iff in Hnd. destruct Hnd as [Hx Hr].
  unfold JS.sort. cbn [fold_right]. apply sort_insert_strict.
  - apply IH. exact Hr.
  - intros H. apply Hx. exact (Permutation_in _ (sort_perm _ r) H).
Qed.

Lemma existsb_eqb_In (x : string) (l : list string) :
  existsb (String.eqb x) l = true <-> In x l.
Proof.
  rewrite existsb_exists. split.
  - intros (y & Hy & E). apply String.eqb_eq in E. subst. exact Hy.
  - intros H. exists x. split; [exact H|apply String.eqb_refl].
Qed.

Lemma Set_of_spec (values : list string) :
  List.NoDup (Set_of values) /\ forall x, In x (Set_of values) <-> In x values.
Proof.
  unfold Set_of.
  assert (H : forall seen,
             List.NoDup seen ->
             List.NoDup
               (fold_left
                  (fun seen x => if existsb (String.eqb x) seen then seen
                                 else (seen ++ [x])%list) values seen)
             /\ forall x,
                  In x (fold_left
                          (fun seen x => if existsb (String.eqb x) seen then seen
                                         else (seen ++ [x])%list) values seen)
                  <-> In x seen \/ In x values).
  { induction values as [|v r IH]; intros seen Hnd; simpl.
    - split; [exact Hnd|]. intros x. tauto.
    - destruct (existsb (String.eqb v) seen) eqn:E.
      + destruct (IH seen Hnd) as [H1 H2]. split; [exact H1|].
        intros x. rewrite H2. apply existsb_eqb_In in E.
        split; [tauto|]. intros [H|[<-|H]]; tauto.
      + assert (Hv : ~ In v seen).
        { intros H. apply existsb_eqb_In in H. congruence. }
        assert (Hnd' : List.NoDup (seen ++ [v])).
        { apply Permutation_NoDup with (l := v :: seen);
            [apply Permutation_cons_append|constructor; assumption]. }
        destruct (IH _ Hnd') as [H1 H2]. split; [exact H1|].
        intros x. rewrite H2, in_app_iff. simpl. tauto. }
  destruct (H [] (List.NoDup_nil _)) as [H1 H2]. split; [exact H1|].
  intros x. rewrite H2. simpl. tauto.
Qed.

(** getCategories returns the categories of the products of the
    collection, each once, in ascending order. *)
Theorem getCategories_sorted_distinct :
  forall (db : Firestore Product),
    StronglySorted string_lt (Products.getCategories db)
    /\ List.NoDup (Products.getCategories db)
    /\ (forall c,
          In c (Products.getCategories db) <->
          exists product, In product (get db getCollection) /\ category product = c).
Proof.
  intros db. unfold Products.getCategories, findAll.
  set (all := get db getCollection).
  destruct (Set_of_spec (map category all)) as [Hnd Hin].
  split; [apply sort_strict; exact Hnd|]. split.
  - apply Permutation_NoDup with (l := Set_of (map category all)); [|exact Hnd].
    symmetry. apply sort_perm.
  - intros c. split.
    + intros H. apply (Permutation_in _ (sort_perm _ _)) in H.
      apply Hin in H. apply in_map_iff in H. destruct H as (p & Hp & Hi).
      exists p. split; assumption.
    + intros (p & Hi & Hp).
      apply (Permutation_in _ (Permutation_sym (sort_perm _ _))).
      apply Hin. apply in_map_iff. exists p. split; assumption.
Qed.

End ProductReads.

Section ProductWrites.
Import Products.

Lemma toggle_update_stored (ts : Z) (productId : string) (f : ProductDoc -> ProductDoc)
    (c : gmap string ProductDoc) (p : ProductDoc) :
  c !! productId = Some p ->
  update ts productId f c = (Ok tt, <[productId := set_updatedAt ts (f p)]> c).
Proof.
  intros H. unfold update, BaseRepository.update, try_catch. rewrite H. reflexivity.
Qed.

Lemma toggleHighlight_stored (ts : Z) (productId : string)
    (c : gmap string ProductDoc) (p : ProductDoc) :
  c !! productId = Some p ->
  toggleHighlight ts productId c
  = (Ok tt,
     <[productId := mkProductDoc (fields p) (Some (not_flag (isHighlighted p)))
                      (isDaySpecial p) ts]> c).
Proof.
  intros H. unfold toggleHighlight, try_catch, bind, findById, BaseRepository.findById.
  rewrite H. rewrite (toggle_update_stored _ _ _ _ _ H). reflexivity.
Qed.

Lemma toggleDaySpecial_stored (ts : Z) (productId : string)
    (c : gmap string ProductDoc) (p : ProductDoc) :
  c !! productId = Some p ->
  toggleDaySpecial ts productId c
  = (Ok tt,
     <[productId := mkProductDoc (fields p) (isHighlighted p)
                      (Some (not_flag (isDaySpecial p))) ts]> c).
Proof.
  intros H. unfold toggleDaySpecial, try_catch, bind, findById, BaseRepository.findById.
  rewrite H. rewrite (toggle_update_stored _ _ _ _ _ H). reflexivity.
Qed.

(** toggleHighlight and toggleDaySpecial. On an id under which no product
    is stored each fails with 'Product not found', wrapped in its own
    message, and writes nothing. On a stored product each stores the
    negation of its flag, an absent flag counting as false, and the time of
    the write, and leaves the other flag, the other properties and the other
    products; toggling twice gives back the flag, false for a flag that was
    absent; and the two toggles leave the same collection in either
    order. *)
Theorem toggleHighlight_twice :
  forall (ts ts2 : Z) (productId : string) (c : gmap string ProductDoc),
    (c !! productId = None ->
     toggleHighlight ts productId c
     = (Fail (Wrapped "Failed to toggle product highlight" (Thrown "Product not found")),
        c)
     /\ toggleDaySpecial ts productId c
        = (Fail (Wrapped "Failed to toggle day special" (Thrown "Product not found")), c))
    /\ (forall p, c !! productId = Some p ->
        toggleHighlight ts productId c
        = (Ok tt,
           <[productId := mkProductDoc (fields p)
                            (Some (negb (default false (isHighlighted p))))
                            (isDaySpecial p) ts]> c)
        /\ toggleDaySpecial ts productId c
           = (Ok tt,
              <[productId := mkProductDoc (fields p) (isHighlighted p)
                               (Some (negb (default false (isDaySpecial p)))) ts]> c)
        /\ snd (toggleHighlight ts2 productId (snd (toggleHighlight ts productId c)))
           = <[productId := mkProductDoc (fields p)
                              (Some (default false (isHighlighted p)))
                              (isDaySpecial p) ts2]> c
        /\ snd (toggleDaySpecial ts2 productId (snd (toggleDaySpecial ts productId c)))
           = <[productId := mkProductDoc (fields p) (isHighlighted p)
                              (Some (default false (isDaySpecial p))) ts2]> c
        /\ snd (toggleDaySpecial ts2 productId (snd (toggleHighlight ts productId c)))
           = snd (toggleHighlight ts2 productId (snd (toggleDaySpecial ts productId c)))).
Proof.
  intros ts ts2 productId c. split.
  - intros H. unfold toggleHighlight, toggleDaySpecial, try_catch, bind, findById,
      BaseRepository.findById. rewrite H. split; reflexivity.
  - intros p H.
    split; [exact (toggleHighlight_stored ts productId c p H)|].
    split; [exact (toggleDaySpecial_stored ts productId c p H)|].
    rewrite (toggleHighlight_stored ts productId c p H).
    rewrite (toggleDaySpecial_stored ts productId c p H). cbn [snd].
    rewrite (toggleHighlight_stored ts2 productId _ _ (lookup_insert_eq _ _ _)).
    rewrite (toggleDaySpecial_stored ts2 productId _ _ (lookup_insert_eq _ _ _)).
    rewrite (toggleDaySpecial_stored ts2 productId _ _ (lookup_insert_eq _ _ _)).
    rewrite (toggleHighlight_stored ts2 productId _ _ (lookup_insert_eq _ _ _)).
    cbn [snd fields isHighlighted isDaySpecial]. rewrite !insert_insert_eq.
    unfold not_flag.
    destruct (isHighlighted p) as [[]|]; destruct (isDaySpecial p) as [[]|];
      (split; [reflexivity|]; split; reflexivity).
Qed.

End ProductWrites.

Section PaginatedResponse.
Context {mapping : JS.CaseMapping}.
Import ErrorHandler ProductController.

Lemma below_ceil_div (p t l : Z) :
  0 < l -> (p <? ceil_div t l) = (p * l <? t).
Proof.
  intros Hl. unfold ceil_div.
  pose proof (Z.div_mod (t + l - 1) l ltac:(lia)) as Hdm.
  pose proof (Z.mod_pos_bound (t + l - 1) l Hl) as Hr.
  set (q := (t + l - 1) / l) in *.
  destruct (Z.ltb_spec p q) as [H|H]; destruct (Z.ltb_spec (p * l) t) as [H'|H'];
    try reflexivity; exfalso.
  - assert (l * (p + 1) <= l * q) by (apply Z.mul_le_mono_nonneg_l; lia). lia.
  - assert (l * q <= l * p) by (apply Z.mul_le_mono_nonneg_l; lia). lia.
Qed.

(** getAllProducts. For a page from 1, a limit from 1 to 100 and a count
    below 2^50, the pagination of the response carries the page, the limit,
    the count of the store as total and its exact ceiling by the limit as
    totalPages; hasNext holds exactly when page * limit is less than the
    total, that is when products lie beyond the page, and hasPrev exactly
    when the page is not the first. When the store answers a limited query
    with the first documents of the unlimited one and counts those, and no
    search term is given, a page that has a next page is full. *)
Theorem getAllProducts_pagination :
  forall (db : Firestore Product) (queryParams : ProductRepository.ProductQueryInput),
    let p := page (ProductRepository.pq_paging queryParams) in
    let lim := page_limit (ProductRepository.pq_paging queryParams) in
    let q := ProductRepository.compile_query queryParams in
    let response := getAllProducts db queryParams in
    1 <= p -> 1 <= lim <= 100 -> 0 <= count db q < 2 ^ 50 ->
    pg_page (snd response) = p
    /\ pg_limit (snd response) = lim
    /\ pg_total (snd response) = count db q
    /\ pg_totalPages (snd response) = ceil_div (count db q) lim
    /\ (hasNext (snd response) = true <-> p * lim < count db q)
    /\ (hasPrev (snd response) = true <-> 1 < p)
    /\ fst response = page_docs (ProductRepository.findWithQuery db queryParams)
    /\ ((forall n, 0 <= n -> get db (limit n q) = take (Z.to_nat n) (get db q)) ->
        count db q = Z.of_nat (length (get db q)) ->
        ProductRepository.pq_search queryParams = None ->
        (length (fst response) <= Z.to_nat lim)%nat
        /\ (hasNext (snd response) = true -> length (fst response) = Z.to_nat lim)).
Proof.
  intros db queryParams p lim q response Hp Hl Ht.
  assert (Hr : response
               = (page_docs (ProductRepository.findWithQuery db queryParams),
                  mkPaginationInfo p lim (count db q)
                    (JS.Math_ceil (JS.div (JS.of_int (count db q)) (JS.of_int lim)))
                    (p <? JS.Math_ceil (JS.div (JS.of_int (count db q)) (JS.of_int lim)))
                    (p >? 1))).
  { unfold response, getAllProducts, paginatedResponse, ProductRepository.findWithQuery.
    fold p lim q. destruct ((p - 1) * lim >? 0); reflexivity. }
  rewrite Hr. cbn [fst snd pg_page pg_limit pg_total pg_totalPages hasNext hasPrev].
  rewrite (Math_ceil_pages _ _ Ht Hl).
  split; [reflexivity|]. split; [reflexivity|]. split; [reflexivity|].
  split; [reflexivity|]. split; [|split; [|split; [reflexivity|]]].
  - rewrite below_ceil_div by lia. apply Z.ltb_lt.
  - rewrite Z.gtb_ltb. apply Z.ltb_lt.
  - intros Hstore Hcount Hsearch.
    assert (Hdocs : page_docs (ProductRepository.findWithQuery db queryParams)
                    = take (Z.to_nat lim) (drop (Z.to_nat ((p - 1) * lim)) (get db q))).
    { unfold ProductRepository.findWithQuery. fold p lim q. rewrite Hsearch.
      cbn [truthy_string].
      assert (Hoff : 0 <= (p - 1) * lim) by (apply Z.mul_nonneg_nonneg; lia).
      destruct (Z.gtb_spec ((p - 1) * lim) 0) as [Hpos|Hzero]; cbn [page_docs].
      - unfold slice. rewrite Hstore by lia.
        rewrite Z2Nat.inj_add by lia. rewrite take_drop_commute. reflexivity.
      - assert (E : (p - 1) * lim = 0) by lia. rewrite E.
        change (Z.to_nat 0) with 0%nat. rewrite drop_0. apply Hstore. lia. }
    rewrite Hdocs. split.
    + rewrite length_take. lia.
    + rewrite below_ceil_div by lia. intros Hnext. apply Z.ltb_lt in Hnext.
      rewrite length_take, length_drop.
      assert (Hoff : 0 <= (p - 1) * lim) by (apply Z.mul_nonneg_nonneg; lia).
      assert (Hlen : (Z.to_nat ((p - 1) * lim) + Z.to_nat lim
                      <= length (get db q))%nat).
      { apply Nat2Z.inj_le. rewrite Nat2Z.inj_add, !Z2Nat.id by lia. lia. }
      lia.
Qed.

End PaginatedResponse.

(* ===================================================================== *)
(** * Error responses                                                     *)
(* ===================================================================== *)

Section ErrorResponses.
Import ErrorHandler.

(** errorHandler decides in a fixed order. A ZodError is answered 400
    VALIDATION_ERROR. Any other error whose message contains 'Firebase',
    an AppError included, is answered DATABASE_ERROR, with status 404
    exactly when the message also contains 'not found' and 500 otherwise.
    An AppError is otherwise answered with its own status, code and
    message. In production the message of an error that is not an AppError
    never reaches the client: the message sent is one of the fixed texts of
    the handler. The stack is sent only by the last case and only in
    development. *)
Theorem errorHandler_precedence :
  forall (isProduction isDevelopment : bool) (error : JsError),
    let response := errorHandler isProduction isDevelopment error in
    (is_ZodError error = true ->
     status response = 400 /\ error_code response = Some "VALIDATION_ERROR")
    /\ (is_ZodError error = false ->
        JS.includes (message error) "Firebase" = true ->
        error_code response = Some "DATABASE_ERROR"
        /\ status response
           = (if JS.includes (message error) "not found" then 404 else 500)
        /\ (isProduction = true ->
            error_message response = "Database operation failed"))
    /\ (is_ZodError error = false ->
        JS.includes (message error) "Firebase" = false ->
        is_AppError error = true ->
        forall n, statusCode error = Some n ->
        status response = n
        /\ error_message response = message error
        /\ error_code response = code error)
    /\ (isProduction = true -> is_AppError error = false ->
        In (error_message response)
          ["Validation failed"; "Database operation failed"; "Invalid ID format";
           "Invalid token"; "Token expired"; "File too large"; "Too many files";
           "Unexpected file field"; "File upload error"; "Internal server error"])
    /\ (with_stack response = true ->
        isDevelopment = true /\ error_code response = Some "INTERNAL_SERVER_ERROR")
    /\ (In (status response) [400; 401; 404; 500]
        \/ Some (status response) = statusCode error).
Proof.
  intros isProduction isDevelopment error response.
  unfold response, errorHandler.
  destruct (is_ZodError error) eqn:Ez;
    [|destruct (JS.includes (message error) "Firebase") eqn:Ef;
      [destruct (JS.includes (message error) "not found")
      |destruct (is_AppError error) eqn:Ea;
       [destruct (statusCode error) as [n|] eqn:Es
       |destruct (String.eqb (name error) "CastError");
        [|destruct (String.eqb (name error) "JsonWebTokenError");
         [|destruct (String.eqb (name error) "TokenExpiredError");
          [|destruct (String.eqb (name error) "MulterError");
           [destruct (code error) as [k|];
            [destruct (String.eqb k "LIMIT_FILE_SIZE");
             [|destruct (String.eqb k "LIMIT_FILE_COUNT");
              [|destruct (String.eqb k "LIMIT_UNEXPECTED_FILE")]]|]
           |destruct (statusCode error) as [n|] eqn:Es;
            [destruct (JS.truthy n)|]]]]]]]];
    destruct isProduction; destruct isDevelopment.
  all: try (cbn [status error_code error_message with_stack default];
            repeat match goal with
                   | |- _ /\ _ => split
                   end;
            intros;
            try discriminate; try congruence;
            try (split; [|split]; congruence);
            try (split; reflexivity);
            try (cbn; auto 20; fail);
            try (left; cbn; auto 20; fail);
            try (right; reflexivity)).
  all: injection H2 as <-; repeat split.
Qed.


(** The answers of the product controller for an id under which no
    product is stored differ by endpoint. getProductById looks the product
    up and answers 404 NOT_FOUND 'Product not found'. The toggles leave the
    check to the repository, whose error is a plain Error: they answer 500
    INTERNAL_SERVER_ERROR, with the message of the repository outside
    production. Neither writes anything. On a stored product the toggle
    answers 200 with the product as stored after the write. *)
Theorem missing_product_status :
  forall (refusal : string) (refusal_of_undefined : string -> string)
         (isProduction isDevelopment : bool) (ts : Z)
         (productId : string) (c : gmap string Products.ProductDoc),
    (c !! productId = None ->
     ProductController.getProductById refusal refusal_of_undefined
       isProduction isDevelopment productId c
     = (ProductController.Failure
          (mkErrorResponse 404 "Product not found" (Some "NOT_FOUND") false false), c)
     /\ ProductController.toggleHighlight refusal refusal_of_undefined
          isProduction isDevelopment ts productId c
        = (ProductController.Failure
             (mkErrorResponse 500
                (if isProduction then "Internal server error"
                 else "Failed to toggle product highlight: Error: Product not found")
                (Some "INTERNAL_SERVER_ERROR") false isDevelopment), c)
     /\ ProductController.toggleDaySpecial refusal refusal_of_undefined
          isProduction isDevelopment ts productId c
        = (ProductController.Failure
             (mkErrorResponse 500
                (if isProduction then "Internal server error"
                 else "Failed to toggle day special: Error: Product not found")
                (Some "INTERNAL_SERVER_ERROR") false isDevelopment), c))
    /\ (forall p, c !! productId = Some p ->
        ProductController.getProductById refusal refusal_of_undefined
          isProduction isDevelopment productId c
        = (ProductController.Success 200 (Some p) "Product retrieved successfully", c)
        /\ ProductController.toggleHighlight refusal refusal_of_undefined
             isProduction isDevelopment ts productId c
           = (ProductController.Success 200
                (Some (Products.mkProductDoc (Products.fields p)
                         (Some (negb (default false (Products.isHighlighted p))))
                         (Products.isDaySpecial p) ts))
                "Product highlight toggled successfully",
              <[productId := Products.mkProductDoc (Products.fields p)
                               (Some (negb (default false (Products.isHighlighted p))))
                               (Products.isDaySpecial p) ts]> c)).
Proof.
  intros refusal refusal_of_undefined
         isProduction isDevelopment ts productId c. split.
  - intros H.
    unfold ProductController.getProductById, ProductController.toggleHighlight,
      ProductController.toggleDaySpecial, ProductController.asyncHandler,
      ProductController.await, Products.toggleHighlight, Products.toggleDaySpecial,
      Products.findById, BaseRepository.findById, try_catch, bind.
    rewrite H. cbn. destruct isProduction; repeat split.
  - intros p H. split.
    + unfold ProductController.getProductById, ProductController.asyncHandler,
        ProductController.await, Products.findById, BaseRepository.findById.
      rewrite H. reflexivity.
    + unfold ProductController.toggleHighlight, ProductController.asyncHandler,
        ProductController.await.
      rewrite (toggleHighlight_stored ts productId c p H).
      unfold Products.findById, BaseRepository.findById.
      rewrite lookup_insert_eq. reflexivity.
Qed.

End ErrorResponses.

(* ===================================================================== *)
(** * The options chosen for a product                                    *)
(* ===================================================================== *)

Section ChosenOptions.
Import ProductCard.

Lemma NoDup_filter_map {A B} (g : A -> B) (f : A -> bool) (l : list A) :
  List.NoDup (map g l) -> List.NoDup (map g (List.filter f l)).
Proof.
  induction l as [|x r IH]; simpl; intros H; [constructor|].
  apply List.NoDup_cons_iff in H. destruct H as [Hx Hr].
  destruct (f x); simpl; [|exact (IH Hr)].
  constructor; [|exact (IH Hr)]. intros Hin. apply Hx.
  apply in_map_iff in Hin. destruct Hin as (y & Hy & Hin).
  apply filter_In in Hin. apply in_map_iff. exists y. tauto.
Qed.

Lemma find_none_filter (optionId : string) (prev : list SelectedOption) :
  find (fun opt => String.eqb (opt_id opt) optionId) prev = None ->
  ~ In optionId (map opt_id prev).
Proof.
  intros H Hin. apply in_map_iff in Hin. destruct Hin as (o & Ho & Hin).
  apply (find_none _ _ H) in Hin. rewrite Ho, String.eqb_refl in Hin. discriminate.
Qed.

Lemma others_without (optionId : string) (prev : list SelectedOption) :
  ~ In optionId
      (map opt_id
         (List.filter (fun opt => negb (String.eqb (opt_id opt) optionId)) prev)).
Proof.
  intros Hin. apply in_map_iff in Hin. destruct Hin as (o & Ho & Hin).
  apply filter_In in Hin. destruct Hin as [_ Hf].
  rewrite Ho, String.eqb_refl in Hf. discriminate.
Qed.

(** handleOptionChange keeps at most one choice per option: a selection
    without two choices of one option stays so, and so it does when a box is
    unchecked. The choices of the other options are kept. For an option the
    product does not have nothing changes. For an option with maxSelections
    1 the choice made replaces whatever was chosen for it. For any other
    option the choice is added when nothing is chosen for the option, and
    otherwise what is chosen for the option is removed and the choice is not
    added, whichever choice it is. The id of the choice is not read. *)
Theorem handleOptionChange_one_choice_per_option :
  forall (options : option (list ProductOption))
         (optionId choiceId choiceName : string) (price : Z)
         (prev : list SelectedOption),
    let next := handleOptionChange options optionId choiceId choiceName price prev in
    let of_option := fun opt : SelectedOption => String.eqb (opt_id opt) optionId in
    (List.NoDup (map opt_id prev) -> List.NoDup (map opt_id next))
    /\ (List.NoDup (map opt_id prev) ->
        List.NoDup (map opt_id (uncheck optionId choiceName prev)))
    /\ List.filter (fun opt => negb (of_option opt)) next
       = List.filter (fun opt => negb (of_option opt)) prev
    /\ (find (fun opt => String.eqb (option_id opt) optionId) (default [] options) = None ->
        next = prev)
    /\ (forall o,
          find (fun opt => String.eqb (option_id opt) optionId) (default [] options)
          = Some o ->
          let chosen := mkSelectedOption optionId (option_name o) choiceName price in
          (maxSelections o = Some 1 -> List.filter of_option next = [chosen])
          /\ (maxSelections o <> Some 1 ->
              List.filter of_option prev = [] -> next = (prev ++ [chosen])%list)
          /\ (maxSelections o <> Some 1 ->
              List.filter of_option prev <> [] -> List.filter of_option next = []))
    /\ (forall otherChoice,
          handleOptionChange options optionId otherChoice choiceName price prev = next).
Proof.
  intros options optionId choiceId choiceName price prev next of_option.
  assert (Hothers : forall l,
             List.filter of_option
               (List.filter (fun opt => negb (of_option opt)) l) = []).
  { intros l. induction l as [|x r IH]; simpl; [reflexivity|].
    destruct (of_option x) eqn:E; simpl; [exact IH|]. rewrite E. exact IH. }
  assert (Hkeep : forall l,
             List.filter (fun opt => negb (of_option opt))
               (List.filter (fun opt => negb (of_option opt)) l)
             = List.filter (fun opt => negb (of_option opt)) l).
  { intros l. induction l as [|x r IH]; simpl; [reflexivity|].
    destruct (of_option x) eqn:E; simpl; [exact IH|]. rewrite E. simpl.
    rewrite IH. reflexivity. }
  assert (Hfind : forall l,
             find of_option l = None <-> List.filter of_option l = []).
  { intros l. induction l as [|x r IH]; simpl; [tauto|].
    destruct (of_option x); [split; discriminate|exact IH]. }
  assert (Hchosen : forall nm, of_option (mkSelectedOption optionId nm choiceName price)
                               = true).
  { intros nm. unfold of_option. simpl. apply String.eqb_refl. }
  destruct (find (fun opt => String.eqb (option_id opt) optionId) (default [] options))
    as [o|] eqn:Eopt.
  - set (chosen := mkSelectedOption optionId (option_name o) choiceName price).
    set (others := List.filter (fun opt => negb (of_option opt)) prev).
    assert (Hradio : List.NoDup (map opt_id prev) ->
                     List.NoDup (map opt_id (others ++ [chosen])%list)).
    { intros Hnd. rewrite map_app. simpl.
      apply Permutation_NoDup with (l := optionId :: map opt_id others);
        [apply Permutation_cons_append|].
      constructor; [apply others_without|]. apply NoDup_filter_map. exact Hnd. }
    assert (Hadd : List.NoDup (map opt_id prev) -> find of_option prev = None ->
                   List.NoDup (map opt_id (prev ++ [chosen])%list)).
    { intros Hnd Hnone. rewrite map_app. simpl.
      apply Permutation_NoDup with (l := optionId :: map opt_id prev);
        [apply Permutation_cons_append|].
      constructor; [apply find_none_filter; exact Hnone|exact Hnd]. }
    assert (Hnext :
              next
              = if decide (maxSelections o = Some 1) then (others ++ [chosen])%list
                else match find of_option prev with
                     | Some _ => others
                     | None => (prev ++ [chosen])%list
                     end).
    { unfold next, handleOptionChange. rewrite Eopt.
      destruct (maxSelections o) as [[|[]|]|]; reflexivity. }
    assert (Hany : forall otherChoice,
               handleOptionChange options optionId otherChoice choiceName price prev
               = next).
    { intros otherChoice. unfold next, handleOptionChange. rewrite Eopt. reflexivity. }
    clearbody next. subst next.
    assert (Hc : of_option chosen = true) by apply Hchosen.
    split; [|split; [|split; [|split; [|split]]]].
    + intros Hnd. destruct (decide (maxSelections o = Some 1)); [exact (Hradio Hnd)|].
      destruct (find of_option prev) eqn:Ee;
        [apply NoDup_filter_map; exact Hnd|exact (Hadd Hnd eq_refl)].
    + intros Hnd. apply NoDup_filter_map. exact Hnd.
    + assert (H1 : List.filter (fun opt => negb (of_option opt)) (others ++ [chosen])%list
                   = others).
      { rewrite List.filter_app. simpl. rewrite Hc. simpl.
        rewrite app_nil_r. apply Hkeep. }
      assert (H2 : List.filter (fun opt => negb (of_option opt)) (prev ++ [chosen])%list
                   = others).
      { rewrite List.filter_app. simpl. rewrite Hc. simpl.
        rewrite app_nil_r. reflexivity. }
      destruct (decide (maxSelections o = Some 1)); [exact H1|].
      destruct (find of_option prev); [apply Hkeep|exact H2].
    + discriminate.
    + intros o' [= <-]. cbn zeta. fold chosen.
      split; [|split].
      * intros Hmax. destruct (decide (maxSelections o = Some 1)); [|contradiction].
        rewrite List.filter_app. simpl. rewrite Hc.
        unfold others. rewrite Hothers. reflexivity.
      * intros Hmax Hnone. apply Hfind in Hnone. rewrite Hnone.
        destruct (decide (maxSelections o = Some 1)); [contradiction|reflexivity].
      * intros Hmax Hsome.
        destruct (decide (maxSelections o = Some 1)); [contradiction|].
        destruct (find of_option prev) eqn:Ee;
          [apply Hothers|exfalso; apply Hsome; apply Hfind; exact Ee].
    + exact Hany.
  - assert (Hnext : next = prev).
    { unfold next, handleOptionChange. rewrite Eopt. reflexivity. }
    assert (Hany : forall otherChoice,
               handleOptionChange options optionId otherChoice choiceName price prev
               = next).
    { intros otherChoice. unfold next, handleOptionChange. rewrite Eopt. reflexivity. }
    clearbody next. subst next.
    split; [|split; [|split; [|split; [|split]]]]; try tauto.
    + intros Hnd. apply NoDup_filter_map. exact Hnd.
    + discriminate.
Qed.

End ChosenOptions.

(* ===================================================================== *)
(** * The sections of the menu                                            *)
(* ===================================================================== *)

Section MenuSections.
Context {mapping : JS.CaseMapping}.
Import MenuList.

Lemma in_category_sections (products filtered : list MenuProduct) (p : MenuProduct) :
  In p (concat (map snd (categorySections products filtered))) <->
  In p (regularProducts filtered)
  /\ category (info p) <> "all"
  /\ In (category (info p)) (map (fun q => category (info q)) products).
Proof.
  unfold categorySections. rewrite in_concat. split.
  - intros (l & Hl & Hp). apply in_map_iff in Hl. destruct Hl as ([c l'] & <- & Hs).
    apply filter_In in Hs. destruct Hs as [Hs _]. apply in_map_iff in Hs.
    destruct Hs as (c' & [= <- <-] & Hc). simpl in Hp.
    apply filter_In in Hp. destruct Hp as [Hp Hcat].
    apply String.eqb_eq in Hcat. apply filter_In in Hc. destruct Hc as [Hc Hall].
    split; [exact Hp|]. rewrite Hcat. split.
    + intros ->. discriminate.
    + unfold categories in Hc. destruct Hc as [<-|Hc]; [discriminate|].
      apply Set_of_spec. exact Hc.
  - intros (Hp & Hall & Hc).
    set (c := category (info p)) in *.
    exists (List.filter (fun q => String.eqb (category (info q)) c)
              (regularProducts filtered)).
    assert (Hin : In p (List.filter (fun q => String.eqb (category (info q)) c)
                          (regularProducts filtered))).
    { apply filter_In. split; [exact Hp|]. apply String.eqb_refl. }
    split; [|exact Hin].
    apply in_map_iff.
    exists (c, List.filter (fun q => String.eqb (category (info q)) c)
                 (regularProducts filtered)).
    split; [reflexivity|]. apply filter_In. split.
    + apply in_map_iff. exists c. split; [reflexivity|].
      apply filter_In. split.
      * unfold categories. right. apply Set_of_spec. exact Hc.
      * destruct (String.eqb_spec c "all"); [contradiction|reflexivity].
    + simpl. destruct (List.filter _ (regularProducts filtered)); [destruct Hin|].
      reflexivity.
Qed.

(** The menu shows only products that pass the search and the category
    chosen, and it shows every such product that is highlighted, a day
    special, or of a category other than the text 'all'; a product that is
    neither highlighted nor a day special and whose category is 'all'
    passes the filter and is shown in no section. The search reads name and
    description, whatever the case of letters; with no search term and the
    category 'all' every product passes. A product shown among the
    highlights or the day specials is in no section by category. *)
Theorem menu_sections_cover :
  forall (products : list MenuProduct) (searchTerm selectedCategory : string),
    let filtered := filteredProducts products searchTerm selectedCategory in
    let all := shown products searchTerm selectedCategory in
    (forall p, In p all -> In p filtered)
    /\ (forall p, In p filtered ->
          default false (isHighlighted p) = true
          \/ default false (isDaySpecial p) = true
          \/ category (info p) <> "all" ->
          In p all)
    /\ (forall p, In p filtered ->
          default false (isHighlighted p) = false ->
          default false (isDaySpecial p) = false ->
          category (info p) = "all" -> ~ In p all)
    /\ (forall p, In p filtered <->
          In p products
          /\ (contains_ci (product_name (info p)) searchTerm
              \/ contains_ci (description (info p)) searchTerm)
          /\ (selectedCategory = "all" \/ category (info p) = selectedCategory))
    /\ filteredProducts products "" "all" = products
    /\ (forall p, In p (concat (map snd (categorySections products filtered))) ->
          ~ In p (highlightedProducts filtered) /\ ~ In p (daySpecials filtered)).
Proof.
  intros products searchTerm selectedCategory filtered all.
  assert (Hsub : forall p, In p filtered -> In p products).
  { intros p H. apply filter_In in H. tauto. }
  assert (Hreg : forall p, In p (regularProducts filtered) <->
                           In p filtered
                           /\ default false (isHighlighted p) = false
                           /\ default false (isDaySpecial p) = false).
  { intros p. unfold regularProducts. rewrite filter_In, andb_true_iff, !negb_true_iff.
    tauto. }
  assert (Hall : forall p, In p all <->
                   In p (highlightedProducts filtered)
                   \/ In p (daySpecials filtered)
                   \/ In p (concat (map snd (categorySections products filtered)))).
  { intros p. unfold all, shown. fold filtered. rewrite !in_app_iff. tauto. }
  split; [|split; [|split; [|split; [|split]]]].
  - intros p Hp. apply Hall in Hp. destruct Hp as [Hp|[Hp|Hp]].
    + apply filter_In in Hp. tauto.
    + apply filter_In in Hp. tauto.
    + apply in_category_sections in Hp. destruct Hp as (Hp & _). apply Hreg in Hp. tauto.
  - intros p Hp Hcase. apply Hall.
    destruct (default false (isHighlighted p)) eqn:Eh.
    { left. apply filter_In. split; [exact Hp|exact Eh]. }
    destruct (default false (isDaySpecial p)) eqn:Es.
    { right. left. apply filter_In. split; [exact Hp|exact Es]. }
    right. right. apply in_category_sections. split; [apply Hreg; tauto|].
    split; [destruct Hcase as [H|[H|H]]; [discriminate|discriminate|exact H]|].
    apply in_map_iff. exists p. split; [reflexivity|exact (Hsub p Hp)].
  - intros p Hp Eh Es Hcat Hin. apply Hall in Hin. destruct Hin as [Hin|[Hin|Hin]].
    + apply filter_In in Hin. destruct Hin as [_ Hin]. congruence.
    + apply filter_In in Hin. destruct Hin as [_ Hin]. congruence.
    + apply in_category_sections in Hin. tauto.
  - intros p. unfold filtered, filteredProducts. rewrite filter_In.
    cbn zeta. rewrite andb_true_iff, !orb_true_iff, !includes_spec, !String.eqb_eq.
    unfold contains_ci. tauto.
  - unfold filteredProducts. apply filter_all. intros p. cbn zeta.
    rewrite JS.toLowerCase_empty, !includes_empty. reflexivity.
  - intros p Hp. apply in_category_sections in Hp. destruct Hp as (Hp & _).
    apply Hreg in Hp. destruct Hp as (_ & Eh & Es). split; intros Hin;
      apply filter_In in Hin; destruct Hin as [_ Hin]; congruence.
Qed.

End MenuSections.

(* ===================================================================== *)
(** * The statements with hypotheses, on the sample data                  *)
(* ===================================================================== *)

(** The mappings of case on the ASCII texts of the sample data. *)
#[local] Existing Instance JS.ascii_case.

(** Page 3 of 20 over the forty-five sample orders: positions 41 to 45. *)
Lemma findWithQuery_pagination_witness :
  let db := list_store sample_orders in
  let r := OrderRepository.findWithQuery db (sample_order_query 3 20) in
  page_total r = 45
  /\ currentPage r = 3
  /\ totalPages r = 3
  /\ page_docs r = drop 40 (page_docs (OrderRepository.findWithQuery db (sample_order_query 1 60)))
  /\ page_docs r = take 20 (drop 40 sample_orders)
  /\ map orderNumber (page_docs r) = [Some 41; Some 42; Some 43; Some 44; Some 45].
Proof.
  pose proof (findWithQuery_pagination (list_store sample_orders)
                (sample_order_query 3 20) ltac:(cbn; lia) ltac:(cbn; lia)) as H.
  cbv zeta in H.
  destruct H as (_ & Ht & Hc & _ & Hp & _ & _ & _ & H320 & _).
  specialize (H320 eq_refl eq_refl (fun n _ => eq_refl)).
  destruct H320 as [H1 H2].
  cbv zeta.
  split; [exact Ht|]. split; [exact Hc|].
  split; [rewrite (Hp ltac:(cbn; lia)); reflexivity|].
  split; [exact H1|]. split; [exact H2|].
  rewrite H2. reflexivity.
Defined.

(** C3 fails as stated. The store holds the welcome coupon, active, within
    its dates in March 2024 and with its minimum reached; the query of the
    lookup is rejected, and validateCoupon returns the answer of its catch,
    'Error validating coupon', which is none of the six outcomes. With the
    query answered the same call finds the coupon valid. *)
Lemma validateCoupon_counterexample :
  let db := list_store [sample_coupon_document] in
  let r :=
    CouponRepository.validateCoupon Z.ltb Z.gtb db (Some (Thrown "UNAVAILABLE"))
      1710000000000 "bemvindo10" 3480 in
  CouponRepository.valid r = false
  /\ CouponRepository.error r = Some CouponRepository.ErrorValidating
  /\ (forall o, outcome_of r <> Some o)
  /\ outcome_of
       (CouponRepository.validateCoupon Z.ltb Z.gtb db None 1710000000000
          "bemvindo10" 3480)
     = Some VALID.
Proof.
  cbv zeta. split; [reflexivity|]. split; [reflexivity|].
  split; [intros o; discriminate|]. vm_compute. reflexivity.
Qed.

Section CartSamples.
Import Cart.



End CartSamples.

(** On the sample store the four sample writes leave one order, the sample
    order, canceled with its reason, its closing time and one payment. *)
Example sample_writes_result :
  orders_after sample_writes sample_store
  = {[ "order-1" :=
         mkOrder "demo" (Some "05") [sample_item] canceled dine_in
           (OrderRepository.calc_amounts [sample_item] dine_in) None
           (Some [mkPayment card 3828 None]) (Some 4321) 10 130 (Some 130)
           (Some "paid twice") ]}.
Proof. vm_compute. reflexivity. Qed.

Lemma getAllProducts_pagination_witness :
  ErrorHandler.pg_total
    (snd (ProductController.getAllProducts (list_store sample_products)
            sample_product_query)) = 3
  /\ ErrorHandler.pg_totalPages
       (snd (ProductController.getAllProducts (list_store sample_products)
               sample_product_query)) = 1.
Proof.
  destruct (getAllProducts_pagination (list_store sample_products) sample_product_query)
    as (_ & _ & Htotal & Hpages & _).
  - cbn. lia.
  - cbn. lia.
  - cbn. lia.
  - split; [exact Htotal|exact Hpages].
Defined.
